(** * todo-app: task ranking, offline mutation queue and id reconciliation

    A shallow embedding of
    - [TodoApp/src/utils/taskSorting.ts]   (client ranking, [smartSortTasks]),
    - [backend/src/models/Task.ts]         (schema hook and [getSmartSortedTasks]),
    - the task controller                  ([createTask], [updateTask], [completeTask]),
    - the offline queue module             ([addToOfflineQueue], [processOfflineQueue],
                                            [updateCachedTasksWithRealIds]),
    and of the code around them: the client's filters, the three
    computations of the task statistics, the rest of the task controller
    ([getTasks], [getTaskById], [deleteTask], [getTaskStats]), the background
    sync manager, and the thunks and reducers of the task slice;
    followed by the properties established about them. *)

From Stdlib Require Import ZArith QArith Qround Qpower Lqa Lia.
From Stdlib Require Import Floats.PrimFloat Floats.FloatOps Uint63.
From stdpp Require Import gmap strings list sorting pretty.

Set Warnings "-inexact-float".
Local Open Scope Z_scope.

(** ** Data model *)

(** [TaskPriority] and [TaskStatus] are string enums; at run time a task is a
    JSON object, so the two fields hold arbitrary strings or are missing
    ([None]).  The constants below are the enum members. *)
Module TaskPriority.
Definition LOW : string := "low".
Definition MEDIUM : string := "medium".
Definition HIGH : string := "high".
End TaskPriority.

Module TaskStatus.
Definition PENDING : string := "pending".
Definition IN_PROGRESS : string := "in_progress".
Definition COMPLETED : string := "completed".
End TaskStatus.

(** Instants ([Date] values, ISO date strings on the client) are milliseconds
    since the epoch, the value of [getTime()]; date strings are taken to be
    well formed, as [toISOString()] produces them. *)
Record Task := mkTask {
  _id : string;
  title : string;
  description : string;
  priority : option string;
  status : option string;
  dueDate : Z;
  category : option string;
  userId : string;
  createdAt : Z;
  updatedAt : Z;
  completedAt : option Z
}.

Definition set_id (i : string) (t : Task) : Task :=
  mkTask i (title t) (description t) (priority t) (status t) (dueDate t)
         (category t) (userId t) (createdAt t) (updatedAt t) (completedAt t).

Definition set_completedAt (c : option Z) (t : Task) : Task :=
  mkTask (_id t) (title t) (description t) (priority t) (status t) (dueDate t)
         (category t) (userId t) (createdAt t) (updatedAt t) c.

(** [x === 'literal'] on a possibly missing string field. *)
Definition str_is (lit : string) (x : option string) : bool :=
  match x with
  | Some s => String.eqb s lit
  | None => false
  end.

Definition isCompleted (t : Task) : bool := str_is TaskStatus.COMPLETED (status t).

(** ** [Array.prototype.sort]

    The engine only reads the sign of the comparator's result, and the sort is
    stable (ECMAScript 2019 and later).  For a consistent comparator every
    stable sort computes the same array, so the sort is embedded as a stable
    insertion sort: [x] stays in front of [y] unless the comparator puts it
    strictly after. *)
Section ArraySort.
Context {A : Type}.
Variable cmp : A -> A -> Z.

Fixpoint sort_insert (x : A) (l : list A) : list A :=
  match l with
  | [] => [x]
  | y :: l' => if cmp x y <=? 0 then x :: y :: l' else y :: sort_insert x l'
  end.

Fixpoint array_sort (l : list A) : list A :=
  match l with
  | [] => []
  | x :: l' => sort_insert x (array_sort l')
  end.

(** [x] may stand in front of [y]. *)
Definition may_precede (x y : A) : Prop := cmp x y <= 0.
End ArraySort.

(** ** Client ranking: [taskSorting.ts] *)
Module Client.

(** [getPriorityScore]: a [switch] over the enum with a [default] branch. *)
Definition getPriorityScore (priority : option string) : float :=
  if str_is TaskPriority.HIGH priority then 3
  else if str_is TaskPriority.MEDIUM priority then 2
  else if str_is TaskPriority.LOW priority then 1
  else 1.

Definition MS_PER_DAY : Z := 1000 * 60 * 60 * 24.
Definition MS_PER_HOUR : Z := 1000 * 60 * 60.

(** [Math.ceil(x / d)] for an integer [x] and a positive integer [d].  In
    doubles a quotient in (-1, 0] rounds up to -0 or 0, and both satisfy
    [=== 0] and fail [< 0], as the integer 0 does. *)
Definition ceil_div (x d : Z) : Z := - ((- x) / d).

(** [getUrgencyScore]; [now] is the reading of [new Date()]. *)
Definition getUrgencyScore (now dueDate : Z) : float :=
  let diffInDays := ceil_div (dueDate - now) MS_PER_DAY in
  if diffInDays <? 0 then 10
  else if diffInDays =? 0 then 8
  else if diffInDays =? 1 then 6
  else if diffInDays <=? 3 then 4
  else if diffInDays <=? 7 then 2
  else 1.

(** [getRecencyScore].  [diffInHours] is the double [(now - created) / 3600000];
    for an integer numerator, [diffInHours <= k] holds exactly when
    [now - created <= 3600000 * k], which is how the tests are written here. *)
Definition getRecencyScore (now createdAt : Z) : float :=
  let diffMs := now - createdAt in
  if diffMs <=? 1 * MS_PER_HOUR then 5
  else if diffMs <=? 24 * MS_PER_HOUR then 3
  else if diffMs <=? 72 * MS_PER_HOUR then 2
  else 1.

(** The composite score of a non-completed task, in IEEE doubles. *)
Definition compositeScore (now : Z) (t : Task) : float :=
  (getPriorityScore (priority t) * 0.4
   + getUrgencyScore now (dueDate t) * 0.5
   + getRecencyScore now (createdAt t) * 0.1)%float.

(** The sign of a double: negative, positive, or zero. *)
Definition float_sign (x : float) : Z :=
  if (x <? 0)%float then -1 else if (0 <? x)%float then 1 else 0.

(** The comparator passed to [sort] in [smartSortTasks].  The score functions
    read [new Date()] on every call; one sort is taken at one instant [now],
    the shared reference instant of the ranking contract. *)
Definition compareTasks (now : Z) (a b : Task) : Z :=
  if isCompleted a && negb (isCompleted b) then 1
  else if isCompleted b && negb (isCompleted a) then -1
  else if isCompleted a && isCompleted b then updatedAt b - updatedAt a
  else float_sign (compositeScore now b - compositeScore now a)%float.

(** [smartSortTasks] on array values: [[...tasks].sort(comparator)]. *)
Definition smartSortTasks (now : Z) (tasks : list Task) : list Task :=
  array_sort (compareTasks now) tasks.

End Client.

(** ** Strings and doubles on the server *)

(** [String.prototype.trim], which the schema applies to the paths declared
    with [trim: true].  Strings are taken in UTF-8; the white space and line
    terminators of ECMAScript are the six ASCII characters 9 to 13 and 32,
    U+00A0, U+1680, U+2000 to U+200A, U+2028, U+2029, U+202F, U+205F, U+3000
    and U+FEFF. *)
Module Trim.

Definition byte_is (n : nat) (c : Ascii.ascii) : bool := Nat.eqb (Ascii.nat_of_ascii c) n.

Definition space1 (c : Ascii.ascii) : bool :=
  let n := Ascii.nat_of_ascii c in
  ((9 <=? n)%nat && (n <=? 13)%nat) || Nat.eqb n 32.

(** The two-byte sequence [c1 c2] is U+00A0. *)
Definition space2 (c1 c2 : Ascii.ascii) : bool := byte_is 194 c1 && byte_is 160 c2.

(** The three-byte sequence [c1 c2 c3] is one of the other characters. *)
Definition space3 (c1 c2 c3 : Ascii.ascii) : bool :=
  let n3 := Ascii.nat_of_ascii c3 in
  (byte_is 225 c1 && byte_is 154 c2 && byte_is 128 c3)
  || (byte_is 226 c1 && byte_is 128 c2
      && (((128 <=? n3)%nat && (n3 <=? 138)%nat)
          || Nat.eqb n3 168 || Nat.eqb n3 169 || Nat.eqb n3 175))
  || (byte_is 226 c1 && byte_is 129 c2 && byte_is 159 c3)
  || (byte_is 227 c1 && byte_is 128 c2 && byte_is 128 c3)
  || (byte_is 239 c1 && byte_is 187 c2 && byte_is 191 c3).

(** Drops the white space in front of a sequence of bytes; [backwards] says
    that the sequence is read from its end. *)
Fixpoint strip (backwards : bool) (l : list Ascii.ascii) : list Ascii.ascii :=
  match l with
  | [] => []
  | c1 :: l1 =>
      if space1 c1 then strip backwards l1
      else
        match l1 with
        | [] => l
        | c2 :: l2 =>
            if (if backwards then space2 c2 c1 else space2 c1 c2)
            then strip backwards l2
            else
              match l2 with
              | [] => l
              | c3 :: l3 =>
                  if (if backwards then space3 c3 c2 c1 else space3 c1 c2 c3)
                  then strip backwards l3
                  else l
              end
        end
  end.

Definition trim (s : string) : string :=
  String.string_of_list_ascii
    (List.rev (strip true (List.rev (strip false (String.list_ascii_of_string s))))).

End Trim.

(** The aggregation pipeline computes [$divide], [$multiply] and [$add] in
    IEEE 754 binary64.  A double is represented by the rational number it
    denotes, and [round53] rounds a rational to the nearest number with a
    significand of 53 bits, ties to even.  The exponent range is left open:
    with operands that are 64-bit integers no result of the pipeline
    overflows or is subnormal. *)
Module Double.

(** [floor (log2 q)] for a positive [q]. *)
Definition ilog2 (q : Q) : Z :=
  let k := Z.log2 (Qnum q) - Z.log2 (Zpos (Qden q)) in
  if Qle_bool (2 ^ k) q then k else k - 1.

(** The integer nearest to [s], the even one of two that are equally near. *)
Definition round_half_even (s : Q) : Z :=
  let f := Qfloor s in
  match Qcompare (s - inject_Z f) (1 # 2) with
  | Lt => f
  | Gt => f + 1
  | Eq => if Z.even f then f else f + 1
  end.

Definition round53_pos (q : Q) : Q :=
  let e := ilog2 q in
  (inject_Z (round_half_even (q * 2 ^ (52 - e))) * 2 ^ (e - 52))%Q.

Definition round53 (q : Q) : Q :=
  match Qcompare q 0 with
  | Eq => 0%Q
  | Gt => round53_pos q
  | Lt => (- round53_pos (- q))%Q
  end.

End Double.

(** ** Server: [models/Task.ts] and the task controller *)
Module Server.
Import Double.

(** *** Ranking pipeline of [getSmartSortedTasks] *)

(** [$switch] on [$priority] with [default: 2]. *)
Definition priorityScore (priority : option string) : Q :=
  if str_is "high" priority then 3
  else if str_is "medium" priority then 2
  else if str_is "low" priority then 1
  else 2.

(** [$cond { $lte: [$dueDate, now] } then 10 else 86400000 / (dueDate - now)].
    [$subtract] of two dates is a 64-bit integer, which [$divide] converts to
    a double before it divides. *)
Definition urgencyScore (now dueDate : Z) : Q :=
  if dueDate <=? now then 10
  else round53 (86400000 / round53 (inject_Z (dueDate - now))).

(** [smartScore = priorityScore * 2 + urgencyScore * 3 + (now - createdAt) / 86400000].
    The first product is an integer.  [$add] sums its operands in a
    double-double accumulator and converts the total to a double at the
    end, which is taken here as one rounding of the exact sum. *)
Definition smartScore (now : Z) (t : Task) : Q :=
  round53 (priorityScore (priority t) * 2
           + round53 (urgencyScore now (dueDate t) * 3)
           + round53 (round53 (inject_Z (now - createdAt t)) / 86400000)).

(** BSON order on a string field that may be missing: a missing field sorts
    as null, before every string; strings compare by their bytes. *)
Definition bson_compare (x y : option string) : comparison :=
  match x, y with
  | None, None => Eq
  | None, Some _ => Lt
  | Some _, None => Gt
  | Some s1, Some s2 => String.compare s1 s2
  end.

Definition sign_of (c : comparison) : Z :=
  match c with Lt => -1 | Eq => 0 | Gt => 1 end.

(** [$sort: { status: 1, smartScore: -1, createdAt: -1 }] as a comparator. *)
Definition sortCompare (now : Z) (a b : Task) : Z :=
  match bson_compare (status a) (status b) with
  | Lt => -1
  | Gt => 1
  | Eq =>
      match Qcompare (smartScore now b) (smartScore now a) with
      | Lt => -1
      | Gt => 1
      | Eq => sign_of (Z.compare (createdAt b) (createdAt a))
      end
  end.

(** [getSmartSortedTasks(userId, filters)] over the task collection: the
    [$match] stage, then the computed fields and the [$sort] stage. *)
Definition getSmartSortedTasks (now : Z) (uid : string) (filters : Task -> bool)
           (collection : list Task) : list Task :=
  array_sort (sortCompare now)
    (List.filter (fun t => String.eqb (userId t) uid && filters t) collection).

(** *** Persistence: the schema's [pre('save')] hook and the controller *)

(** [TaskSchema.pre('save', ...)]; [statusModified] is [this.isModified('status')]. *)
Definition preSave (now : Z) (statusModified : bool) (t : Task) : Task :=
  if statusModified then
    if isCompleted t && negb (bool_decide (is_Some (completedAt t)))
    then set_completedAt (Some now) t
    else if negb (isCompleted t) then set_completedAt None t
    else t
  else t.

(** Request body of [POST /api/tasks].  For the four required fields [None]
    is a missing or falsy value (the controller tests [!field]); for
    [category] it is a missing one. *)
Record CreateBody := mkCreateBody {
  b_title : option string;
  b_description : option string;
  b_priority : option string;
  b_dueDate : option Z;
  b_category : option string
}.

(** The body of [PUT /api/tasks/:id], which the controller hands to
    [findOneAndUpdate] as it is: the schema paths it names, [_id] and
    [userId] among them.  Paths outside the schema are dropped by Mongoose,
    and so are [createdAt] and [updatedAt], which the timestamps option
    manages; update operators are not modelled. *)
Record UpdateDoc := mkUpdateDoc {
  u_id : option string;
  u_title : option string;
  u_description : option string;
  u_priority : option string;
  u_status : option string;
  u_dueDate : option Z;
  u_category : option string;
  u_userId : option string;
  u_completedAt : option (option Z)
}.

(** The update as a document of the schema receives it: the strings of the
    paths declared with [trim: true] trimmed, [updatedAt] set; [u_userId]
    holds an object id. *)
Definition applyUpdate (now : Z) (u : UpdateDoc) (t : Task) : Task :=
  mkTask (_id t)
         (from_option Trim.trim (title t) (u_title u))
         (from_option Trim.trim (description t) (u_description u))
         (from_option Some (priority t) (u_priority u))
         (from_option Some (status t) (u_status u))
         (default (dueDate t) (u_dueDate u))
         (from_option (fun c => Some (Trim.trim c)) (category t) (u_category u))
         (default (userId t) (u_userId u))
         (createdAt t) now
         (default (completedAt t) (u_completedAt u)).

(** [Model.findOneAndUpdate({_id, userId}, update, {new: true})]: the first
    matching document is updated in place and returned.  Query middleware
    is not document middleware: the [pre('save')] hook does not run. *)
Fixpoint findOneAndUpdate (now : Z) (id uid : string) (u : UpdateDoc)
         (db : list Task) : option Task * list Task :=
  match db with
  | [] => (None, [])
  | t :: db' =>
      if String.eqb (_id t) id && String.eqb (userId t) uid
      then let t' := applyUpdate now u t in (Some t', t' :: db')
      else let '(r, db'') := findOneAndUpdate now id uid u db' in (r, t :: db'')
  end.

Section Controller.
(** Schema validation, the id the store assigns to a new document, and the
    constructor of object ids are external to the controller.  [validate]
    is [validateSync] on a document, and the verdict [save] reaches when it
    validates the document again; [validateUpdate] is what [runValidators]
    checks, the values an update sets, not the document it is applied to;
    [toObjectId s] is the id [new mongoose.Types.ObjectId(s)] denotes, [None]
    where it throws. *)
Variable validate : Task -> bool.
Variable newObjectId : list Task -> string.
Variable toObjectId : string -> option string.
Variable validateUpdate : UpdateDoc -> bool.

(** [document.save()] of a new document: every path that was set counts
    as modified; the hook runs, then the document is stored. *)
Definition saveNew (now : Z) (t : Task) (db : list Task) : Task * list Task :=
  let t' := preSave now true t in (t', db ++ [t']).

(** [new Task(taskData)]: the schema's setters trim the title, the
    description and the category, and a missing category gets its default. *)
Definition newTask (now : Z) (id ti de pr : string) (du : Z)
           (cat : option string) (userId : string) : Task :=
  mkTask id (Trim.trim ti) (Trim.trim de) (Some pr) (Some TaskStatus.PENDING) du
         (Some (from_option Trim.trim "General" cat)) userId now now None.

(** A string field of the body as the test [!field] sees it: the empty
    string is falsy. *)
Definition given (field : option string) : option string :=
  match field with
  | Some EmptyString => None
  | _ => field
  end.

(** [createTask]; [user] is [req.user?.id].  [None] stands for an error
    response (400, 401, 500). *)
Definition createTask (now : Z) (user : option string) (body : CreateBody)
           (db : list Task) : option Task * list Task :=
  match given (b_title body), given (b_description body),
        given (b_priority body), b_dueDate body with
  | Some ti, Some de, Some pr, Some du =>
      match user with
      | None => (None, db)
      | Some userIdStr =>
          if String.eqb userIdStr "" then (None, db)
          else
            match toObjectId userIdStr with
            | None => (None, db)
            | Some userId =>
                let task := newTask now (newObjectId db) ti de pr du
                                    (b_category body) userId in
                if validate task
                then let '(saved, db') := saveNew now task db in (Some saved, db')
                else (None, db)
            end
      end
  | _, _, _, _ => (None, db)
  end.

(** Mongoose casts the update through the schema before it is sent: a
    [userId] or an [_id] that is not an object id is a cast error. *)
Definition castUpdate (u : UpdateDoc) : option UpdateDoc :=
  match from_option (fun s => Some <$> toObjectId s) (Some None) (u_id u),
        from_option (fun s => Some <$> toObjectId s) (Some None) (u_userId u) with
  | Some i, Some o =>
      Some (mkUpdateDoc i (u_title u) (u_description u) (u_priority u)
                        (u_status u) (u_dueDate u) (u_category u) o
                        (u_completedAt u))
  | _, _ => None
  end.

(** [updateTask]: [findOneAndUpdate] with [runValidators]; [uid] and [id]
    are the object ids of the filter.  The update is cast, then validated,
    then sent.  [_id] is immutable: the store refuses an update that names
    another [_id] than the one of the document.  [None] stands for an error
    response (404, 500). *)
Definition updateTask (now : Z) (uid id : string) (u : UpdateDoc)
           (db : list Task) : option Task * list Task :=
  match castUpdate u with
  | None => (None, db)
  | Some u' =>
      if negb (validateUpdate u') then (None, db)
      else if from_option (fun i => negb (String.eqb i id)) false (u_id u')
      then (None, db)
      else
        match findOneAndUpdate now id uid u' db with
        | (Some t', db') => (Some t', db')
        | (None, _) => (None, db)
        end
  end.

(** [completeTask]: [findOneAndUpdate(..., { status: COMPLETED }, { new: true })]. *)
Definition completeTask (now : Z) (uid id : string) (db : list Task)
  : option Task * list Task :=
  findOneAndUpdate now id uid
    (mkUpdateDoc None None None None (Some TaskStatus.COMPLETED) None None None None)
    db.
End Controller.

End Server.

(** ** Offline queue module *)
Module OfflineQueue.

(** [TaskForm] and [Partial<TaskForm>]. *)
Record TaskForm := mkTaskForm {
  f_title : string;
  f_description : string;
  f_priority : option string;
  f_dueDate : Z;
  f_category : option string
}.

Record TaskUpdates := mkTaskUpdates {
  p_title : option string;
  p_description : option string;
  p_priority : option string;
  p_dueDate : option Z;
  p_category : option string
}.

(** [type] and [data] of a [PendingOperation], in the three shapes the module
    enqueues: [{...taskData, tempId}], [{id, updates}], [{id}]. *)
Inductive Operation :=
| CREATE (taskData : TaskForm) (tempId : option string)
| UPDATE (id : string) (updates : TaskUpdates)
| DELETE (id : string).

Record PendingOperation := mkOp {
  op_id : string;
  operation : Operation;
  timestamp : Z
}.

(** The three AsyncStorage keys the module uses, with their parsed values;
    [None] is an absent key. *)
Record Storage := mkStorage {
  offlineQueue : option (list PendingOperation);
  tempTasks : option (list Task);
  cachedTasks : option (list Task)
}.

(** The envelope [taskAPI] returns: [success] and [data?._id]. *)
Record ApiResponse := mkResponse {
  success : bool;
  data_id : option string
}.

(** A request handed to [taskAPI]. *)
Inductive ApiRequest :=
| ReqCreate (taskData : TaskForm)
| ReqUpdate (id : string) (updates : TaskUpdates)
| ReqDelete (id : string).

(** The remote service behind [taskAPI], with its own state.  The three
    functions catch every transport error and answer [success = false]. *)
Record TaskAPI (S : Type) := mkTaskAPI {
  api_createTask : TaskForm -> S -> ApiResponse * S;
  api_updateTask : string -> TaskUpdates -> S -> ApiResponse * S;
  api_deleteTask : string -> S -> ApiResponse * S
}.
Arguments api_createTask {S}.
Arguments api_updateTask {S}.
Arguments api_deleteTask {S}.

(** Truthiness of a possibly missing string. *)
Definition truthy (x : option string) : bool :=
  match x with
  | Some s => negb (String.eqb s "")
  | None => false
  end.

(** The world the module runs in: device storage, the outcome of each
    upcoming AsyncStorage call ([true] = the call rejects; none left = no
    fault), the clock with the advance before each upcoming reading, the
    console, the remote service and the requests sent to it. *)
Record World (S : Type) := mkWorld {
  storage : Storage;
  faults : list bool;
  clock : Z;
  ticks : list Z;
  console : list string;
  remote : S;
  requests : list ApiRequest
}.
Arguments mkWorld {S}.
Arguments storage {S}.
Arguments faults {S}.
Arguments clock {S}.
Arguments ticks {S}.
Arguments console {S}.
Arguments remote {S}.
Arguments requests {S}.

(** Outcome of an [async] function: a value or a thrown error. *)
Inductive Result (A : Type) :=
| Ok (a : A)
| Thrown (e : string).
Arguments Ok {A}.
Arguments Thrown {A}.

Section Effects.
Context {S : Type}.

Definition M (A : Type) : Type := World S -> Result A * World S.

Definition ret {A} (a : A) : M A := fun w => (Ok a, w).

Definition bind {A B} (m : M A) (k : A -> M B) : M B :=
  fun w => match m w with
           | (Ok a, w') => k a w'
           | (Thrown e, w') => (Thrown e, w')
           end.

(** [try { body } catch (error) { handler }]. *)
Definition try_catch {A} (body : M A) (handler : string -> M A) : M A :=
  fun w => match body w with
           | (Ok a, w') => (Ok a, w')
           | (Thrown e, w') => handler e w'
           end.

Definition throw {A} (e : string) : M A := fun w => (Thrown e, w).

Definition console_write (msg : string) : M unit :=
  fun w => (Ok tt, mkWorld (storage w) (faults w) (clock w) (ticks w)
                           (console w ++ [msg]) (remote w) (requests w)).

(** [Date.now()]. *)
Definition Date_now : M Z :=
  fun w => let t := clock w + hd 0 (ticks w) in
           (Ok t, mkWorld (storage w) (faults w) t (tl (ticks w))
                          (console w) (remote w) (requests w)).

(** One AsyncStorage call: it rejects when the next outcome says so,
    otherwise it acts on the storage. *)
Definition asyncStorage {A} (f : Storage -> A * Storage) : M A :=
  fun w => match faults w with
           | true :: fs =>
               (Thrown "AsyncStorage",
                mkWorld (storage w) fs (clock w) (ticks w)
                        (console w) (remote w) (requests w))
           | fs =>
               let '(a, s') := f (storage w) in
               (Ok a, mkWorld s' (tl fs) (clock w) (ticks w)
                              (console w) (remote w) (requests w))
           end.

(** One [taskAPI] call. *)
Definition callAPI (req : ApiRequest) (f : S -> ApiResponse * S) : M ApiResponse :=
  fun w => let '(r, s') := f (remote w) in
           (Ok r, mkWorld (storage w) (faults w) (clock w) (ticks w)
                          (console w) s' (requests w ++ [req])).
End Effects.

#[global] Instance M_ret {S} : MRet (@M S) := fun A a => ret a.
#[global] Instance M_bind {S} : MBind (@M S) := fun A B k m => bind m k.

Section Module.
Context {RemoteState : Type}.
Variable api : TaskAPI RemoteState.
Local Abbreviation M := (@M RemoteState).

(** Storage accessors: [getItem], [setItem], [removeItem] on the three keys. *)
Definition getItem_offlineQueue : M (option (list PendingOperation)) :=
  asyncStorage (fun s => (offlineQueue s, s)).
Definition setItem_offlineQueue (q : list PendingOperation) : M unit :=
  asyncStorage (fun s => (tt, mkStorage (Some q) (tempTasks s) (cachedTasks s))).
Definition removeItem_offlineQueue : M unit :=
  asyncStorage (fun s => (tt, mkStorage None (tempTasks s) (cachedTasks s))).
Definition getItem_tempTasks : M (option (list Task)) :=
  asyncStorage (fun s => (tempTasks s, s)).
Definition setItem_tempTasks (l : list Task) : M unit :=
  asyncStorage (fun s => (tt, mkStorage (offlineQueue s) (Some l) (cachedTasks s))).
Definition removeItem_tempTasks : M unit :=
  asyncStorage (fun s => (tt, mkStorage (offlineQueue s) None (cachedTasks s))).
Definition getItem_cachedTasks : M (option (list Task)) :=
  asyncStorage (fun s => (cachedTasks s, s)).
Definition setItem_cachedTasks (l : list Task) : M unit :=
  asyncStorage (fun s => (tt, mkStorage (offlineQueue s) (tempTasks s) (Some l))).

(** [getOfflineQueue] *)
Definition getOfflineQueue : M (list PendingOperation) :=
  try_catch
    (queueData ← getItem_offlineQueue;
     mret (default [] queueData))
    (fun _ => console_write "Failed to get offline queue:";; mret []).

(** [addToOfflineQueue] *)
Definition addToOfflineQueue (op : Operation) : M unit :=
  try_catch
    (queue ← getOfflineQueue;
     t1 ← Date_now;
     t2 ← Date_now;
     let newOperation := mkOp (pretty t1) op t2 in
     setItem_offlineQueue (queue ++ [newOperation]))
    (fun _ => console_write "Failed to add to offline queue:").

(** [clearOfflineQueue] *)
Definition clearOfflineQueue : M unit :=
  try_catch removeItem_offlineQueue
    (fun _ => console_write "Failed to clear offline queue:").

(** [getTempTasks] *)
Definition getTempTasks : M (list Task) :=
  try_catch
    (tempData ← getItem_tempTasks;
     mret (default [] tempData))
    (fun _ => console_write "Failed to get temp tasks:";; mret []).

(** [clearTempTasks] *)
Definition clearTempTasks : M unit :=
  try_catch removeItem_tempTasks
    (fun _ => console_write "Failed to clear temp tasks:").

(** [createTaskOffline]; its [catch] clause rethrows. *)
Definition createTaskOffline (taskData : TaskForm) : M Task :=
  try_catch
    (t ← Date_now;
     let tempId := "temp_" +:+ pretty t in
     created ← Date_now;
     updated ← Date_now;
     let newTask :=
       mkTask tempId (f_title taskData) (f_description taskData)
              (f_priority taskData) (Some TaskStatus.PENDING)
              (f_dueDate taskData)
              (Some (if truthy (f_category taskData)
                     then default "" (f_category taskData) else "General"))
              "temp_user" created updated None in
     tempTasks ← getTempTasks;
     setItem_tempTasks (tempTasks ++ [newTask]);;
     cached ← getItem_cachedTasks;
     setItem_cachedTasks (newTask :: default [] cached);;
     addToOfflineQueue (CREATE taskData (Some tempId));;
     mret newTask)
    (fun e => throw e).

(** [tasks.findIndex(t => t._id === taskId)] *)
Fixpoint findIndex (taskId : string) (tasks : list Task) : option nat :=
  match tasks with
  | [] => None
  | t :: tasks' =>
      if String.eqb (_id t) taskId then Some O
      else S <$> findIndex taskId tasks'
  end.

(** [{...task, ...updates, dueDate: ..., updatedAt: ...}] *)
Definition mergeUpdates (now : Z) (updates : TaskUpdates) (t : Task) : Task :=
  mkTask (_id t)
         (default (title t) (p_title updates))
         (default (description t) (p_description updates))
         (from_option Some (priority t) (p_priority updates))
         (status t)
         (default (dueDate t) (p_dueDate updates))
         (from_option Some (category t) (p_category updates))
         (userId t) (createdAt t) now (completedAt t).

(** [updateTaskOffline] *)
Definition updateTaskOffline (taskId : string) (updates : TaskUpdates) : M Task :=
  try_catch
    (cached ← getItem_cachedTasks;
     let tasks := default [] cached in
     match findIndex taskId tasks with
     | Some taskIndex =>
         match tasks !! taskIndex with
         | Some old =>
             now ← Date_now;
             let new := mergeUpdates now updates old in
             setItem_cachedTasks (<[taskIndex := new]> tasks);;
             addToOfflineQueue (UPDATE taskId updates);;
             mret new
         | None => throw "Task not found"
         end
     | None => throw "Task not found"
     end)
    (fun e => console_write "Failed to update task offline:";; throw e).

(** [deleteTaskOffline] *)
Definition deleteTaskOffline (taskId : string) : M unit :=
  try_catch
    (cached ← getItem_cachedTasks;
     let tasks := default [] cached in
     setItem_cachedTasks
       (List.filter (fun t => negb (String.eqb (_id t) taskId)) tasks);;
     addToOfflineQueue (DELETE taskId))
    (fun e => console_write "Failed to delete task offline:";; throw e).

(** The body of [tasks.forEach] in [updateCachedTasksWithRealIds].  The
    mapping is a plain object keyed by temporary id; task ids are taken not
    to be names of [Object.prototype] members. *)
Definition remapTask (mappings : gmap string string) (task : Task) : Task :=
  if truthy (mappings !! _id task)
  then set_id (default "" (mappings !! _id task)) task
  else task.

(** [updateCachedTasksWithRealIds]; the cache is written back only when
    some entry changed ([updated]). *)
Definition updateCachedTasksWithRealIds (mappings : gmap string string) : M unit :=
  try_catch
    (cached ← getItem_cachedTasks;
     match cached with
     | None => mret tt
     | Some tasks =>
         let updated := existsb (fun task => truthy (mappings !! _id task)) tasks in
         if updated then setItem_cachedTasks (remapTask mappings <$> tasks)
         else mret tt
     end)
    (fun _ => console_write "Failed to update cached tasks with real IDs:").

(** One iteration of the [for (const operation of queue)] loop, acting on
    the loop's two accumulators. *)
Definition syncOperation (o : PendingOperation)
           (acc : list string * gmap string string)
  : M (list string * gmap string string) :=
  let '(successfulOperations, tempTaskMappings) := acc in
  try_catch
    (match operation o with
     | CREATE taskDataForAPI tempId =>
         response ← callAPI (ReqCreate taskDataForAPI) (api_createTask api taskDataForAPI);
         if success response then
           mret (successfulOperations ++ [op_id o],
                 if truthy tempId && truthy (data_id response)
                 then <[default "" tempId := default "" (data_id response)]> tempTaskMappings
                 else tempTaskMappings)
         else
           console_write "CREATE failed:";; mret acc
     | UPDATE id updates =>
         updateResponse ← callAPI (ReqUpdate id updates) (api_updateTask api id updates);
         if success updateResponse then
           mret (successfulOperations ++ [op_id o], tempTaskMappings)
         else
           console_write " UPDATE failed:";; mret acc
     | DELETE id =>
         deleteResponse ← callAPI (ReqDelete id) (api_deleteTask api id);
         if success deleteResponse then
           mret (successfulOperations ++ [op_id o], tempTaskMappings)
         else
           console_write "DELETE failed:";; mret acc
     end)
    (fun _ => console_write "Failed to sync operation:";; mret acc).

Fixpoint syncLoop (queue : list PendingOperation)
         (acc : list string * gmap string string)
  : M (list string * gmap string string) :=
  match queue with
  | [] => mret acc
  | o :: queue' => acc' ← syncOperation o acc; syncLoop queue' acc'
  end.

(** [successfulOperations.includes(id)] *)
Definition includes (l : list string) (x : string) : bool :=
  existsb (String.eqb x) l.

(** [processOfflineQueue] *)
Definition processOfflineQueue : M unit :=
  try_catch
    (queue ← getOfflineQueue;
     if bool_decide (length queue = 0%nat) then (mret tt : M unit)
     else
       '(successfulOperations, tempTaskMappings) ← syncLoop queue ([], ∅);
       (if bool_decide (0 < size tempTaskMappings)%nat
        then updateCachedTasksWithRealIds tempTaskMappings
        else (mret tt : M unit));;
       if bool_decide (0 < length successfulOperations)%nat then
         let remainingQueue :=
           List.filter (fun o => negb (includes successfulOperations (op_id o))) queue in
         setItem_offlineQueue remainingQueue;;
         if bool_decide (length remainingQueue = 0%nat) then clearTempTasks
         else console_write "operations still pending - keeping temp tasks"
       else console_write "No operations were successfully synced")
    (fun _ => console_write "Failed to process offline queue:").
End Module.

End OfflineQueue.

(** ** Arrays on the heap: [smartSortTasks] with its argument by reference *)
Module Heap.

(** The heap maps array references to array contents. *)
Abbreviation heap := (gmap nat (list Task)).

(** [[...tasks]]: a new array with the elements of [tasks]. *)
Definition spread (tasks : nat) (h : heap) : option (nat * heap) :=
  l ← h !! tasks;
  let r := fresh (dom h) in
  Some (r, <[r := l]> h).

(** [array.sort(cmp)]: sorts the array in place and returns its reference. *)
Definition sort_in_place (cmp : Task -> Task -> Z) (r : nat) (h : heap)
  : option (nat * heap) :=
  l ← h !! r;
  Some (r, <[r := array_sort cmp l]> h).

(** [smartSortTasks(tasks)] *)
Definition smartSortTasks (now : Z) (tasks : nat) (h : heap) : option (nat * heap) :=
  '(r, h1) ← spread tasks h;
  sort_in_place (Client.compareTasks now) r h1.

End Heap.

(** ** Client filters: [taskSorting.ts] *)
Module ClientFilters.

(** [filterTasksByStatus(tasks, status?)]: a missing or empty [status]
    returns the argument. *)
Definition filterTasksByStatus (tasks : list Task) (st : option string) : list Task :=
  if negb (OfflineQueue.truthy st) then tasks
  else List.filter (fun task => str_is (default "" st) (status task)) tasks.

(** [filterTasksByPriority(tasks, priority?)] *)
Definition filterTasksByPriority (tasks : list Task) (pr : option string) : list Task :=
  if negb (OfflineQueue.truthy pr) then tasks
  else List.filter (fun task => str_is (default "" pr) (priority task)) tasks.

End ClientFilters.

(** ** Task statistics *)

Module Stats.
(** [TaskStats]: the six counters of the dashboard. *)
Record TaskStats := mkStats {
  total : Z;
  completed : Z;
  pending : Z;
  inProgress : Z;
  highPriority : Z;
  overdue : Z
}.
End Stats.

(** *** Client: [calculateStats] of [taskSlice.ts] *)
Module ClientStats.
Import Stats.

(** The body of [tasks.forEach(task => ...)], on the counters. *)
Definition countTask (now : Z) (stats : TaskStats) (task : Task) : TaskStats :=
  let stats1 :=
    if str_is TaskStatus.COMPLETED (status task) then
      mkStats (total stats) (completed stats + 1) (pending stats)
              (inProgress stats) (highPriority stats) (overdue stats)
    else if str_is TaskStatus.IN_PROGRESS (status task) then
      mkStats (total stats) (completed stats) (pending stats)
              (inProgress stats + 1) (highPriority stats) (overdue stats)
    else
      mkStats (total stats) (completed stats) (pending stats + 1)
              (inProgress stats) (highPriority stats) (overdue stats) in
  let stats2 :=
    if str_is TaskPriority.HIGH (priority task) then
      mkStats (total stats1) (completed stats1) (pending stats1)
              (inProgress stats1) (highPriority stats1 + 1) (overdue stats1)
    else stats1 in
  if negb (str_is TaskStatus.COMPLETED (status task)) && (dueDate task <? now) then
    mkStats (total stats2) (completed stats2) (pending stats2)
            (inProgress stats2) (highPriority stats2) (overdue stats2 + 1)
  else stats2.

(** [calculateStats(tasks)]; [now] is the reading of [new Date()]. *)
Definition calculateStats (now : Z) (tasks : list Task) : TaskStats :=
  fold_left (countTask now) tasks
            (mkStats (Z.of_nat (length tasks)) 0 0 0 0 0).

End ClientStats.

(** *** Sync manager: [calculateStatsFromTasks] *)
Module SyncStats.
Import Stats.

Definition countTask (now : Z) (stats : TaskStats) (task : Task) : TaskStats :=
  let stats1 :=
    if str_is "completed" (status task) then
      mkStats (total stats) (completed stats + 1) (pending stats)
              (inProgress stats) (highPriority stats) (overdue stats)
    else if str_is "in_progress" (status task) then
      mkStats (total stats) (completed stats) (pending stats)
              (inProgress stats + 1) (highPriority stats) (overdue stats)
    else
      mkStats (total stats) (completed stats) (pending stats + 1)
              (inProgress stats) (highPriority stats) (overdue stats) in
  let stats2 :=
    if str_is "high" (priority task) then
      mkStats (total stats1) (completed stats1) (pending stats1)
              (inProgress stats1) (highPriority stats1 + 1) (overdue stats1)
    else stats1 in
  if (dueDate task <? now) && negb (str_is "completed" (status task)) then
    mkStats (total stats2) (completed stats2) (pending stats2)
            (inProgress stats2) (highPriority stats2) (overdue stats2 + 1)
  else stats2.

Definition calculateStatsFromTasks (now : Z) (tasks : list Task) : TaskStats :=
  fold_left (countTask now) tasks
            (mkStats (Z.of_nat (length tasks)) 0 0 0 0 0).

End SyncStats.

(** *** Server: [getTaskStats] of the task controller *)
Module ServerStats.
Import Stats.

(** [$sum: { $cond: [c, 1, 0] }] over the documents of a group. *)
Definition sum_cond (c : Task -> bool) (docs : list Task) : Z :=
  fold_left (fun acc t => acc + (if c t then 1 else 0)) docs 0.

(** [getTaskStats]: the [$match] and [$group] stages, then [stats[0] || {...}];
    a [$group] over no document yields no group. *)
Definition getTaskStats (now : Z) (uid : string) (collection : list Task) : TaskStats :=
  let docs := List.filter (fun t => String.eqb (userId t) uid) collection in
  match docs with
  | [] => mkStats 0 0 0 0 0 0
  | _ =>
      mkStats (sum_cond (fun _ => true) docs)
              (sum_cond (fun t => str_is TaskStatus.COMPLETED (status t)) docs)
              (sum_cond (fun t => str_is TaskStatus.PENDING (status t)) docs)
              (sum_cond (fun t => str_is TaskStatus.IN_PROGRESS (status t)) docs)
              (sum_cond (fun t => str_is TaskPriority.HIGH (priority t)) docs)
              (sum_cond (fun t => (dueDate t <? now)
                                  && negb (str_is TaskStatus.COMPLETED (status t)))
                        docs)
  end.

End ServerStats.

(** ** Server: the rest of the task controller *)
Module Controller.
Import Server.

(** The query [{ _id: id, userId }]. *)
Definition matchDoc (id uid : string) (t : Task) : bool :=
  String.eqb (_id t) id && String.eqb (userId t) uid.

(** [Model.findOne({ _id: id, userId })]: the first matching document. *)
Definition findOne (id uid : string) (db : list Task) : option Task :=
  List.find (matchDoc id uid) db.

(** [Model.findOneAndDelete({ _id: id, userId })]: the first matching
    document is removed and returned. *)
Fixpoint findOneAndDelete (id uid : string) (db : list Task)
  : option Task * list Task :=
  match db with
  | [] => (None, [])
  | t :: db' =>
      if matchDoc id uid t then (Some t, db')
      else let '(r, db'') := findOneAndDelete id uid db' in (r, t :: db'')
  end.

(** [getTaskById]: [None] stands for the 404 response. *)
Definition getTaskById (uid id : string) (db : list Task) : option Task :=
  findOne id uid db.

(** [deleteTask]: [None] stands for the 404 response. *)
Definition deleteTask (uid id : string) (db : list Task) : option Task * list Task :=
  findOneAndDelete id uid db.

(** The query string of [GET /api/tasks].  [q_page] and [q_limit] hold the
    values of [Number(page)] and [Number(limit)] for parameters that are
    integer numerals; [None] is a missing parameter. *)
Record TasksQuery := mkQuery {
  q_status : option string;
  q_priority : option string;
  q_category : option string;
  q_sortBy : option string;
  q_page : option Z;
  q_limit : option Z
}.

(** The [filters] object: one equality per truthy parameter. *)
Definition queryFilters (q : TasksQuery) (t : Task) : bool :=
  (if OfflineQueue.truthy (q_status q)
   then str_is (default "" (q_status q)) (status t) else true)
  && (if OfflineQueue.truthy (q_priority q)
      then str_is (default "" (q_priority q)) (priority t) else true)
  && (if OfflineQueue.truthy (q_category q)
      then str_is (default "" (q_category q)) (category t) else true).

(** The [pagination] object of the response.  [totalPages] is [None] where
    [Math.ceil(totalTasks / 0)] is infinite or not a number, which JSON
    renders as [null]. *)
Record Pagination := mkPagination {
  currentPage : Z;
  totalPages : option Z;
  totalTasks : Z;
  hasNext : bool;
  hasPrev : bool
}.

Section GetTasks.
(** [Task.find(query).sort(sortOptions).limit(n).skip(m)] for the sort orders
    other than the smart one is left to the store: it is given the sort key, [n],
    [m] and the documents that match the query. *)
Variable findSorted : string -> Z -> Z -> list Task -> list Task.

(** [getTasks] for an authenticated user: the tasks and the pagination
    object of the response. *)
Definition getTasks (now : Z) (uid : string) (q : TasksQuery) (db : list Task)
  : list Task * Pagination :=
  let sortBy := default "smart" (q_sortBy q) in
  let page := default 1 (q_page q) in
  let limit := default 20 (q_limit q) in
  let filters := queryFilters q in
  let matching := List.filter (fun t => String.eqb (userId t) uid && filters t) db in
  let tasks :=
    if String.eqb sortBy "smart"
    then getSmartSortedTasks now uid filters db
    else findSorted sortBy limit ((page - 1) * limit) matching in
  let total := Z.of_nat (length matching) in
  (tasks,
   mkPagination page
     (if limit =? 0 then None else Some (Client.ceil_div total limit))
     total
     (page * limit <? total)
     (1 <? page)).
End GetTasks.

End Controller.

(** ** Background sync manager *)
Module SyncManager.
Import OfflineQueue.

Section Manager.
Context {RemoteState : Type}.
Variable api : TaskAPI RemoteState.

(** The module's two variables, the runtime's table of running intervals
    with the next handle [setInterval] hands out, and the device the sync
    passes act on.  A handle is a truthy value; [None] is [null].  A sync
    pass is taken to finish before the next event is handled. *)
Record State := mkState {
  syncInterval : option nat;
  isOnline : bool;
  intervals : list nat;
  nextHandle : nat;
  device : World RemoteState
}.

(** [performSync] *)
Definition performSync (st : State) : State :=
  if negb (isOnline st) then st
  else
    mkState (syncInterval st) (isOnline st) (intervals st) (nextHandle st)
            (try_catch (processOfflineQueue api)
               (fun _ => console_write "Background sync failed:") (device st)).2.

(** The callback handed to [setInterval]. *)
Definition intervalCallback (st : State) : State :=
  if isOnline st then performSync st else st.

(** [startPeriodicSync] *)
Definition startPeriodicSync (st : State) : State :=
  if bool_decide (is_Some (syncInterval st)) then st
  else mkState (Some (nextHandle st)) (isOnline st)
               (intervals st ++ [nextHandle st]) (S (nextHandle st)) (device st).

(** [stopPeriodicSync] *)
Definition stopPeriodicSync (st : State) : State :=
  match syncInterval st with
  | Some h =>
      mkState None (isOnline st)
              (List.filter (fun h' => negb (Nat.eqb h' h)) (intervals st))
              (nextHandle st) (device st)
  | None => st
  end.

(** The listener [initializeSyncManager] registers with NetInfo;
    [isConnected] is [state.isConnected], which may be [null]. *)
Definition netInfoListener (isConnected : option bool) (st : State) : State :=
  let wasOffline := negb (isOnline st) in
  let st1 := mkState (syncInterval st) (default false isConnected)
                     (intervals st) (nextHandle st) (device st) in
  let st2 := if isOnline st1 && wasOffline then performSync st1 else st1 in
  if isOnline st2 then startPeriodicSync st2 else stopPeriodicSync st2.

(** [forceSyncNow] *)
Definition forceSyncNow (st : State) : State :=
  if isOnline st then performSync st else st.

(** [cleanupSyncManager] *)
Definition cleanupSyncManager (st : State) : State := stopPeriodicSync st.

(** What can happen once the listener is registered: a connectivity report,
    the runtime firing the interval with handle [h], and the two exported
    calls. *)
Inductive Event :=
| NetInfoReport (isConnected : option bool)
| IntervalFires (h : nat)
| ForceSyncNow
| CleanupSyncManager.

Definition step (st : State) (e : Event) : State :=
  match e with
  | NetInfoReport c => netInfoListener c st
  | IntervalFires h =>
      if existsb (Nat.eqb h) (intervals st) then intervalCallback st else st
  | ForceSyncNow => forceSyncNow st
  | CleanupSyncManager => cleanupSyncManager st
  end.

(** The module as loaded: [syncInterval = null], [isOnline = false]. *)
Definition loaded (w : World RemoteState) : State := mkState None false [] 1 w.

Definition run (events : list Event) (st : State) : State :=
  fold_left step events st.

End Manager.
End SyncManager.

(** ** The task slice of the store: [taskSlice.ts] *)

(** *** Thunks with offline support *)
Module TaskThunks.
Import OfflineQueue.

(** What the [catch] clauses read of an error object: [code], [message] and
    whether [response] is set. *)
Record JsError := mkError {
  e_code : option string;
  e_message : option string;
  e_response : bool
}.

(** [s.includes(sub)] *)
Fixpoint includes_str (sub s : string) : bool :=
  String.prefix sub s
  || match s with
     | EmptyString => false
     | String _ s' => includes_str sub s'
     end.

(** The test for network-related errors, the same in the three thunks. *)
Definition isNetworkError (error : JsError) : bool :=
  str_is "NETWORK_ERROR" (e_code error)
  || str_is "ECONNREFUSED" (e_code error)
  || str_is "ENOTFOUND" (e_code error)
  || from_option (includes_str "Network Error") false (e_message error)
  || from_option (includes_str "timeout") false (e_message error)
  || negb (e_response error).

(** The outcome of a thunk: [fulfilled] with a payload, or [rejected] with
    the value given to [rejectWithValue]. *)
Inductive ThunkResult (A : Type) :=
| Fulfilled (payload : A)
| Rejected (value : string).
Arguments Fulfilled {A}.
Arguments Rejected {A}.

(** The payload of a fulfilled create or update: the [data] object of the
    response, of which the model keeps the [_id], or the task built
    offline. *)
Inductive TaskPayload :=
| ResponseData (id : option string)
| OfflineTask (task : Task).

Section Thunks.
Context {RemoteState : Type}.
Variable api : TaskAPI RemoteState.
(** [response.message] *)
Variable message : ApiResponse -> option string.

(** [new Error(response.message)]: no [code], no [response]. *)
Definition newError (response : ApiResponse) : JsError :=
  mkError None (Some (default "" (message response))) false.

(** [error.response?.data?.message || error.message || fallback] for an
    error without [response]. *)
Definition rejectionOf (error : JsError) (fallback : string) : string :=
  if truthy (e_message error) then default "" (e_message error) else fallback.

(** The [createTask] thunk.  [taskAPI] catches every error itself, so the
    [try] block throws only at [throw new Error(response.message)]. *)
Definition createTask (taskData : TaskForm) : M (ThunkResult TaskPayload) :=
  response ← callAPI (ReqCreate taskData) (api_createTask api taskData);
  if success response then mret (Fulfilled (ResponseData (data_id response)))
  else
    let error := newError response in
    if isNetworkError error then
      try_catch
        (offlineTask ← createTaskOffline taskData;
         mret (Fulfilled (OfflineTask offlineTask)))
        (fun _ => mret (Rejected "Failed to create task offline"))
    else mret (Rejected (rejectionOf error "Failed to create task")).

(** The [updateTask] thunk. *)
Definition updateTask (id : string) (updates : TaskUpdates)
  : M (ThunkResult TaskPayload) :=
  response ← callAPI (ReqUpdate id updates) (api_updateTask api id updates);
  if success response then mret (Fulfilled (ResponseData (data_id response)))
  else
    let error := newError response in
    if isNetworkError error then
      try_catch
        (offlineTask ← updateTaskOffline id updates;
         mret (Fulfilled (OfflineTask offlineTask)))
        (fun _ => mret (Rejected "Failed to update task offline"))
    else mret (Rejected (rejectionOf error "Failed to update task")).

(** The [deleteTask] thunk. *)
Definition deleteTask (taskId : string) : M (ThunkResult string) :=
  response ← callAPI (ReqDelete taskId) (api_deleteTask api taskId);
  if success response then mret (Fulfilled taskId)
  else
    let error := newError response in
    if isNetworkError error then
      try_catch
        (deleteTaskOffline taskId;; mret (Fulfilled taskId))
        (fun _ => mret (Rejected "Failed to delete task offline"))
    else mret (Rejected (rejectionOf error "Failed to delete task")).

End Thunks.
End TaskThunks.

(** *** Reducers *)
Module TaskSlice.
Import Stats.

(** [TaskState], without [filters], which the reducers below neither read
    nor write. *)
Record TaskState := mkTaskState {
  tasks : list Task;
  currentTask : option Task;
  isLoading : bool;
  error : option string;
  stats : TaskStats
}.

Definition initialState : TaskState :=
  mkTaskState [] None false None (mkStats 0 0 0 0 0 0).

(** The payload of [updateTask.fulfilled]: the thunk returns the task built
    offline, or the [data] object of the response, which the controller
    fills with [{ task }]. *)
Inductive UpdatePayload :=
| TaskObject (task : Task)
| TaskEnvelope (task : Task).

(** [action.payload._id] *)
Definition payload_id (p : UpdatePayload) : option string :=
  match p with
  | TaskObject task => Some (_id task)
  | TaskEnvelope _ => None
  end.

(** [Partial<Task>]: the fields an optimistic update names. *)
Record TaskPatch := mkTaskPatch {
  t_id : option string;
  t_title : option string;
  t_description : option string;
  t_priority : option (option string);
  t_status : option (option string);
  t_dueDate : option Z;
  t_category : option (option string);
  t_userId : option string;
  t_createdAt : option Z;
  t_updatedAt : option Z;
  t_completedAt : option (option Z)
}.

(** [{ ...task, ...updates }] *)
Definition mergePatch (updates : TaskPatch) (task : Task) : Task :=
  mkTask (default (_id task) (t_id updates))
         (default (title task) (t_title updates))
         (default (description task) (t_description updates))
         (default (priority task) (t_priority updates))
         (default (status task) (t_status updates))
         (default (dueDate task) (t_dueDate updates))
         (default (category task) (t_category updates))
         (default (userId task) (t_userId updates))
         (default (createdAt task) (t_createdAt updates))
         (default (updatedAt task) (t_updatedAt updates))
         (default (completedAt task) (t_completedAt updates)).

(** The actions of the slice.  [updateFilters], which writes the filters,
    is left out. *)
Inductive Action :=
| clearError
| setCurrentTask (payload : option Task)
| clearTasks
| optimisticUpdateTask (id : string) (updates : TaskPatch)
| optimisticDeleteTask (payload : string)
| optimisticAddTask (payload : Task)
| fetchTasks_pending
| fetchTasks_fulfilled (payload : list Task)
| fetchTasks_rejected (payload : string)
| createTask_pending
| createTask_fulfilled (payload : Task)
| createTask_rejected (payload : string)
| updateTask_pending
| updateTask_fulfilled (payload : UpdatePayload)
| updateTask_rejected (payload : string)
| completeTask_pending
| completeTask_fulfilled (payload : Task)
| completeTask_rejected (payload : string)
| deleteTask_pending
| deleteTask_fulfilled (payload : string)
| deleteTask_rejected (payload : string)
| fetchTaskStats_pending
| fetchTaskStats_fulfilled (payload : TaskStats)
| fetchTaskStats_rejected (payload : string).

(** [state.tasks.findIndex(task => task._id === id)] for an [id] that may be
    [undefined], which no task's [_id] equals. *)
Definition findIndex (id : option string) (l : list Task) : option nat :=
  match id with
  | Some i => OfflineQueue.findIndex i l
  | None => None
  end.

(** [if (taskIndex !== -1) state.tasks[taskIndex] = task] *)
Definition replaceAt (taskIndex : option nat) (task : Task) (l : list Task) : list Task :=
  match taskIndex with
  | Some i => <[i := task]> l
  | None => l
  end.

(** [state.currentTask && state.currentTask._id === id] *)
Definition isCurrent (id : option string) (st : TaskState) : bool :=
  match currentTask st, id with
  | Some c, Some i => String.eqb (_id c) i
  | _, _ => false
  end.

(** The task stored in [state.tasks[taskIndex]] and [state.currentTask] when
    the payload's [_id] matches; an envelope has no [_id] and is never
    stored. *)
Definition payload_task (p : UpdatePayload) : Task :=
  match p with
  | TaskObject task => task
  | TaskEnvelope task => task
  end.

(** The slice reducer; [now] is the reading of [new Date()] in
    [calculateStats]. *)
Definition reducer (now : Z) (st : TaskState) (a : Action) : TaskState :=
  match a with
  | clearError =>
      mkTaskState (tasks st) (currentTask st) (isLoading st) None (stats st)
  | setCurrentTask payload =>
      mkTaskState (tasks st) payload (isLoading st) (error st) (stats st)
  | clearTasks =>
      mkTaskState [] None (isLoading st) (error st) (stats st)
  | optimisticUpdateTask id updates =>
      let tasks' :=
        match findIndex (Some id) (tasks st) with
        | Some taskIndex => alter (mergePatch updates) taskIndex (tasks st)
        | None => tasks st
        end in
      mkTaskState tasks' (currentTask st) (isLoading st) (error st)
                  (ClientStats.calculateStats now tasks')
  | optimisticDeleteTask payload =>
      let tasks' := List.filter (fun task => negb (String.eqb (_id task) payload))
                                (tasks st) in
      mkTaskState tasks' (currentTask st) (isLoading st) (error st)
                  (ClientStats.calculateStats now tasks')
  | optimisticAddTask payload =>
      let tasks' := payload :: tasks st in
      mkTaskState tasks' (currentTask st) (isLoading st) (error st)
                  (ClientStats.calculateStats now tasks')
  | fetchTasks_pending =>
      mkTaskState (tasks st) (currentTask st) true None (stats st)
  | fetchTasks_fulfilled payload =>
      mkTaskState payload (currentTask st) false None
                  (ClientStats.calculateStats now payload)
  | fetchTasks_rejected payload =>
      mkTaskState (tasks st) (currentTask st) false (Some payload) (stats st)
  | createTask_pending =>
      mkTaskState (tasks st) (currentTask st) true None (stats st)
  | createTask_fulfilled payload =>
      let tasks' := payload :: tasks st in
      mkTaskState tasks' (currentTask st) false None
                  (ClientStats.calculateStats now tasks')
  | createTask_rejected payload =>
      mkTaskState (tasks st) (currentTask st) false (Some payload) (stats st)
  | updateTask_pending =>
      mkTaskState (tasks st) (currentTask st) true None (stats st)
  | updateTask_fulfilled payload =>
      let tasks' := replaceAt (findIndex (payload_id payload) (tasks st))
                              (payload_task payload) (tasks st) in
      mkTaskState tasks'
                  (if isCurrent (payload_id payload) st
                   then Some (payload_task payload) else currentTask st)
                  false None (ClientStats.calculateStats now tasks')
  | updateTask_rejected payload =>
      mkTaskState (tasks st) (currentTask st) false (Some payload) (stats st)
  | completeTask_pending =>
      mkTaskState (tasks st) (currentTask st) (isLoading st) None (stats st)
  | completeTask_fulfilled payload =>
      let tasks' := replaceAt (findIndex (Some (_id payload)) (tasks st))
                              payload (tasks st) in
      mkTaskState tasks'
                  (if isCurrent (Some (_id payload)) st
                   then Some payload else currentTask st)
                  (isLoading st) None (ClientStats.calculateStats now tasks')
  | completeTask_rejected payload =>
      mkTaskState (tasks st) (currentTask st) (isLoading st) (Some payload) (stats st)
  | deleteTask_pending =>
      mkTaskState (tasks st) (currentTask st) (isLoading st) None (stats st)
  | deleteTask_fulfilled payload =>
      let tasks' := List.filter (fun task => negb (String.eqb (_id task) payload))
                                (tasks st) in
      mkTaskState tasks'
                  (if isCurrent (Some payload) st then None else currentTask st)
                  (isLoading st) None (ClientStats.calculateStats now tasks')
  | deleteTask_rejected payload =>
      mkTaskState (tasks st) (currentTask st) (isLoading st) (Some payload) (stats st)
  | fetchTaskStats_pending =>
      mkTaskState (tasks st) (currentTask st) (isLoading st) None (stats st)
  | fetchTaskStats_fulfilled payload =>
      mkTaskState (tasks st) (currentTask st) (isLoading st) None payload
  | fetchTaskStats_rejected payload =>
      mkTaskState (tasks st) (currentTask st) (isLoading st) (Some payload) (stats st)
  end.

End TaskSlice.

(** * Vocabulary of the statements *)

(** ** Composite scores of the client *)
Module Scores.
Import Client.

(** The values the three component scores can take. *)
Definition priorityScores : list float := [3; 2; 1]%float.
Definition urgencyScores : list float := [10; 8; 6; 4; 2; 1]%float.
Definition recencyScores : list float := [5; 3; 2; 1]%float.

(** [forall_scores us P]: [P] holds of every composite score whose urgency
    component is in [us]. *)
Definition forall_scores (us : list float) (P : float -> bool) : bool :=
  forallb (fun p =>
    forallb (fun u =>
      forallb (fun r => P (p * 0.4 + u * 0.5 + r * 0.1)%float) recencyScores)
      us)
    priorityScores.

(** Order of two composite scores as the comparator sees it. *)
Definition score_le (sa sb : float) : bool := float_sign (sb - sa) <=? 0.

(** [p] is one of the three enum members. *)
Definition known (p : option string) : bool :=
  str_is TaskPriority.HIGH p || str_is TaskPriority.MEDIUM p
  || str_is TaskPriority.LOW p.
End Scores.

(** ** Doubles of the machine, to compare the rounding with *)
Module DoubleCheck.

(** The double nearest to a natural number below [2^63]. *)
Definition of_Z (z : Z) : float := PrimFloat.of_uint63 (Uint63.of_Z z).

(** The double a rational denotes, for a rational that is [n / 2^k] with
    [n] below [2^53]. *)
Definition of_Q (q : Q) : float :=
  Z.ldexp (of_Z (Qnum (Qred q))) (- Z.log2 (Zpos (Qden (Qred q)))).

(** [86400000 / x] as binary64 divides. *)
Definition quotient (x : Z) : float := (of_Z 86400000 / of_Z x)%float.

(** Times remaining, in milliseconds: from one millisecond to beyond [2^62]. *)
Definition remaining : list Z :=
  [1; 2; 3; 7; 1000; 3600000; 86400000; 86400001; 123456789; 9999999999;
   700000000000; 8000000000000005; 8000000000000006;
   4503599627370496; 4503599627370497;
   9007199254740991; 9007199254740993; 9007199254740995;
   1234567890123456789; 4611686018427387905].
End DoubleCheck.

(** ** Stored tasks *)

(** [completedAt] is set exactly when the status is completed. *)
Definition completedAt_consistent (t : Task) : Prop :=
  is_Some (completedAt t) <-> isCompleted t = true.


(** ** The drain pass *)
Module Drain.
Import OfflineQueue.

(** Temporary ids carry the reserved prefix. *)
Definition isTemporaryId (s : string) : bool := String.prefix "temp_" s.

(** No id the mapping assigns is itself rewritten by the mapping. *)
Definition settled (m : gmap string string) : Prop :=
  forall t p, m !! t = Some p -> truthy (m !! p) = false.

Section Vocabulary.
Context {RemoteState : Type}.
Variable api : TaskAPI RemoteState.

(** The operation [addToOfflineQueue] builds from two clock readings. *)
Definition newOperation (w : World RemoteState) (op : Operation) : PendingOperation :=
  let t1 := clock w + hd 0 (ticks w) in
  let t2 := t1 + hd 0 (tl (ticks w)) in
  mkOp (pretty t1) op t2.

(** The request an operation is replayed as, and the service's answer to
    it in a given state. *)
Definition request_of (o : PendingOperation) : ApiRequest :=
  match operation o with
  | CREATE taskData _ => ReqCreate taskData
  | UPDATE id updates => ReqUpdate id updates
  | DELETE id => ReqDelete id
  end.

Definition attempt (o : PendingOperation) (s : RemoteState)
  : ApiResponse * RemoteState :=
  match operation o with
  | CREATE taskData _ => api_createTask api taskData s
  | UPDATE id updates => api_updateTask api id updates s
  | DELETE id => api_deleteTask api id s
  end.

(** What one iteration does to the loop's accumulators. *)
Definition record (o : PendingOperation) (r : ApiResponse)
           (acc : list string * gmap string string)
  : list string * gmap string string :=
  if success r then
    (acc.1 ++ [op_id o],
     match operation o with
     | CREATE _ tempId =>
         if truthy tempId && truthy (data_id r)
         then <[default "" tempId := default "" (data_id r)]> acc.2
         else acc.2
     | _ => acc.2
     end)
  else acc.

Fixpoint drain (queue : list PendingOperation)
         (acc : list string * gmap string string) (s : RemoteState)
  : (list string * gmap string string) * RemoteState :=
  match queue with
  | [] => (acc, s)
  | o :: queue' => drain queue' (record o (attempt o s).1 acc) (attempt o s).2
  end.

(** [queue.filter(op => !successfulOperations.includes(op.id))] *)
Definition remainingQueue (successful : list string)
           (queue : list PendingOperation) : list PendingOperation :=
  List.filter (fun o => negb (includes successful (op_id o))) queue.

(** The storage a fault-free drain pass leaves behind. *)
Definition drained_storage (st : Storage) (queue : list PendingOperation)
           (acc : list string * gmap string string) : Storage :=
  mkStorage
    (Some (if bool_decide (0 < length acc.1)%nat
           then remainingQueue acc.1 queue else queue))
    (if bool_decide (0 < length acc.1)%nat
        && bool_decide (length (remainingQueue acc.1 queue) = 0%nat)
     then None else tempTasks st)
    (fmap (M:=list) (remapTask acc.2) <$> cachedTasks st).
End Vocabulary.
End Drain.

(** ** Tasks and requests to evaluate the code on *)
Module Fixtures.

(** A reference instant and two pending tasks of one user: [late] was due an
    hour ago, has low priority and is ten days old; [soon] is due in an
    hour, has high priority and was just created. *)
Definition now0 : Z := 1700000000000.

Definition late : Task :=
  mkTask "a" "late" "" (Some TaskPriority.LOW) (Some TaskStatus.PENDING)
         (now0 - 3600000) (Some "General") "u1"
         (now0 - 10 * 86400000) (now0 - 10 * 86400000) None.

Definition soon : Task :=
  mkTask "b" "soon" "" (Some TaskPriority.HIGH) (Some TaskStatus.PENDING)
         (now0 + 3600000) (Some "General") "u1" now0 now0 None.

(** [stale] was due two days ago; [next_week] is due in a week.  Both are
    pending, of the same age, with the priorities against [stale]. *)
Definition stale : Task :=
  mkTask "c" "stale" "" (Some TaskPriority.LOW) (Some TaskStatus.PENDING)
         (now0 - 2 * 86400000) (Some "General") "u1"
         (now0 - 5 * 86400000) (now0 - 5 * 86400000) None.

Definition next_week : Task :=
  mkTask "d" "next week" "" (Some TaskPriority.HIGH) (Some TaskStatus.PENDING)
         (now0 + 7 * 86400000) (Some "General") "u1"
         (now0 - 5 * 86400000) (now0 - 5 * 86400000) None.

(** [underway] is [next_week] once work on it has started. *)
Definition underway : Task :=
  mkTask "h" "underway" "" (Some TaskPriority.HIGH) (Some TaskStatus.IN_PROGRESS)
         (now0 + 7 * 86400000) (Some "General") "u1"
         (now0 - 5 * 86400000) (now0 - 5 * 86400000) None.

(** A completed task of the same user, and two more completed ones that
    differ in priority and in when they were last updated. *)
Definition finished : Task :=
  mkTask "e" "finished" "" (Some TaskPriority.MEDIUM) (Some TaskStatus.COMPLETED)
         (now0 + 86400000) (Some "General") "u1"
         (now0 - 86400000) (now0 - 3600000) (Some (now0 - 3600000)).

Definition finished_earlier : Task :=
  mkTask "f" "finished earlier" "" (Some TaskPriority.HIGH) (Some TaskStatus.COMPLETED)
         (now0 - 86400000) (Some "General") "u1"
         (now0 - 5 * 86400000) (now0 - 2 * 86400000) (Some (now0 - 2 * 86400000)).

Definition finished_later : Task :=
  mkTask "g" "finished later" "" (Some TaskPriority.LOW) (Some TaskStatus.COMPLETED)
         (now0 - 86400000) (Some "General") "u1"
         (now0 - 5 * 86400000) (now0 - 86400000) (Some (now0 - 86400000)).

(** A request to create a task, and the store after serving it. *)
Definition body0 : Server.CreateBody :=
  Server.mkCreateBody (Some "Buy milk") (Some "2 litres") (Some TaskPriority.MEDIUM)
               (Some (now0 + 86400000)) None.

Definition created :=
  Server.createTask (fun _ => true) (fun _ => "64f0c0ffee") Some
             now0 (Some "u1") body0 [].

Definition completed :=
  Server.completeTask (now0 + 60000) "u1" "64f0c0ffee" (created.2).
End Fixtures.

(** ** Offline queue: a device and a remote service to run against *)
Module Scenario.
Import OfflineQueue.

(** A remote service that stores the ids of the tasks it holds: a Create is
    accepted and answered with a new permanent id; an Update or Delete of an
    id it does not hold is answered with [success = false]. *)
Definition service : TaskAPI (list string) :=
  mkTaskAPI (list string)
    (fun _ s => let p := "id" +:+ pretty (Z.of_nat (length s)) in
                (mkResponse true (Some p), s ++ [p]))
    (fun id _ s => (mkResponse (existsb (String.eqb id) s) None, s))
    (fun id s => (mkResponse (existsb (String.eqb id) s) None,
                  List.filter (fun x => negb (String.eqb id x)) s)).

(** A device with empty storage, no storage fault ahead, a clock that
    advances by one millisecond per reading, and an empty service. *)
Definition device : World (list string) :=
  mkWorld (mkStorage None None None) [] 1700000000000 (replicate 40 1)
          [] [] [].

Definition milk : TaskForm :=
  mkTaskForm "Buy milk" "2 litres" (Some TaskPriority.MEDIUM)
             (1700000000000 + 86400000) None.

Definition rename : TaskUpdates :=
  mkTaskUpdates (Some "Buy oat milk") None None None None.

(** Offline: create a task, then edit it.  Online: one drain pass. *)
Definition create_edit_drain : M unit :=
  task ← createTaskOffline milk;
  updateTaskOffline (_id task) rename;;
  processOfflineQueue service.

(** Offline: create a task, edit it, delete it.  Online: one drain pass. *)
Definition create_edit_delete_drain : M unit :=
  task ← createTaskOffline milk;
  updateTaskOffline (_id task) rename;;
  deleteTaskOffline (_id task);;
  processOfflineQueue service.

(** A device whose next storage read succeeds and next write rejects, with
    one operation already queued. *)
Definition queued : PendingOperation := mkOp "1699999999000" (DELETE "id7") 1699999999000.

Definition faulty_device : World unit :=
  mkWorld (mkStorage (Some [queued]) None None) [false; true]
          1700000000000 [] [] tt [].

(** The same device when both the next read and the next write reject. *)
Definition unwritable_device : World unit :=
  mkWorld (mkStorage (Some [queued]) None None) [true; true]
          1700000000000 [] [] tt [].

(** Three queued operations with distinct ids: two Creates and an Update of
    a task the service does not hold. *)
Definition O1 : PendingOperation := mkOp "1" (CREATE milk (Some "temp_1")) 1.
Definition O2 : PendingOperation := mkOp "2" (CREATE milk (Some "temp_2")) 2.
Definition O3 : PendingOperation := mkOp "3" (UPDATE "temp_9" rename) 3.

Definition loaded_device : World (list string) :=
  mkWorld (mkStorage (Some [O1; O2; O3]) None
                     (Some [mkTask "temp_1" "Buy milk" "2 litres"
                                   (Some TaskPriority.MEDIUM)
                                   (Some TaskStatus.PENDING)
                                   (1700000000000 + 86400000)
                                   (Some "General") "temp_user" 1 1 None]))
          [] 1700000000000 [] [] [] [].

(** The same device when its next storage read succeeds and its next write
    rejects. *)
Definition interrupted_device : World (list string) :=
  mkWorld (storage loaded_device) [false; true] 1700000000000 [] [] [] [].

(** Three queued operations on one task the service holds, with distinct
    operation ids: an Update, a Delete, and an Update that comes too late. *)
Definition U1 : PendingOperation := mkOp "1" (UPDATE "id0" rename) 1.
Definition D2 : PendingOperation := mkOp "2" (DELETE "id0") 2.
Definition U3 : PendingOperation := mkOp "3" (UPDATE "id0" rename) 3.

Definition same_task_device : World (list string) :=
  mkWorld (mkStorage (Some [U1; D2; U3]) None None)
          [] 1700000000000 [] [] ["id0"] [].

(** Two operations on a task the service holds, enqueued within the same
    millisecond: a Delete, then an Update that the service will reject. *)
Definition same_ms_device : World (list string) :=
  mkWorld (mkStorage None None None) [] 1700000000000 [] [] ["id0"] [].

Definition same_ms_queue : list PendingOperation :=
  [mkOp "1700000000000" (DELETE "id0") 1700000000000;
   mkOp "1700000000000" (UPDATE "id0" rename) 1700000000000].

(** A device whose next storage read rejects, with one operation queued. *)
Definition unreadable_device : World unit :=
  mkWorld (mkStorage (Some [queued]) None None) [true]
          1700000000000 [] [] tt [].

(** A device with two Creates queued and a service that accepts them. *)
Definition creates_device : World (list string) :=
  mkWorld (mkStorage (Some [O1; O2]) (Some []) None)
          [] 1700000000000 [] [] [] [].

(** A device with an Update queued for a task the service does not hold. *)
Definition stuck_device : World (list string) :=
  mkWorld (mkStorage (Some [O3]) (Some []) None)
          [] 1700000000000 [] [] [] [].

(** A cache that holds the same id twice, after another task. *)
Definition cached_milk : Task :=
  mkTask "temp_1" "Buy milk" "2 litres" (Some TaskPriority.MEDIUM)
         (Some TaskStatus.PENDING) (1700000000000 + 86400000)
         (Some "General") "temp_user" 1 1 None.

Definition cached_bread : Task :=
  mkTask "id4" "Buy bread" "" (Some TaskPriority.LOW)
         (Some TaskStatus.PENDING) (1700000000000 + 86400000)
         (Some "General") "u1" 2 2 None.

Definition twice_cached_device : World (list string) :=
  mkWorld (mkStorage None None (Some [cached_bread; cached_milk; cached_milk]))
          [] 1700000000000 [] [] [] [].
End Scenario.

(** ** Sequences of queue operations *)
Module Enqueue.
Import OfflineQueue Drain.

Section Vocabulary.
Context {RemoteState : Type}.

(** The caller enqueues the operations of [ops], one after the other. *)
Fixpoint enqueueAll (ops : list Operation) : M (S:=RemoteState) unit :=
  match ops with
  | [] => mret tt
  | op :: ops' => addToOfflineQueue op;; enqueueAll ops'
  end.

Variable api : TaskAPI RemoteState.

(** The ids of the operations of [queue] the service confirms when they are
    replayed in order from state [s]. *)
Fixpoint confirmed (queue : list PendingOperation) (s : RemoteState) : list string :=
  match queue with
  | [] => []
  | o :: queue' =>
      (if success (attempt api o s).1 then [op_id o] else [])
      ++ confirmed queue' (attempt api o s).2
  end.

(** Whether the service accepts each operation of [queue], replayed in order
    from state [s]. *)
Fixpoint outcomes (queue : list PendingOperation) (s : RemoteState) : list bool :=
  match queue with
  | [] => []
  | o :: queue' => success (attempt api o s).1 :: outcomes queue' (attempt api o s).2
  end.
End Vocabulary.
End Enqueue.

(** ** Component scores of the client *)
Module Components.
Import Client Scores.

(** The composite score of three component scores. *)
Definition composite (p u r : float) : float := (p * 0.4 + u * 0.5 + r * 0.1)%float.

(** [P] holds of every triple of component scores. *)
Definition forall_components (P : float -> float -> float -> bool) : bool :=
  forallb (fun p => forallb (fun u => forallb (fun r => P p u r) recencyScores)
                      urgencyScores) priorityScores.

(** Every component of the first triple is at least the one of the second,
    and one of them is larger. *)
Definition dominates (pa ua ra pb ub rb : float) : bool :=
  ((pb <=? pa) && (ub <=? ua) && (rb <=? ra)
   && ((pb <? pa) || (ub <? ua) || (rb <? ra)))%float.

(** The same for two tasks at the instant [now]. *)
Definition task_dominates (now : Z) (a b : Task) : bool :=
  dominates (getPriorityScore (priority a)) (getUrgencyScore now (dueDate a))
            (getRecencyScore now (createdAt a))
            (getPriorityScore (priority b)) (getUrgencyScore now (dueDate b))
            (getRecencyScore now (createdAt b)).
End Components.

(** ** Counting tasks *)
Module Counting.

(** The number of tasks of a list that satisfy [c]. *)
Definition count_if (c : Task -> bool) (tasks : list Task) : Z :=
  Z.of_nat (length (List.filter c tasks)).

(** The status is one of the three enum members. *)
Definition status_known (t : Task) : bool :=
  str_is TaskStatus.PENDING (status t)
  || str_is TaskStatus.IN_PROGRESS (status t)
  || str_is TaskStatus.COMPLETED (status t).

(** The tasks of a user. *)
Definition owned_by (uid : string) (collection : list Task) : list Task :=
  List.filter (fun t => String.eqb (userId t) uid) collection.
End Counting.

(** ** States of the sync manager *)
Module Managed.
Import SyncManager.

(** The runtime runs exactly the interval the module remembers, and none
    while the module believes it is offline. *)
Definition tidy {RemoteState : Type} (st : State (RemoteState:=RemoteState)) : Prop :=
  intervals st = from_option (fun h => [h]) [] (syncInterval st)
  /\ (isOnline st = false -> syncInterval st = None)
  /\ Forall (fun h => (h < nextHandle st)%nat) (intervals st).

(** The report says the device is connected. *)
Definition connected (e : Event) : bool :=
  match e with
  | NetInfoReport (Some true) => true
  | _ => false
  end.
End Managed.

(** ** Repeated drain passes *)
Module Retry.
Import OfflineQueue.

Section Vocabulary.
Context {RemoteState : Type}.
Variable api : TaskAPI RemoteState.

(** [n] drain passes, one after the other. *)
Fixpoint passes (n : nat) : M (S:=RemoteState) unit :=
  match n with
  | O => mret tt
  | S n' => processOfflineQueue api;; passes n'
  end.
End Vocabulary.

(** A service that rejects every request, as a server does that finds the
    task invalid. *)
Definition rejecting : TaskAPI unit :=
  mkTaskAPI unit
    (fun _ s => (mkResponse false None, s))
    (fun _ _ s => (mkResponse false None, s))
    (fun _ s => (mkResponse false None, s)).

(** The message of its responses. *)
Definition validation_failed (r : ApiResponse) : option string :=
  Some "Task validation failed".

Definition fresh_device : World unit :=
  mkWorld (mkStorage None None None) [] 1700000000000 [] [] tt [].

(** A device that has two tasks cached. *)
Definition cached_device : World unit :=
  mkWorld (mkStorage None None (Some [Scenario.cached_bread; Scenario.cached_milk]))
          [] 1700000000000 [] [] tt [].
End Retry.

(** ** Actions of the task slice *)
Module Actions.
Import TaskSlice.

(** The actions whose reducer writes [state.tasks] and recomputes the
    statistics. *)
Definition writes_tasks (a : Action) : bool :=
  match a with
  | optimisticUpdateTask _ _
  | optimisticDeleteTask _ | optimisticAddTask _ | fetchTasks_fulfilled _
  | createTask_fulfilled _ | updateTask_fulfilled _ | completeTask_fulfilled _
  | deleteTask_fulfilled _ => true
  | _ => false
  end.

(** A store that shows two tasks, the second of them selected. *)
Definition showing : TaskState :=
  mkTaskState [Fixtures.late; Fixtures.soon] (Some Fixtures.soon) false None
              (ClientStats.calculateStats Fixtures.now0 [Fixtures.late; Fixtures.soon]).

(** [soon] as the server returns it after an update of its title. *)
Definition soon_renamed : Task :=
  mkTask "b" "sooner" "" (Some TaskPriority.HIGH) (Some TaskStatus.PENDING)
         (Fixtures.now0 + 3600000) (Some "General") "u1"
         Fixtures.now0 (Fixtures.now0 + 1000) None.
End Actions.

(** * Properties *)

(** ** The sort *)
Section ArraySortFacts.
Context {A : Type}.
Variable cmp : A -> A -> Z.

Lemma sort_insert_perm x l : sort_insert cmp x l ≡ₚ x :: l.
Proof.
  induction l as [|y l IH]; simpl; [done|].
  destruct (cmp x y <=? 0); [done|].
  rewrite IH. apply perm_swap.
Qed.

Lemma array_sort_perm l : array_sort cmp l ≡ₚ l.
Proof.
  induction l as [|x l IH]; simpl; [done|].
  by rewrite sort_insert_perm, IH.
Qed.


(** A consistent comparator: any two elements are comparable, and the
    induced order is transitive. *)
Hypothesis cmp_total : forall x y, cmp x y <= 0 \/ cmp y x <= 0.
Hypothesis cmp_trans : forall x y z, cmp x y <= 0 -> cmp y z <= 0 -> cmp x z <= 0.

Lemma sort_insert_sorted x l :
  StronglySorted (may_precede cmp) l -> StronglySorted (may_precede cmp) (sort_insert cmp x l).
Proof.
  induction 1 as [|y l Hl IH Hy]; simpl.
  - repeat constructor.
  - destruct (Z.leb_spec (cmp x y) 0) as [Hxy|Hxy].
    + constructor; [by constructor|].
      constructor; [done|].
      eapply Forall_impl; [exact Hy|]. intros z Hz. by eapply cmp_trans.
    + constructor; [done|].
      rewrite sort_insert_perm. constructor; [|done].
      destruct (cmp_total x y); [lia|done].
Qed.

Lemma array_sort_sorted l : StronglySorted (may_precede cmp) (array_sort cmp l).
Proof.
  induction l; simpl; [constructor|]. by apply sort_insert_sorted.
Qed.

Lemma sorted_lookup l (i j : nat) u v :
  StronglySorted (may_precede cmp) l -> (i < j)%nat ->
  l !! i = Some u -> l !! j = Some v -> may_precede cmp u v.
Proof.
  intros Hs. revert i j. induction Hs as [|y l Hl IH Hy]; intros i j Hij Hi Hj.
  - done.
  - destruct j as [|j]; [lia|]. simpl in Hj.
    destruct i as [|i]; simpl in Hi.
    + injection Hi as ->. rewrite Forall_lookup in Hy. by eapply Hy.
    + eapply (IH i j); [lia|done..].
Qed.

(** When the comparator puts [y] strictly after [x], every occurrence of
    [x] in the sorted array is in front of every occurrence of [y]. *)
Lemma array_sort_strictly_before l x y (i j : nat) :
  0 < cmp y x ->
  array_sort cmp l !! i = Some x -> array_sort cmp l !! j = Some y ->
  (i < j)%nat.
Proof.
  intros Hyx Hi Hj.
  destruct (Nat.lt_trichotomy i j) as [Hlt|[->|Hgt]]; [done|..].
  - rewrite Hi in Hj. injection Hj as ->.
    destruct (cmp_total y y); lia.
  - pose proof (sorted_lookup _ _ _ _ _ (array_sort_sorted l) Hgt Hj Hi) as H.
    unfold may_precede in H. lia.
Qed.
End ArraySortFacts.

(** ** Client ranking *)
Module ClientFacts.
Import Client Scores.

Lemma getPriorityScore_range p : In (getPriorityScore p) priorityScores.
Proof.
  unfold getPriorityScore, priorityScores.
  repeat (destruct (str_is _ _)); simpl; auto.
Qed.

Lemma getUrgencyScore_range now d : In (getUrgencyScore now d) urgencyScores.
Proof.
  unfold getUrgencyScore, urgencyScores. cbv zeta.
  repeat (match goal with |- context [if ?b then _ else _] => destruct b end);
    simpl; auto 10.
Qed.

Lemma getRecencyScore_range now c : In (getRecencyScore now c) recencyScores.
Proof.
  unfold getRecencyScore, recencyScores. cbv zeta.
  repeat (match goal with |- context [if ?b then _ else _] => destruct b end);
    simpl; auto 10.
Qed.

Lemma forall_scores_sound us P now t :
  In (getUrgencyScore now (dueDate t)) us ->
  forall_scores us P = true ->
  P (compositeScore now t) = true.
Proof.
  intros Hu H. unfold forall_scores in H.
  rewrite forallb_forall in H.
  specialize (H _ (getPriorityScore_range (priority t))).
  rewrite forallb_forall in H. specialize (H _ Hu).
  rewrite forallb_forall in H.
  exact (H _ (getRecencyScore_range now (createdAt t))).
Qed.

Lemma forall_scores_all P now t :
  forall_scores urgencyScores P = true -> P (compositeScore now t) = true.
Proof. apply forall_scores_sound, getUrgencyScore_range. Qed.

Lemma scores_total :
  forall_scores urgencyScores (fun x =>
    forall_scores urgencyScores (fun y => score_le x y || score_le y x)) = true.
Proof. vm_compute. reflexivity. Qed.

Lemma scores_trans :
  forall_scores urgencyScores (fun x =>
    forall_scores urgencyScores (fun y =>
      forall_scores urgencyScores (fun z =>
        implb (score_le x y && score_le y z) (score_le x z)))) = true.
Proof. vm_compute. reflexivity. Qed.

Lemma compositeScore_total now a b :
  score_le (compositeScore now a) (compositeScore now b)
  || score_le (compositeScore now b) (compositeScore now a) = true.
Proof.
  pose proof (forall_scores_all _ now a scores_total) as H. cbv beta in H.
  exact (forall_scores_all _ now b H).
Qed.

Lemma compositeScore_trans now a b c :
  score_le (compositeScore now a) (compositeScore now b) = true ->
  score_le (compositeScore now b) (compositeScore now c) = true ->
  score_le (compositeScore now a) (compositeScore now c) = true.
Proof.
  intros Hab Hbc.
  pose proof (forall_scores_all _ now a scores_trans) as H. cbv beta in H.
  pose proof (forall_scores_all _ now b H) as H'. cbv beta in H'.
  pose proof (forall_scores_all _ now c H') as H''. cbv beta in H''.
  rewrite Hab, Hbc in H''. exact H''.
Qed.

(** With one reference instant the comparator is consistent. *)
Lemma compareTasks_total now x y :
  compareTasks now x y <= 0 \/ compareTasks now y x <= 0.
Proof.
  unfold compareTasks.
  destruct (isCompleted x), (isCompleted y); simpl; try lia.
  pose proof (compositeScore_total now x y) as H. unfold score_le in H.
  apply orb_true_iff in H as [H|H]; apply Z.leb_le in H; auto.
Qed.

Lemma compareTasks_trans now x y z :
  compareTasks now x y <= 0 -> compareTasks now y z <= 0 ->
  compareTasks now x z <= 0.
Proof.
  unfold compareTasks.
  destruct (isCompleted x), (isCompleted y), (isCompleted z); simpl; try lia.
  intros H1 H2. apply Z.leb_le. apply Z.leb_le in H1, H2.
  exact (compositeScore_trans now x y z H1 H2).
Qed.


Lemma smartSortTasks_sorted now tasks :
  StronglySorted (may_precede (compareTasks now)) (smartSortTasks now tasks).
Proof.
  apply array_sort_sorted;
    [apply compareTasks_total | apply compareTasks_trans].
Qed.

Lemma smartSortTasks_strictly_before now tasks x y (i j : nat) :
  0 < compareTasks now y x ->
  smartSortTasks now tasks !! i = Some x ->
  smartSortTasks now tasks !! j = Some y ->
  (i < j)%nat.
Proof.
  apply array_sort_strictly_before;
    [apply compareTasks_total | apply compareTasks_trans].
Qed.
End ClientFacts.

(** ** Doubles: rounding to 53 bits *)
Module DoubleFacts.
Import Double.
Local Open Scope Q_scope.

Lemma pow2_pos k : 0 < 2 ^ k.
Proof. by apply Qpower_0_lt. Qed.

Lemma pow2_succ k : 2 ^ (k + 1) == 2 * 2 ^ k.
Proof. rewrite Qpower_plus by done. rewrite Qpower_1_r. ring. Qed.

Lemma pow2_pred k : 2 ^ (k - 1) == 2 ^ k / 2.
Proof. rewrite Qpower_minus by done. by rewrite Qpower_1_r. Qed.

Lemma pow2_inject (k : Z) : (0 <= k)%Z -> inject_Z (2 ^ k) == 2 ^ k.
Proof. intros H. by rewrite Zpower_Qpower. Qed.

(** [ilog2 q] is the exponent of the binade of [q]. *)
Lemma ilog2_spec q : 0 < q -> 2 ^ ilog2 q <= q /\ q < 2 ^ (ilog2 q + 1).
Proof.
  intros Hq. destruct q as [n d]. unfold ilog2. cbn [Qnum Qden].
  assert (0 < n)%Z as Hn by (unfold Qlt in Hq; simpl in Hq; lia).
  set (ln := Z.log2 n). set (ld := Z.log2 (Zpos d)).
  destruct (Z.log2_spec n Hn) as [Hn1 Hn2]. fold ln in Hn1, Hn2.
  destruct (Z.log2_spec (Zpos d) ltac:(done)) as [Hd1 Hd2]. fold ld in Hd1, Hd2.
  assert (0 <= ln)%Z as Hln by apply Z.log2_nonneg.
  assert (0 <= ld)%Z as Hld by apply Z.log2_nonneg.
  assert (n # d == inject_Z n / inject_Z (Zpos d)) as Hdiv by apply Qmake_Qdiv.
  set (N := inject_Z n) in *. set (D := inject_Z (Zpos d)) in *.
  assert (0 < D) as HD by (unfold D; rewrite <- (Zlt_Qlt 0); lia).
  assert (2 ^ ln <= N) as HN1.
  { rewrite <- pow2_inject by done. unfold N. by rewrite <- Zle_Qle. }
  assert (N < 2 * 2 ^ ln) as HN2.
  { rewrite <- pow2_succ, <- pow2_inject by lia. unfold N. rewrite <- Zlt_Qlt.
    by rewrite <- Z.add_1_r in Hn2. }
  assert (2 ^ ld <= D) as HD1.
  { rewrite <- pow2_inject by done. unfold D. by rewrite <- Zle_Qle. }
  assert (D < 2 * 2 ^ ld) as HD2.
  { rewrite <- pow2_succ, <- pow2_inject by lia. unfold D. rewrite <- Zlt_Qlt.
    by rewrite <- Z.add_1_r in Hd2. }
  pose proof (pow2_pos ln) as Hpl. pose proof (pow2_pos ld) as Hpd.
  assert (2 ^ (ln - ld) == 2 ^ ln / 2 ^ ld) as Hk by by apply Qpower_minus.
  set (q := n # d) in *.
  assert (q * D == N) as HqD.
  { rewrite Hdiv. field. lra. }
  set (P := 2 ^ (ln - ld)) in *.
  assert (P * 2 ^ ld == 2 ^ ln) as HP.
  { rewrite Hk. field. lra. }
  pose proof (pow2_pos (ln - ld)) as HPpos. fold P in HPpos.
  assert (q < 2 * P) as Hup.
  { apply Qnot_le_lt. intros Hc.
    assert (2 * P * D <= q * D) by nra.
    assert (2 * P * 2 ^ ld <= 2 * P * D) by nra.
    nra. }
  assert (P / 2 < q) as Hlow.
  { apply Qnot_le_lt. intros Hc.
    assert (q * D <= P / 2 * D) by nra.
    assert (P / 2 * D < P / 2 * (2 * 2 ^ ld)) by nra.
    assert (P / 2 * (2 * 2 ^ ld) == 2 ^ ln) as Heq by (rewrite <- HP; field).
    lra. }
  destruct (Qle_bool P q) eqn:E.
  - apply Qle_bool_iff in E. split; [done|]. fold P. by rewrite pow2_succ.
  - assert (~ P <= q) as Hn' by (rewrite <- Qle_bool_iff; congruence).
    apply Qnot_le_lt in Hn'.
    rewrite pow2_pred. fold P. split; [lra|].
    replace (ln - ld - 1 + 1)%Z with (ln - ld)%Z by lia. done.
Qed.

Lemma ilog2_mono q1 q2 : 0 < q1 -> q1 <= q2 -> (ilog2 q1 <= ilog2 q2)%Z.
Proof.
  intros H1 H2. destruct (ilog2_spec q1 H1) as [Ha _].
  destruct (ilog2_spec q2 ltac:(lra)) as [_ Hb].
  assert (2 ^ ilog2 q1 < 2 ^ (ilog2 q2 + 1)) as Hc by lra.
  apply Qpower_lt_compat_l_inv in Hc; [|lra]. lia.
Qed.

Lemma round_half_even_comp s1 s2 :
  s1 == s2 -> round_half_even s1 = round_half_even s2.
Proof.
  intros Hs. unfold round_half_even.
  rewrite (Qfloor_comp _ _ Hs).
  assert (s1 - inject_Z (Qfloor s2) == s2 - inject_Z (Qfloor s2)) as H
    by by rewrite Hs.
  by rewrite (Qcompare_comp _ _ H _ _ (Qeq_refl _)).
Qed.

#[local] Instance round_half_even_proper : Proper (Qeq ==> eq) round_half_even.
Proof. exact round_half_even_comp. Qed.

Lemma round_half_even_bounds s :
  inject_Z (Qfloor s) <= inject_Z (round_half_even s)
  /\ inject_Z (round_half_even s) <= inject_Z (Qfloor s) + 1
  /\ - (1 # 2) <= inject_Z (round_half_even s) - s <= 1 # 2.
Proof.
  unfold round_half_even.
  pose proof (Qfloor_le s) as H1. pose proof (Qlt_floor s) as H2.
  rewrite inject_Z_plus in H2. change (inject_Z 1) with 1 in H2.
  destruct (Qcompare_spec (s - inject_Z (Qfloor s)) (1 # 2)) as [H|H|H].
  - destruct (Z.even (Qfloor s)); rewrite ?inject_Z_plus;
      change (inject_Z 1) with 1; lra.
  - lra.
  - rewrite inject_Z_plus. change (inject_Z 1) with 1. lra.
Qed.

Lemma round_half_even_int z : round_half_even (inject_Z z) = z.
Proof.
  unfold round_half_even. rewrite Qfloor_Z.
  destruct (Qcompare_spec (inject_Z z - inject_Z z) (1 # 2)) as [H|H|H];
    [lra|done|lra].
Qed.

Lemma round_half_even_mono s1 s2 :
  s1 <= s2 -> (round_half_even s1 <= round_half_even s2)%Z.
Proof.
  intros Hs.
  pose proof (Qfloor_resp_le _ _ Hs) as Hf.
  destruct (Z.eq_dec (Qfloor s1) (Qfloor s2)) as [Heq|Hne].
  - unfold round_half_even. rewrite Heq.
    destruct (Qcompare_spec (s1 - inject_Z (Qfloor s2)) (1 # 2)) as [H1|H1|H1];
      destruct (Qcompare_spec (s2 - inject_Z (Qfloor s2)) (1 # 2)) as [H2|H2|H2];
      try destruct (Z.even (Qfloor s2)); try lia; lra.
  - destruct (round_half_even_bounds s1) as (_ & Ha & _).
    destruct (round_half_even_bounds s2) as (Hb & _ & _).
    change 1 with (inject_Z 1) in Ha.
    rewrite <- inject_Z_plus, <- Zle_Qle in Ha. rewrite <- Zle_Qle in Hb. lia.
Qed.

(** The significand of a positive rational lies between [2^52] and [2^53]. *)
Lemma scaled_range q :
  0 < q ->
  2 ^ 52 <= q * 2 ^ (52 - ilog2 q) /\ q * 2 ^ (52 - ilog2 q) < 2 ^ 53.
Proof.
  intros Hq. destruct (ilog2_spec q Hq) as [H1 H2].
  set (e := ilog2 q) in *.
  pose proof (pow2_pos (52 - e)) as Hp.
  assert (2 ^ 52 == 2 ^ e * 2 ^ (52 - e)) as E1.
  { rewrite <- Qpower_plus by done. by replace (e + (52 - e))%Z with 52%Z by lia. }
  assert (2 ^ 53 == 2 ^ (e + 1) * 2 ^ (52 - e)) as E2.
  { rewrite <- Qpower_plus by done. by replace (e + 1 + (52 - e))%Z with 53%Z by lia. }
  rewrite E1, E2. split; nra.
Qed.

(** A rounding stays in the closed binade and moves by half a unit in the
    last place at most. *)
Lemma round53_pos_spec q :
  0 < q ->
  2 ^ ilog2 q <= round53_pos q <= 2 ^ (ilog2 q + 1)
  /\ - (2 ^ (ilog2 q - 53)) <= round53_pos q - q <= 2 ^ (ilog2 q - 53).
Proof.
  intros Hq. destruct (scaled_range q Hq) as [H1 H2].
  unfold round53_pos. cbv zeta. set (e := ilog2 q) in *.
  set (s := q * 2 ^ (52 - e)) in *.
  pose proof (round_half_even_mono (2 ^ 52) s H1) as Hm1.
  pose proof (round_half_even_mono s (2 ^ 53) ltac:(lra)) as Hm2.
  rewrite <- (pow2_inject 52), round_half_even_int in Hm1 by done.
  rewrite <- (pow2_inject 53), round_half_even_int in Hm2 by done.
  rewrite Zle_Qle in Hm1, Hm2. rewrite pow2_inject in Hm1, Hm2 by done.
  destruct (round_half_even_bounds s) as (_ & _ & Herr).
  set (m := inject_Z (round_half_even s)) in *.
  pose proof (pow2_pos (e - 52)) as Hp.
  assert (2 ^ e == 2 ^ 52 * 2 ^ (e - 52)) as E1.
  { rewrite <- Qpower_plus by done. by replace (52 + (e - 52))%Z with e by lia. }
  assert (2 ^ (e + 1) == 2 ^ 53 * 2 ^ (e - 52)) as E2.
  { rewrite <- Qpower_plus by done. by replace (53 + (e - 52))%Z with (e + 1)%Z by lia. }
  assert (2 ^ (e - 53) == (1 # 2) * 2 ^ (e - 52)) as E3.
  { replace (e - 53)%Z with (e - 52 - 1)%Z by lia. rewrite pow2_pred. field. }
  assert (q == s * 2 ^ (e - 52)) as E4.
  { unfold s. rewrite <- Qmult_assoc, <- Qpower_plus by done.
    replace (52 - e + (e - 52))%Z with 0%Z by lia. rewrite Qpower_0_r. ring. }
  set (T := 2 ^ (e - 52)) in *.
  set (P52 := 2 ^ 52) in *. set (P53 := 2 ^ 53) in *.
  generalize dependent (2 ^ e). generalize dependent (2 ^ (e + 1)).
  generalize dependent (2 ^ (e - 53)). intros.
  split; split; nra.
Qed.

Lemma round53_of_pos q : 0 < q -> round53 q = round53_pos q.
Proof.
  intros Hq. unfold round53. by rewrite (proj1 (Qgt_alt q 0) Hq).
Qed.

Lemma round53_pos_mono q1 q2 :
  0 < q1 -> q1 <= q2 -> round53_pos q1 <= round53_pos q2.
Proof.
  intros H1 H2.
  pose proof (ilog2_mono q1 q2 H1 H2) as He.
  destruct (Z.eq_dec (ilog2 q1) (ilog2 q2)) as [Heq|Hne].
  - unfold round53_pos. cbv zeta. rewrite Heq.
    pose proof (pow2_pos (52 - ilog2 q2)) as Hp.
    pose proof (pow2_pos (ilog2 q2 - 52)) as Hp'.
    assert (q1 * 2 ^ (52 - ilog2 q2) <= q2 * 2 ^ (52 - ilog2 q2)) as Hs by nra.
    apply round_half_even_mono in Hs. rewrite Zle_Qle in Hs. nra.
  - destruct (round53_pos_spec q1 H1) as [[_ Ha] _].
    destruct (round53_pos_spec q2 ltac:(lra)) as [[Hb _] _].
    assert (2 ^ (ilog2 q1 + 1) <= 2 ^ ilog2 q2) as Hc
      by (apply Qpower_le_compat_l; [lia|lra]).
    lra.
Qed.

(** Rounding is monotone. *)
Lemma round53_mono q1 q2 : 0 < q1 -> q1 <= q2 -> round53 q1 <= round53 q2.
Proof.
  intros H1 H2. rewrite !round53_of_pos by lra. by apply round53_pos_mono.
Qed.

Lemma round53_positive q : 0 < q -> 0 < round53 q.
Proof.
  intros Hq. rewrite round53_of_pos by done.
  destruct (round53_pos_spec q Hq) as [[H _] _].
  pose proof (pow2_pos (ilog2 q)). lra.
Qed.

(** The relative error of a rounding is at most [2^-53]. *)
Lemma round53_error q :
  0 < q ->
  q - q * (1 # 9007199254740992) <= round53 q
  /\ round53 q <= q + q * (1 # 9007199254740992).
Proof.
  intros Hq. rewrite round53_of_pos by done.
  destruct (round53_pos_spec q Hq) as [_ [H1 H2]].
  destruct (ilog2_spec q Hq) as [H3 _].
  assert (2 ^ (ilog2 q - 53) == 2 ^ ilog2 q * (1 # 9007199254740992)) as E.
  { rewrite Qpower_minus by done. unfold Qdiv. apply Qmult_comp; [done|].
    reflexivity. }
  pose proof (pow2_pos (ilog2 q)) as Hp.
  generalize dependent (2 ^ (ilog2 q - 53)). generalize dependent (2 ^ ilog2 q).
  intros. split; nra.
Qed.

(** Integers below [2^53] are doubles. *)
Lemma round53_exact (x : Z) :
  (0 < x < 2 ^ 53)%Z -> round53 (inject_Z x) == inject_Z x.
Proof.
  intros [Hx1 Hx2].
  assert (0 < inject_Z x) as Hq by (rewrite <- (Zlt_Qlt 0); lia).
  rewrite round53_of_pos by done.
  destruct (ilog2_spec _ Hq) as [H3 _].
  set (e := ilog2 (inject_Z x)) in *.
  assert (e < 53)%Z as He.
  { assert (2 ^ e < 2 ^ 53) as Hlt.
    { rewrite <- (pow2_inject 53) by done.
      eapply Qle_lt_trans; [exact H3|]. by rewrite <- Zlt_Qlt. }
    apply Qpower_lt_compat_l_inv in Hlt; [lia|lra]. }
  unfold round53_pos. cbv zeta. fold e.
  assert (inject_Z x * 2 ^ (52 - e) == inject_Z (x * 2 ^ (52 - e))) as Es.
  { rewrite inject_Z_mult, pow2_inject by lia. reflexivity. }
  rewrite (round_half_even_comp _ _ Es), round_half_even_int.
  rewrite inject_Z_mult, pow2_inject by lia.
  rewrite <- Qmult_assoc, <- Qpower_plus by done.
  replace (52 - e + (e - 52))%Z with 0%Z by lia. rewrite Qpower_0_r. ring.
Qed.

(** On these times remaining the quotient of the model is the one the
    division of binary64 gives. *)
Lemma urgency_quotient_is_binary64 :
  forallb (fun x =>
             PrimFloat.eqb (DoubleCheck.quotient x)
                           (DoubleCheck.of_Q (Server.urgencyScore 0 x)))
          DoubleCheck.remaining
  = true.
Proof. vm_compute. reflexivity. Qed.
End DoubleFacts.

(** ** Server ranking *)
Module ServerFacts.
Import Server.

Lemma string_compare_refl s : String.compare s s = Eq.
Proof.
  induction s as [|a s IH]; simpl; [done|].
  unfold Ascii.compare. by rewrite N.compare_refl.
Qed.

Lemma string_compare_lt_trans s1 s2 s3 :
  String.compare s1 s2 = Lt -> String.compare s2 s3 = Lt ->
  String.compare s1 s3 = Lt.
Proof.
  revert s2 s3. induction s1 as [|a s1 IH]; intros [|b s2] [|c s3]; simpl; try done.
  unfold Ascii.compare.
  destruct (N.compare_spec (Ascii.N_of_ascii a) (Ascii.N_of_ascii b)) as [Hab|Hab|Hab];
    destruct (N.compare_spec (Ascii.N_of_ascii b) (Ascii.N_of_ascii c)) as [Hbc|Hbc|Hbc];
    try done; intros H1 H2.
  - rewrite Hab, Hbc, N.compare_refl. by eapply IH.
  - rewrite Hab. by apply N.compare_lt_iff in Hbc as ->.
  - rewrite <- Hbc. by apply N.compare_lt_iff in Hab as ->.
  - assert (Ascii.N_of_ascii a < Ascii.N_of_ascii c)%N as Hac by lia.
    by apply N.compare_lt_iff in Hac as ->.
Qed.

Lemma bson_compare_refl x : bson_compare x x = Eq.
Proof. destruct x; simpl; [apply string_compare_refl|done]. Qed.

Lemma bson_compare_eq x y : bson_compare x y = Eq -> x = y.
Proof.
  destruct x, y; simpl; try done.
  intros H. by apply String.compare_eq_iff in H as ->.
Qed.

Lemma bson_compare_antisym x y : bson_compare y x = CompOpp (bson_compare x y).
Proof. destruct x, y; simpl; try done. apply String.compare_antisym. Qed.

Lemma bson_compare_lt_trans x y z :
  bson_compare x y = Lt -> bson_compare y z = Lt -> bson_compare x z = Lt.
Proof. destruct x, y, z; simpl; try done. apply string_compare_lt_trans. Qed.

(** The [$sort] comparator is consistent. *)
Lemma sortCompare_total now x y :
  sortCompare now x y <= 0 \/ sortCompare now y x <= 0.
Proof.
  unfold sortCompare. rewrite (bson_compare_antisym x.(status) y.(status)).
  destruct (bson_compare (status x) (status y)); simpl; try lia.
  destruct (Qcompare_spec (smartScore now y) (smartScore now x)) as [H|H|H];
    destruct (Qcompare_spec (smartScore now x) (smartScore now y)) as [H'|H'|H'];
    try lia; try lra.
  destruct (Z.compare_spec (createdAt y) (createdAt x));
    destruct (Z.compare_spec (createdAt x) (createdAt y)); simpl; lia.
Qed.

Lemma sortCompare_trans now x y z :
  sortCompare now x y <= 0 -> sortCompare now y z <= 0 ->
  sortCompare now x z <= 0.
Proof.
  unfold sortCompare.
  destruct (bson_compare (status x) (status y)) eqn:Exy; [| |lia].
  - apply bson_compare_eq in Exy. rewrite Exy.
    destruct (bson_compare (status y) (status z)) eqn:Eyz; [|lia..].
    destruct (Qcompare_spec (smartScore now y) (smartScore now x)) as [H1|H1|H1];
      destruct (Qcompare_spec (smartScore now z) (smartScore now y)) as [H2|H2|H2];
      destruct (Qcompare_spec (smartScore now z) (smartScore now x)) as [H3|H3|H3];
      try lia; try lra.
    destruct (Z.compare_spec (createdAt y) (createdAt x));
      destruct (Z.compare_spec (createdAt z) (createdAt y));
      destruct (Z.compare_spec (createdAt z) (createdAt x)); simpl; lia.
  - intros _.
    destruct (bson_compare (status y) (status z)) eqn:Eyz; [| |lia].
    + apply bson_compare_eq in Eyz. rewrite <- Eyz, Exy. lia.
    + rewrite (bson_compare_lt_trans _ _ _ Exy Eyz). lia.
Qed.

Lemma getSmartSortedTasks_strictly_before now uid filters tasks x y (i j : nat) :
  0 < sortCompare now y x ->
  getSmartSortedTasks now uid filters tasks !! i = Some x ->
  getSmartSortedTasks now uid filters tasks !! j = Some y ->
  (i < j)%nat.
Proof.
  apply array_sort_strictly_before;
    [apply sortCompare_total | apply sortCompare_trans].
Qed.

(** Urgency of a task that is not yet due, and of one that is due. *)
Lemma urgencyScore_future now d :
  now < d ->
  urgencyScore now d
  = Double.round53 (86400000 / Double.round53 (inject_Z (d - now))).
Proof. intros H. unfold urgencyScore. destruct (Z.leb_spec d now); [lia|done]. Qed.

Lemma urgencyScore_overdue now d : d <= now -> urgencyScore now d = 10%Q.
Proof. intros H. unfold urgencyScore. destruct (Z.leb_spec d now); [done|lia]. Qed.

Lemma quotient_spec (r : Q) :
  (0 < r -> 0 < 86400000 / r /\ 86400000 / r * r == 86400000)%Q.
Proof.
  intros Hr. split.
  - apply Qlt_shift_div_l; [done|lra].
  - field. lra.
Qed.

(** In doubles the urgency of a task not yet due never rises with the time
    remaining. *)
Lemma urgencyScore_mono now d1 d2 :
  now < d1 -> d1 <= d2 -> (urgencyScore now d2 <= urgencyScore now d1)%Q.
Proof.
  intros H1 H2. rewrite !urgencyScore_future by lia.
  assert (0 < inject_Z (d1 - now))%Q as Hx1 by (rewrite <- (Zlt_Qlt 0); lia).
  assert (inject_Z (d1 - now) <= inject_Z (d2 - now))%Q as Hx
    by (rewrite <- Zle_Qle; lia).
  pose proof (DoubleFacts.round53_positive _ Hx1) as Hr1.
  pose proof (DoubleFacts.round53_mono _ _ Hx1 Hx) as Hr.
  destruct (quotient_spec _ Hr1) as [Hq1 Eq1].
  destruct (quotient_spec (Double.round53 (inject_Z (d2 - now))) ltac:(lra))
    as [Hq2 Eq2].
  apply DoubleFacts.round53_mono; [done|].
  set (r1 := Double.round53 (inject_Z (d1 - now))) in *.
  set (r2 := Double.round53 (inject_Z (d2 - now))) in *.
  set (q1 := (86400000 / r1)%Q) in *. set (q2 := (86400000 / r2)%Q) in *.
  apply Qnot_lt_le. intros Hc. nra.
Qed.

(** It falls strictly while the two times remaining add up to less than
    [2^53] milliseconds: the two quotients then differ by more than the two
    rounding errors. *)
Lemma urgencyScore_strict now d1 d2 :
  now < d1 -> d1 < d2 -> (d1 - now) + (d2 - now) < 2 ^ 53 ->
  (urgencyScore now d2 < urgencyScore now d1)%Q.
Proof.
  intros H1 H2 H3. rewrite !urgencyScore_future by lia.
  assert (0 < inject_Z (d1 - now))%Q as Hx1 by (rewrite <- (Zlt_Qlt 0); lia).
  assert (0 < inject_Z (d2 - now))%Q as Hx2 by (rewrite <- (Zlt_Qlt 0); lia).
  assert (inject_Z (d1 - now) + 1 <= inject_Z (d2 - now))%Q as Hgap.
  { change 1%Q with (inject_Z 1). rewrite <- inject_Z_plus, <- Zle_Qle. lia. }
  assert (inject_Z (d1 - now) + inject_Z (d2 - now) < 9007199254740992)%Q as Hsum.
  { change 9007199254740992%Q with (inject_Z 9007199254740992).
    rewrite <- inject_Z_plus, <- Zlt_Qlt. lia. }
  pose proof (DoubleFacts.round53_exact (d1 - now) ltac:(lia)) as E1.
  pose proof (DoubleFacts.round53_exact (d2 - now) ltac:(lia)) as E2.
  pose proof (DoubleFacts.round53_positive _ Hx1) as Hr1.
  pose proof (DoubleFacts.round53_positive _ Hx2) as Hr2.
  destruct (quotient_spec _ Hr1) as [Hq1 Eq1].
  destruct (quotient_spec _ Hr2) as [Hq2 Eq2].
  destruct (DoubleFacts.round53_error _ Hq1) as [Hlow _].
  destruct (DoubleFacts.round53_error _ Hq2) as [_ Hup].
  set (r1 := Double.round53 (inject_Z (d1 - now))) in *.
  set (r2 := Double.round53 (inject_Z (d2 - now))) in *.
  set (q1 := (86400000 / r1)%Q) in *. set (q2 := (86400000 / r2)%Q) in *.
  set (a := inject_Z (d1 - now)) in *. set (b := inject_Z (d2 - now)) in *.
  eapply Qlt_le_trans; [|exact Hlow]. eapply Qle_lt_trans; [exact Hup|].
  clearbody q1 q2 r1 r2 a b.
  assert (q1 * a == 86400000)%Q as Ea by (by rewrite <- E1).
  assert (q2 * b == 86400000)%Q as Eb by (by rewrite <- E2).
  clear E1 E2 Eq1 Eq2 Hlow Hup Hr1 Hr2 r1 r2.
  set (eps := 1 # 9007199254740992) in *.
  assert (a * (1 + eps) < b * (1 - eps))%Q as Hab by (unfold eps; lra).
  apply Qnot_le_lt. intros Hc.
  assert ((q1 - q1 * eps) * (a * b) <= (q2 + q2 * eps) * (a * b))%Q as Hm by nra.
  assert ((q1 - q1 * eps) * (a * b) == 86400000 * (b * (1 - eps)))%Q as L1.
  { transitivity ((q1 * a) * (b * (1 - eps)))%Q; [ring|]. by rewrite Ea. }
  assert ((q2 + q2 * eps) * (a * b) == 86400000 * (a * (1 + eps)))%Q as L2.
  { transitivity ((q2 * b) * (a * (1 + eps)))%Q; [ring|]. by rewrite Eb. }
  lra.
Qed.

Lemma priorityScore_bounds p : (1 <= priorityScore p <= 3)%Q.
Proof.
  unfold priorityScore. repeat (destruct (str_is _ _)); split; lra.
Qed.
End ServerFacts.

(** ** Ranking: urgency and priority components *)
Module RankingFacts.
Import Client.

Lemma ceil_div_mono x y : x <= y -> ceil_div x MS_PER_DAY <= ceil_div y MS_PER_DAY.
Proof.
  intros H. unfold ceil_div.
  assert ((- y) / MS_PER_DAY <= (- x) / MS_PER_DAY); [|lia].
  apply Z.div_le_mono; [reflexivity | lia].
Qed.

Lemma ceil_div_negative x : x + MS_PER_DAY <= 0 -> ceil_div x MS_PER_DAY < 0.
Proof.
  intros H. unfold ceil_div.
  assert (1 <= (- x) / MS_PER_DAY); [|lia].
  apply Z.div_le_lower_bound; [reflexivity | lia].
Qed.

Lemma ceil_div_positive x : 0 < x -> 1 <= ceil_div x MS_PER_DAY.
Proof.
  intros H. unfold ceil_div.
  assert ((- x) / MS_PER_DAY < 0); [|lia].
  apply Z.div_lt_upper_bound; [reflexivity | lia].
Qed.

(** A task overdue by a full day or more is in the top urgency bucket. *)
Lemma getUrgencyScore_overdue_day now d :
  d + MS_PER_DAY <= now -> getUrgencyScore now d = 10%float.
Proof.
  intros H. unfold getUrgencyScore. cbv zeta.
  pose proof (ceil_div_negative (d - now)) as Hc.
  destruct (Z.ltb_spec (ceil_div (d - now) MS_PER_DAY) 0); [done|lia].
Qed.

(** A task due in the future is in one of the four lower buckets. *)
Lemma getUrgencyScore_future now d :
  now < d -> In (getUrgencyScore now d) [6; 4; 2; 1]%float.
Proof.
  intros H. unfold getUrgencyScore. cbv zeta.
  pose proof (ceil_div_positive (d - now)) as Hc.
  destruct (Z.ltb_spec (ceil_div (d - now) MS_PER_DAY) 0); [lia|].
  destruct (Z.eqb_spec (ceil_div (d - now) MS_PER_DAY) 0); [lia|].
  repeat (match goal with |- context [if ?b then _ else _] => destruct b end);
    simpl; auto.
Qed.

(** The client's urgency is a step function: sooner never scores lower. *)
Lemma getUrgencyScore_mono now d1 d2 :
  d1 <= d2 ->
  (getUrgencyScore now d2 <=? getUrgencyScore now d1)%float = true.
Proof.
  intros H. unfold getUrgencyScore. cbv zeta.
  pose proof (ceil_div_mono (d1 - now) (d2 - now)) as Hc.
  set (k1 := ceil_div (d1 - now) MS_PER_DAY) in *.
  set (k2 := ceil_div (d2 - now) MS_PER_DAY) in *.
  assert (k1 <= k2) as Hk by lia. clearbody k1 k2. clear Hc.
  destruct (Z.ltb_spec k1 0), (Z.ltb_spec k2 0); try lia; try reflexivity;
  destruct (Z.eqb_spec k1 0), (Z.eqb_spec k2 0); try lia; try reflexivity;
  destruct (Z.eqb_spec k1 1), (Z.eqb_spec k2 1); try lia; try reflexivity;
  destruct (Z.leb_spec k1 3), (Z.leb_spec k2 3); try lia; try reflexivity;
  destruct (Z.leb_spec k1 7), (Z.leb_spec k2 7); try lia; reflexivity.
Qed.

(** The number of days remaining is at most [k] exactly when the time
    remaining is at most [k] days. *)
Lemma ceil_div_le x k :
  ceil_div x MS_PER_DAY <= k <-> x <= k * MS_PER_DAY.
Proof.
  unfold ceil_div.
  pose proof (Z.div_mod (- x) MS_PER_DAY ltac:(done)) as Hdm.
  pose proof (Z.mod_pos_bound (- x) MS_PER_DAY ltac:(done)) as Hb.
  set (q := (- x) / MS_PER_DAY) in *. set (r := (- x) mod MS_PER_DAY) in *.
  change MS_PER_DAY with 86400000 in *. lia.
Qed.

(** For tasks not yet due the client's urgency is strictly higher for the
    sooner one exactly when a day limit lies between the two. *)
Lemma getUrgencyScore_strict_iff now d1 d2 :
  now < d1 -> d1 < d2 ->
  (getUrgencyScore now d2 <? getUrgencyScore now d1)%float = true
  <-> exists k, In k [1; 3; 7] /\ d1 - now <= k * MS_PER_DAY < d2 - now.
Proof.
  intros H1 H2. unfold getUrgencyScore. cbv zeta.
  pose proof (ceil_div_positive (d1 - now) ltac:(lia)) as Hp1.
  pose proof (ceil_div_positive (d2 - now) ltac:(lia)) as Hp2.
  pose proof (ceil_div_le (d1 - now) 1) as A1.
  pose proof (ceil_div_le (d1 - now) 3) as A3.
  pose proof (ceil_div_le (d1 - now) 7) as A7.
  pose proof (ceil_div_le (d2 - now) 1) as B1.
  pose proof (ceil_div_le (d2 - now) 3) as B3.
  pose proof (ceil_div_le (d2 - now) 7) as B7.
  set (k1 := ceil_div (d1 - now) MS_PER_DAY) in *.
  set (k2 := ceil_div (d2 - now) MS_PER_DAY) in *.
  set (x1 := d1 - now) in *. set (x2 := d2 - now) in *.
  assert (x1 < x2) as Hx by (unfold x1, x2; lia).
  clearbody k1 k2 x1 x2.
  destruct (Z.ltb_spec k1 0); [lia|]. destruct (Z.ltb_spec k2 0); [lia|].
  destruct (Z.eqb_spec k1 0); [lia|]. destruct (Z.eqb_spec k2 0); [lia|].
  destruct (Z.eqb_spec k1 1), (Z.eqb_spec k2 1),
           (Z.leb_spec k1 3), (Z.leb_spec k2 3),
           (Z.leb_spec k1 7), (Z.leb_spec k2 7); try lia;
    (split;
     [ intros Hlt; first [ by vm_compute in Hlt
                         | exists 1; split; [by left | lia]
                         | exists 3; split; [right; by left | lia]
                         | exists 7; split; [right; right; by left | lia] ]
     | intros (k & Hk & Hle); simpl in Hk;
       destruct Hk as [<-|[<-|[<-|[]]]]; first [reflexivity | lia] ]).
Qed.
End RankingFacts.

(** ** Ranking: overdue tasks against tasks due in the future *)
Module OverdueFirst.
Import Client Scores.

(** Whatever the priorities and recencies, a score with urgency 10 exceeds
    every score with urgency at most 6. *)
Lemma top_bucket_dominates :
  Scores.forall_scores [10]%float (fun sa =>
    Scores.forall_scores [6; 4; 2; 1]%float (fun sb =>
      0 <? float_sign (sa - sb))) = true.
Proof. vm_compute. reflexivity. Qed.

Lemma compareTasks_overdue_day now a b :
  isCompleted a = false -> isCompleted b = false ->
  dueDate a + MS_PER_DAY <= now -> now < dueDate b ->
  0 < compareTasks now b a.
Proof.
  intros Ha Hb Hlate Hfut. unfold compareTasks. rewrite Ha, Hb. simpl.
  apply Z.ltb_lt.
  assert (In (getUrgencyScore now (dueDate a)) [10]%float) as Hua.
  { rewrite RankingFacts.getUrgencyScore_overdue_day by done. by left. }
  pose proof (ClientFacts.forall_scores_sound _ _ now a Hua top_bucket_dominates) as H.
  cbv beta in H.
  exact (ClientFacts.forall_scores_sound _ _ now b
           (RankingFacts.getUrgencyScore_future _ _ Hfut) H).
Qed.
End OverdueFirst.

(** C3 (a defect of the code).  Neither implementation puts every overdue
    task in front of every task due in the future.  [late] is an hour
    overdue, [soon] is due in an hour, both are pending.  The client gives
    [late] the urgency 8 of a task due today, not the 10 of an overdue one,
    and ranks [soon] in front of it.  The server gives [soon] the urgency
    24, above the 10 of the overdue [late], and ranks [soon] in front of it
    too.  The server also sorts by status before it sorts by score:
    [underway], in progress and due in a week, comes in front of [stale],
    pending and two days overdue, where the client puts [stale] first. *)
Theorem C3_overdue_not_always_first :
  (dueDate Fixtures.late < Fixtures.now0
   /\ Fixtures.now0 < dueDate Fixtures.soon
   /\ isCompleted Fixtures.late = false
   /\ isCompleted Fixtures.soon = false)
  /\ (Client.getUrgencyScore Fixtures.now0 (dueDate Fixtures.late) = 8%float
      /\ Client.smartSortTasks Fixtures.now0 [Fixtures.late; Fixtures.soon]
         = [Fixtures.soon; Fixtures.late])
  /\ ((Server.urgencyScore Fixtures.now0 (dueDate Fixtures.late) == 10)%Q
      /\ (Server.urgencyScore Fixtures.now0 (dueDate Fixtures.soon) == 24)%Q
      /\ Server.getSmartSortedTasks Fixtures.now0 "u1" (fun _ => true)
           [Fixtures.late; Fixtures.soon]
         = [Fixtures.soon; Fixtures.late])
  /\ (dueDate Fixtures.stale < Fixtures.now0
      /\ Fixtures.now0 < dueDate Fixtures.underway
      /\ isCompleted Fixtures.stale = false
      /\ isCompleted Fixtures.underway = false
      /\ Server.getSmartSortedTasks Fixtures.now0 "u1" (fun _ => true)
           [Fixtures.stale; Fixtures.underway]
         = [Fixtures.underway; Fixtures.stale]
      /\ Client.smartSortTasks Fixtures.now0 [Fixtures.underway; Fixtures.stale]
         = [Fixtures.stale; Fixtures.underway]).
Proof. repeat apply conj; vm_compute; reflexivity. Qed.

(** ** Ranking: completed tasks *)
Module CompletedLast.
Import Client.

(** The client puts a completed task after a non-completed one. *)
Lemma compareTasks_completed_last now a b :
  isCompleted a = true -> isCompleted b = false ->
  compareTasks now a b = 1 /\ compareTasks now b a = -1.
Proof. intros Ha Hb. unfold compareTasks. by rewrite Ha, Hb. Qed.

Lemma smartSortTasks_completed_last now tasks a b (i j : nat) :
  isCompleted a = true -> isCompleted b = false ->
  smartSortTasks now tasks !! i = Some b ->
  smartSortTasks now tasks !! j = Some a ->
  (i < j)%nat.
Proof.
  intros Ha Hb. apply ClientFacts.smartSortTasks_strictly_before.
  destruct (compareTasks_completed_last now a b Ha Hb) as [-> _]. lia.
Qed.

(** Among completed tasks the client orders by [updatedAt], latest first. *)
Lemma compareTasks_completed_recent now a b :
  isCompleted a = true -> isCompleted b = true ->
  compareTasks now a b = updatedAt b - updatedAt a.
Proof. intros Ha Hb. unfold compareTasks. by rewrite Ha, Hb. Qed.

Lemma smartSortTasks_completed_recent now tasks a b (i j : nat) :
  isCompleted a = true -> isCompleted b = true ->
  updatedAt b < updatedAt a ->
  smartSortTasks now tasks !! i = Some a ->
  smartSortTasks now tasks !! j = Some b ->
  (i < j)%nat.
Proof.
  intros Ha Hb Hup. apply ClientFacts.smartSortTasks_strictly_before.
  rewrite (compareTasks_completed_recent now b a Hb Ha). lia.
Qed.

(** The server's [status: 1] sort key puts "completed" in front of
    "in_progress" and "pending". *)
Lemma sortCompare_completed_first now a b :
  status a = Some TaskStatus.COMPLETED ->
  status b = Some TaskStatus.PENDING \/ status b = Some TaskStatus.IN_PROGRESS ->
  Server.sortCompare now a b = -1.
Proof.
  intros Ha [Hb|Hb]; unfold Server.sortCompare; by rewrite Ha, Hb.
Qed.
End CompletedLast.

(** C4: the client orders as claimed, the server does not.  On the server the
    completed task [finished] is returned in front of the pending task [soon],
    and of two completed tasks the one updated earlier is returned first;
    the client returns them the other way round. *)
Theorem C4_server_completed_first :
  isCompleted Fixtures.finished = true
  /\ isCompleted Fixtures.soon = false
  /\ Server.getSmartSortedTasks Fixtures.now0 "u1" (fun _ => true)
       [Fixtures.soon; Fixtures.finished]
     = [Fixtures.finished; Fixtures.soon]
  /\ Client.smartSortTasks Fixtures.now0
       [Fixtures.finished; Fixtures.soon]
     = [Fixtures.soon; Fixtures.finished]
  /\ updatedAt Fixtures.finished_earlier < updatedAt Fixtures.finished_later
  /\ Server.getSmartSortedTasks Fixtures.now0 "u1" (fun _ => true)
       [Fixtures.finished_later; Fixtures.finished_earlier]
     = [Fixtures.finished_earlier; Fixtures.finished_later]
  /\ Client.smartSortTasks Fixtures.now0
       [Fixtures.finished_earlier; Fixtures.finished_later]
     = [Fixtures.finished_later; Fixtures.finished_earlier].
Proof. repeat apply conj; vm_compute; reflexivity. Qed.

(** ** Ranking: the priority component *)
Module PriorityScore.
Import Scores.

Lemma known_scores :
  Client.getPriorityScore (Some TaskPriority.HIGH) = 3%float
  /\ Client.getPriorityScore (Some TaskPriority.MEDIUM) = 2%float
  /\ Client.getPriorityScore (Some TaskPriority.LOW) = 1%float
  /\ Server.priorityScore (Some TaskPriority.HIGH) = 3%Q
  /\ Server.priorityScore (Some TaskPriority.MEDIUM) = 2%Q
  /\ Server.priorityScore (Some TaskPriority.LOW) = 1%Q.
Proof. repeat apply conj; reflexivity. Qed.

(** The server's default is the score of medium. *)
Lemma server_unknown p : known p = false -> Server.priorityScore p = 2%Q.
Proof.
  unfold known, Server.priorityScore,
    TaskPriority.HIGH, TaskPriority.MEDIUM, TaskPriority.LOW.
  destruct (str_is "high" p), (str_is "medium" p), (str_is "low" p); done.
Qed.

(** The client's default is the score of low. *)
Lemma client_unknown p : known p = false -> Client.getPriorityScore p = 1%float.
Proof.
  unfold known, Client.getPriorityScore.
  destruct (str_is TaskPriority.HIGH p), (str_is TaskPriority.MEDIUM p),
    (str_is TaskPriority.LOW p); done.
Qed.
End PriorityScore.

(** C6: on the client a task whose priority is missing, or is not one of
    low/medium/high, gets the score 1 of low and not the score 2 of medium;
    the server gives it 2.  The three known priorities score 3, 2, 1 on
    both sides. *)
Theorem C6_client_default_priority_is_low :
  Client.getPriorityScore None = 1%float
  /\ Client.getPriorityScore (Some "urgent") = 1%float
  /\ Client.getPriorityScore (Some TaskPriority.MEDIUM) = 2%float
  /\ Client.getPriorityScore (Some "urgent")
     = Client.getPriorityScore (Some TaskPriority.LOW)
  /\ Server.priorityScore None = 2%Q
  /\ Server.priorityScore (Some "urgent") = 2%Q.
Proof. repeat apply conj; reflexivity. Qed.

(** C7 (as stated) fails on both implementations.  On the client, tasks due
    in ten and in twenty days both get the urgency 1.  On the server, whose
    pipeline divides in doubles, two due dates a millisecond apart and some
    253 thousand years ahead get the same urgency. *)
Lemma C7_urgency_not_strict :
  (Fixtures.now0 < Fixtures.now0 + 10 * 86400000
   /\ Fixtures.now0 + 10 * 86400000 < Fixtures.now0 + 20 * 86400000
   /\ Client.getUrgencyScore Fixtures.now0 (Fixtures.now0 + 10 * 86400000)
      = 1%float
   /\ Client.getUrgencyScore Fixtures.now0 (Fixtures.now0 + 20 * 86400000)
      = 1%float)
  /\ (Fixtures.now0 < Fixtures.now0 + 8000000000000005
      /\ Fixtures.now0 + 8000000000000005 < Fixtures.now0 + 8000000000000006
      /\ (Server.urgencyScore Fixtures.now0 (Fixtures.now0 + 8000000000000005)
          == Server.urgencyScore Fixtures.now0 (Fixtures.now0 + 8000000000000006))%Q).
Proof. repeat apply conj; vm_compute; reflexivity. Qed.

(** C7 (as amended).  Take two due dates with positive time remaining at the
    same instant, [d1] the sooner.  On the client the sooner one never gets
    a lower urgency, and it gets a strictly higher one exactly when one of
    the day limits 1, 3 and 7 lies between the two: [d1] is due within the
    limit and [d2] is not.  On the server the sooner one never gets a lower
    urgency, and it gets a strictly higher one whenever the two times
    remaining add up to less than [2^53] milliseconds. *)
Theorem C7_urgency_monotone (now d1 d2 : Z) :
  now < d1 -> d1 < d2 ->
  (Client.getUrgencyScore now d2 <=? Client.getUrgencyScore now d1)%float = true
  /\ ((Client.getUrgencyScore now d2 <? Client.getUrgencyScore now d1)%float = true
      <-> exists k, In k [1; 3; 7]
                    /\ d1 - now <= k * Client.MS_PER_DAY < d2 - now)
  /\ (Server.urgencyScore now d2 <= Server.urgencyScore now d1)%Q
  /\ ((d1 - now) + (d2 - now) < 2 ^ 53 ->
      (Server.urgencyScore now d2 < Server.urgencyScore now d1)%Q).
Proof.
  intros H1 H2. repeat apply conj.
  - apply RankingFacts.getUrgencyScore_mono. lia.
  - by apply RankingFacts.getUrgencyScore_strict_iff.
  - by apply RankingFacts.getUrgencyScore_strict_iff.
  - apply ServerFacts.urgencyScore_mono; lia.
  - by apply ServerFacts.urgencyScore_strict.
Qed.

Lemma C7_urgency_monotone_witness :
  (Client.getUrgencyScore 0 172800000 <=? Client.getUrgencyScore 0 3600000)%float = true
  /\ (Client.getUrgencyScore 0 172800000 <? Client.getUrgencyScore 0 3600000)%float = true
  /\ (Server.urgencyScore 0 172800000 <= Server.urgencyScore 0 3600000)%Q
  /\ (Server.urgencyScore 0 172800000 < Server.urgencyScore 0 3600000)%Q.
Proof.
  pose proof (C7_urgency_monotone 0 3600000 172800000 eq_refl eq_refl)
    as (Hc & Hs & Hm & Hstrict).
  split; [exact Hc|]. split.
  - apply Hs. exists 1. split; [by left|]. vm_compute. split; congruence.
  - split; [exact Hm|]. apply Hstrict. reflexivity.
Defined.

(** ** Stored tasks: [completedAt] against [status] *)
Module CompletedAt.
Import Server.

(** The [pre('save')] hook establishes it whenever the status was modified. *)
Lemma preSave_consistent now t : completedAt_consistent (preSave now true t).
Proof.
  unfold preSave, completedAt_consistent.
  destruct (isCompleted t) eqn:Hc; simpl.
  - case_bool_decide as Hs; simpl.
    + unfold isCompleted in *. by rewrite Hc.
    + unfold isCompleted in *. simpl. rewrite Hc. split; eauto.
  - unfold isCompleted in *. simpl. rewrite Hc.
    split; [intros [? ?]|]; done.
Qed.

Section Controller.
Variable validate : Task -> bool.
Variable newObjectId : list Task -> string.
Variable toObjectId : string -> option string.

(** Every task [createTask] stores satisfies it. *)
Lemma createTask_consistent now user body db t db' :
  createTask validate newObjectId toObjectId now user body db = (Some t, db') ->
  completedAt_consistent t /\ db' = db ++ [t].
Proof.
  unfold createTask, saveNew. intros H.
  repeat case_match; simplify_eq.
  split; [apply preSave_consistent|done].
Qed.
End Controller.

(** [findOneAndUpdate] hands back the matched document with the update
    applied, and nothing else. *)
Lemma findOneAndUpdate_result now id uid u db t' db' :
  findOneAndUpdate now id uid u db = (Some t', db') ->
  exists t, t ∈ db /\ _id t = id /\ userId t = uid /\
            t' = applyUpdate now u t /\ t' ∈ db'.
Proof.
  revert db'. induction db as [|t db IH]; intros db' H; simpl in H; [done|].
  destruct (String.eqb (_id t) id && String.eqb (userId t) uid) eqn:Hm.
  - simplify_eq. apply andb_true_iff in Hm as [H1%String.eqb_eq H2%String.eqb_eq].
    exists t. repeat split; [left|done..|left].
  - destruct (findOneAndUpdate now id uid u db) as [r db''] eqn:Hr.
    simplify_eq. destruct (IH _ eq_refl) as (t0 & ? & ? & ? & ? & ?).
    exists t0. repeat split; [by right|done..|by right].
Qed.

(** [completeTask] sets the status and leaves [completedAt] as it was. *)
Lemma completeTask_result now uid id db t' db' :
  completeTask now uid id db = (Some t', db') ->
  status t' = Some TaskStatus.COMPLETED /\ t' ∈ db' /\
  exists t, t ∈ db /\ _id t = id /\ userId t = uid /\
            completedAt t' = completedAt t.
Proof.
  unfold completeTask. intros H.
  apply findOneAndUpdate_result in H as (t & ? & ? & ? & -> & ?).
  repeat split; [done|]. by exists t.
Qed.

End CompletedAt.

(** C5: the complete-task operation breaks the invariant.  A task is created
    (pending, [completedAt] null) and then completed: the task returned and
    stored has status completed and [completedAt] still null. *)
Theorem C5_completeTask_leaves_completedAt_null :
  (status <$> Fixtures.created.1) = Some (Some TaskStatus.PENDING)
  /\ (completedAt <$> Fixtures.created.1) = Some None
  /\ (status <$> Fixtures.completed.1) = Some (Some TaskStatus.COMPLETED)
  /\ (completedAt <$> Fixtures.completed.1) = Some None
  /\ (completedAt <$> Fixtures.completed.2) = [None]
  /\ (isCompleted <$> Fixtures.completed.2) = [true].
Proof. repeat apply conj; reflexivity. Qed.

(** ** [smartSortTasks] and its argument array *)



(** ** Offline queue: running the module *)
Module QueueFacts.
Import OfflineQueue Drain.

Section Run.
Context {RemoteState : Type}.
Implicit Types w : World RemoteState.

(** Unfolding of the effects, one layer at a time. *)
Lemma run_bind {A B} (m : M A) (k : A -> M B) w :
  (m ≫= k) w = match m w with
               | (Ok a, w') => k a w'
               | (Thrown e, w') => (Thrown e, w')
               end.
Proof. reflexivity. Qed.

Lemma run_ret {A} (a : A) w : (mret a : M A) w = (Ok a, w).
Proof. reflexivity. Qed.

Lemma asyncStorage_fault_free {A} (f : Storage -> A * Storage) w :
  faults w = [] ->
  asyncStorage f w =
    (Ok (f (storage w)).1,
     mkWorld (f (storage w)).2 [] (clock w) (ticks w) (console w)
             (remote w) (requests w)).
Proof.
  intros H. unfold asyncStorage. rewrite H. by destruct (f (storage w)).
Qed.

Lemma getOfflineQueue_fault_free w :
  faults w = [] ->
  getOfflineQueue w = (Ok (default [] (offlineQueue (storage w))), w).
Proof.
  intros H. unfold getOfflineQueue, try_catch, getItem_offlineQueue.
  rewrite run_bind, asyncStorage_fault_free by done. simpl.
  f_equal. destruct w; simpl in *; by subst.
Qed.

(** [getOfflineQueue] never throws. *)
Lemma getOfflineQueue_returns w : exists q w', getOfflineQueue w = (Ok q, w').
Proof.
  unfold getOfflineQueue, try_catch, getItem_offlineQueue.
  rewrite run_bind. unfold asyncStorage.
  destruct (faults w) as [|[] fs]; simpl; eauto.
Qed.

(** [addToOfflineQueue] never throws: its [catch] clause only logs. *)
Lemma addToOfflineQueue_returns op w : (addToOfflineQueue op w).1 = Ok tt.
Proof.
  destruct w as [st fl ck tk co re rq].
  unfold addToOfflineQueue, getOfflineQueue, try_catch.
  destruct fl as [|[] [|[] fs]]; reflexivity.
Qed.

(** Without a storage fault the new operation is appended and persisted. *)
Lemma addToOfflineQueue_persists op w :
  faults w = [] ->
  storage (addToOfflineQueue op w).2 =
    mkStorage (Some (default [] (offlineQueue (storage w)) ++ [newOperation w op]))
              (tempTasks (storage w)) (cachedTasks (storage w)).
Proof.
  destruct w as [st fl ck tk co re rq]. simpl. intros ->. reflexivity.
Qed.

(** When the read succeeds and the write rejects, nothing is persisted and
    the error goes to the console. *)
Lemma addToOfflineQueue_write_fault op w fs :
  faults w = false :: true :: fs ->
  storage (addToOfflineQueue op w).2 = storage w
  /\ console (addToOfflineQueue op w).2
     = console w ++ ["Failed to add to offline queue:"].
Proof.
  destruct w as [st fl ck tk co re rq]. simpl. intros ->. by split.
Qed.

(** When the write rejects, whatever the read did, nothing is persisted and
    every error goes to the console. *)
Lemma addToOfflineQueue_write_rejected op w (read_rejects : bool) fs :
  faults w = read_rejects :: true :: fs ->
  storage (addToOfflineQueue op w).2 = storage w
  /\ console (addToOfflineQueue op w).2
     = console w
       ++ (if read_rejects then ["Failed to get offline queue:"] else [])
       ++ ["Failed to add to offline queue:"].
Proof.
  destruct w as [st fl ck tk co re rq]. simpl. intros ->.
  destruct read_rejects; simpl; by rewrite <- ?app_assoc.
Qed.

(** *** [updateCachedTasksWithRealIds] *)

Lemma temporary_to_permanent_settled (m : gmap string string) :
  (forall t p, m !! t = Some p ->
               isTemporaryId t = true /\ isTemporaryId p = false) ->
  settled m.
Proof.
  intros H t p Htp. destruct (m !! p) as [q|] eqn:Hp; [|done].
  destruct (H _ _ Htp) as [_ Hperm]. destruct (H _ _ Hp) as [Htemp _].
  congruence.
Qed.

Lemma remapTask_untouched m task :
  truthy (m !! _id task) = false -> remapTask m task = task.
Proof. intros H. unfold remapTask. by rewrite H. Qed.

Lemma remapTask_settled m task :
  settled m -> truthy (m !! _id (remapTask m task)) = false.
Proof.
  intros Hm. unfold remapTask.
  destruct (truthy (m !! _id task)) eqn:Ht; [|done].
  destruct (m !! _id task) as [p|] eqn:Hp; [|done]. simpl.
  by eapply Hm.
Qed.

(** A rewritten entry carries no key of a mapping from temporary ids to
    non-empty ids that are not temporary. *)
Lemma remapTask_no_key (m : gmap string string) task :
  (forall t p, m !! t = Some p ->
               isTemporaryId t = true /\ isTemporaryId p = false) ->
  (forall t, m !! t <> Some "") ->
  m !! _id (remapTask m task) = None.
Proof.
  intros Hm Hne. unfold remapTask.
  destruct (m !! _id task) as [p|] eqn:Hp; simpl.
  - destruct (String.eqb_spec p "") as [->|Hnp]; simpl; [by destruct (Hne (_id task))|].
    destruct (m !! p) as [q|] eqn:Hq; [|done].
    destruct (Hm _ _ Hp) as [_ H1]. destruct (Hm _ _ Hq) as [H2 _]. congruence.
  - by rewrite Hp.
Qed.

Lemma remapTask_idempotent m task :
  settled m -> remapTask m (remapTask m task) = remapTask m task.
Proof. intros Hm. by apply remapTask_untouched, remapTask_settled. Qed.

Lemma remap_all_untouched m (tasks : list Task) :
  existsb (fun task => truthy (m !! _id task)) tasks = false ->
  remapTask m <$> tasks = tasks.
Proof.
  induction tasks as [|task tasks IH]; [done|].
  intros H. simpl in H. apply orb_false_iff in H as [H1 H2].
  by rewrite fmap_cons, remapTask_untouched, IH.
Qed.

Lemma remap_all_settled m (tasks : list Task) :
  settled m ->
  existsb (fun task => truthy (m !! _id task)) (remapTask m <$> tasks) = false.
Proof.
  intros Hm. induction tasks as [|task tasks IH]; [done|].
  rewrite fmap_cons. simpl. by rewrite remapTask_settled, IH.
Qed.

(** Without a storage fault the cache becomes its image under [remapTask],
    and nothing else in the world changes. *)
Lemma updateCachedTasksWithRealIds_fault_free m w :
  faults w = [] ->
  updateCachedTasksWithRealIds m w =
    (Ok tt,
     mkWorld (mkStorage (offlineQueue (storage w)) (tempTasks (storage w))
                        (fmap (M:=list) (remapTask m) <$> cachedTasks (storage w)))
             [] (clock w) (ticks w) (console w) (remote w) (requests w)).
Proof.
  destruct w as [[q tt' c] fl ck tk co re rq]. simpl. intros ->.
  unfold updateCachedTasksWithRealIds, try_catch, getItem_cachedTasks.
  rewrite run_bind, asyncStorage_fault_free by done.
  cbn [fst snd storage cachedTasks offlineQueue tempTasks clock ticks
       console remote requests].
  destruct c as [tasks|]; [|done].
  change (fmap (M:=list) (remapTask m) <$> Some tasks)
    with (Some (remapTask m <$> tasks)).
  destruct (existsb (fun task => truthy (m !! _id task)) tasks) eqn:Hu.
  - reflexivity.
  - by rewrite remap_all_untouched.
Qed.
End Run.

(** *** The drain pass *)
Section DrainFacts.
Context {RemoteState : Type}.
Variable api : TaskAPI RemoteState.
Implicit Types w : World RemoteState.
Implicit Types acc : list string * gmap string string.

Lemma syncOperation_spec o acc w :
  exists co,
    syncOperation api o acc w =
      (Ok (record o (attempt api o (remote w)).1 acc),
       mkWorld (storage w) (faults w) (clock w) (ticks w) co
               (attempt api o (remote w)).2 (requests w ++ [request_of o])).
Proof.
  destruct acc as [succ m].
  unfold syncOperation, record, attempt, request_of, try_catch, callAPI.
  destruct (operation o) as [taskData tempId|id updates|id];
    rewrite run_bind;
    match goal with
    | |- context [api_createTask api ?d ?s] => destruct (api_createTask api d s) as [r s']
    | |- context [api_updateTask api ?i ?u ?s] => destruct (api_updateTask api i u s) as [r s']
    | |- context [api_deleteTask api ?i ?s] => destruct (api_deleteTask api i s) as [r s']
    end;
    cbn [fst snd]; destruct (success r); eexists; reflexivity.
Qed.

Lemma syncLoop_spec queue acc w :
  exists co,
    syncLoop api queue acc w =
      (Ok (drain api queue acc (remote w)).1,
       mkWorld (storage w) (faults w) (clock w) (ticks w) co
               (drain api queue acc (remote w)).2
               (requests w ++ (request_of <$> queue))).
Proof.
  revert acc w. induction queue as [|o queue IH]; intros acc w.
  - exists (console w). simpl. rewrite app_nil_r. by destruct w.
  - destruct (syncOperation_spec o acc w) as [co1 H1].
    cbn [syncLoop drain]. rewrite run_bind, H1.
    destruct (IH (record o (attempt api o (remote w)).1 acc)
                 (mkWorld (storage w) (faults w) (clock w) (ticks w) co1
                          (attempt api o (remote w)).2
                          (requests w ++ [request_of o]))) as [co2 H2].
    rewrite H2. exists co2. cbn [storage faults clock ticks remote requests].
    by rewrite fmap_cons, <- app_assoc.
Qed.

Lemma remapTask_empty task : remapTask ∅ task = task.
Proof. apply remapTask_untouched. by rewrite lookup_empty. Qed.

Lemma remap_all_empty (tasks : list Task) : remapTask ∅ <$> tasks = tasks.
Proof.
  induction tasks as [|task tasks IH]; [done|].
  by rewrite fmap_cons, remapTask_empty, IH.
Qed.

(** A drain pass over a non-empty queue, without storage faults: every
    queued operation is replayed, in queue order, whatever the outcome
    of the ones before it; then the cache and the queue are rewritten. *)
Lemma processOfflineQueue_spec w queue :
  faults w = [] ->
  offlineQueue (storage w) = Some queue ->
  queue <> [] ->
  exists co,
    processOfflineQueue api w =
      (Ok tt,
       mkWorld (drained_storage (storage w) queue
                  (drain api queue ([], ∅) (remote w)).1)
               [] (clock w) (ticks w) co
               (drain api queue ([], ∅) (remote w)).2
               (requests w ++ (request_of <$> queue))).
Proof.
  intros Hf Hq Hne.
  unfold processOfflineQueue, try_catch.
  rewrite run_bind, getOfflineQueue_fault_free by done.
  rewrite Hq. cbn [default from_option id].
  rewrite bool_decide_eq_false_2 by (destruct queue; [done|simpl; lia]).
  rewrite run_bind.
  destruct (syncLoop_spec queue ([], ∅) w) as [co1 ->].
  unfold drained_storage.
  destruct (drain api queue ([], ∅) (remote w)) as [[succ m] s'] eqn:Hd.
  cbn [fst snd]. rewrite run_bind, Hf.
  assert (exists co2,
    (if bool_decide (0 < size m)%nat
     then updateCachedTasksWithRealIds m else (mret tt : M unit))
      (mkWorld (storage w) [] (clock w) (ticks w) co1 s'
               (requests w ++ (request_of <$> queue)))
    = (Ok tt,
       mkWorld (mkStorage (offlineQueue (storage w)) (tempTasks (storage w))
                  (fmap (M:=list) (remapTask m) <$> cachedTasks (storage w)))
               [] (clock w) (ticks w) co2 s'
               (requests w ++ (request_of <$> queue)))) as [co2 ->].
  { case_bool_decide as Hm.
    - rewrite updateCachedTasksWithRealIds_fault_free by done. eauto.
    - assert (m = ∅) as -> by (apply map_size_empty_iff; lia).
      exists co1. rewrite run_ret. do 2 f_equal.
      destruct (storage w) as [q tt' [tasks|]]; simpl; [|done].
      do 2 f_equal. symmetry. apply remap_all_empty. }
  fold (remainingQueue succ queue).
  case_bool_decide as Hs; cbn [andb].
  - rewrite run_bind. unfold setItem_offlineQueue.
    rewrite asyncStorage_fault_free by done.
    cbn [fst snd storage faults clock ticks console remote requests
         offlineQueue tempTasks cachedTasks].
    case_bool_decide as Hr.
    + unfold clearTempTasks, try_catch, removeItem_tempTasks.
      rewrite asyncStorage_fault_free by done. eexists. reflexivity.
    + eexists. reflexivity.
  - eexists. cbn. rewrite Hq. reflexivity.
Qed.

Lemma remainingQueue_sublist successful queue :
  remainingQueue successful queue `sublist_of` queue.
Proof.
  unfold remainingQueue. induction queue as [|o queue IH]; simpl; [done|].
  destruct (negb _); by constructor.
Qed.

Lemma drain_app pre post acc s :
  drain api (pre ++ post) acc s
  = drain api post (drain api pre acc s).1 (drain api pre acc s).2.
Proof.
  revert acc s. induction pre as [|o pre IH]; intros acc s; simpl; [done|].
  apply IH.
Qed.

(** A successful Create that carries a temporary id records the mapping. *)
Lemma record_create o taskData t p r acc :
  operation o = CREATE taskData (Some t) -> t <> "" ->
  success r = true -> data_id r = Some p -> p <> "" ->
  (record o r acc).2 !! t = Some p.
Proof.
  intros Ho Ht Hs Hp Hp'. unfold record. rewrite Hs, Ho, Hp. simpl.
  apply String.eqb_neq in Ht, Hp'. rewrite Ht, Hp'. simpl.
  apply lookup_insert_eq.
Qed.

(** Operations that are not a Create for [t] leave the mapping of [t]. *)
Lemma record_other o t r acc :
  (forall taskData, operation o <> CREATE taskData (Some t)) ->
  (record o r acc).2 !! t = acc.2 !! t.
Proof.
  intros Ho. unfold record. destruct (success r); [|done]. simpl.
  destruct (operation o) as [taskData [t'|]|id updates|id] eqn:E; try done.
  destruct (truthy (Some t') && truthy (data_id r)); [|done]. simpl.
  apply lookup_insert_ne. intros ->. by eapply Ho.
Qed.

Lemma drain_other post t acc s :
  (forall o taskData, o ∈ post -> operation o <> CREATE taskData (Some t)) ->
  (drain api post acc s).1.2 !! t = acc.2 !! t.
Proof.
  revert acc s. induction post as [|o post IH]; intros acc s Hpost; simpl; [done|].
  rewrite IH.
  - apply record_other. intros taskData. apply Hpost. left.
  - intros o' taskData Ho'. apply Hpost. by right.
Qed.
End DrainFacts.
End QueueFacts.

(** C1 (as stated) fails on its queue half.  A task is created and then
    edited offline, and both operations are drained in one pass against a
    service that accepts the Create with permanent id "id0".  The cache entry
    gets the permanent id; the Update is sent with the temporary id, is
    rejected, and stays queued with the temporary id in its payload. *)
Lemma C1_queue_references_not_rewritten :
  (Scenario.create_edit_drain Scenario.device).1 = OfflineQueue.Ok tt
  /\ OfflineQueue.requests (Scenario.create_edit_drain Scenario.device).2
     = [OfflineQueue.ReqCreate Scenario.milk;
        OfflineQueue.ReqUpdate "temp_1700000000001" Scenario.rename]
  /\ OfflineQueue.remote (Scenario.create_edit_drain Scenario.device).2 = ["id0"]
  /\ (fmap (M:=list) _id <$>
        OfflineQueue.cachedTasks
          (OfflineQueue.storage (Scenario.create_edit_drain Scenario.device).2))
     = Some ["id0"]
  /\ (fmap (M:=list) OfflineQueue.operation <$>
        OfflineQueue.offlineQueue
          (OfflineQueue.storage (Scenario.create_edit_drain Scenario.device).2))
     = Some [OfflineQueue.UPDATE "temp_1700000000001" Scenario.rename].
Proof. repeat apply conj; vm_compute; reflexivity. Qed.

(** C2 (as stated) fails on its first half.  Create, Update and Delete are
    queued for one task, in this order.  The Create succeeds and the Update
    fails, and the Delete is still attempted in the same pass. *)
Lemma C2_failure_does_not_block_later_operations :
  (Scenario.create_edit_delete_drain Scenario.device).1 = OfflineQueue.Ok tt
  /\ OfflineQueue.requests (Scenario.create_edit_delete_drain Scenario.device).2
     = [OfflineQueue.ReqCreate Scenario.milk;
        OfflineQueue.ReqUpdate "temp_1700000000001" Scenario.rename;
        OfflineQueue.ReqDelete "temp_1700000000001"]
  /\ (fmap (M:=list) OfflineQueue.operation <$>
        OfflineQueue.offlineQueue
          (OfflineQueue.storage (Scenario.create_edit_delete_drain Scenario.device).2))
     = Some [OfflineQueue.UPDATE "temp_1700000000001" Scenario.rename;
             OfflineQueue.DELETE "temp_1700000000001"].
Proof. repeat apply conj; vm_compute; reflexivity. Qed.

(** C9 (as stated) fails.  The storage write of an enqueue rejects: the call
    still completes normally, the error is only logged, and the stored queue
    does not hold the new operation. *)
Lemma C9_write_failure_not_surfaced :
  OfflineQueue.addToOfflineQueue (OfflineQueue.DELETE "id9") Scenario.faulty_device
  = (OfflineQueue.Ok tt,
     OfflineQueue.mkWorld
       (OfflineQueue.mkStorage (Some [Scenario.queued]) None None) []
       1700000000000 [] ["Failed to add to offline queue:"] tt []).
Proof. reflexivity. Qed.

(** ** Offline queue: the drain pass and reconciliation *)
Section DrainPass.
Import OfflineQueue Drain QueueFacts.
Context {RemoteState : Type}.
Variable api : TaskAPI RemoteState.

(** C1 (as amended).  In a drain pass without storage faults, let a queued
    Create carrying a non-empty temporary id [t] succeed with permanent id
    [p], no later queued Create carrying [t].  Then every Local Cache entry
    whose id is [t] gets id [p], at the same position and with its other
    attributes as they were, and every other entry keeps its attributes.
    The queue is not rewritten: the operations still queued afterwards are
    operations of the original queue, in their order and as they were
    enqueued, and every operation of the pass is sent with the id its
    payload holds. *)
Theorem C1_reconciliation_rewrites_cache
        (w : World RemoteState) (pre post : list PendingOperation)
        (o : PendingOperation) (taskData : TaskForm) (t p : string)
        (s2 : RemoteState) (tasks : list Task) :
  faults w = [] ->
  offlineQueue (storage w) = Some (pre ++ o :: post) ->
  cachedTasks (storage w) = Some tasks ->
  operation o = CREATE taskData (Some t) -> t <> "" ->
  api_createTask api taskData (drain api pre ([], ∅) (remote w)).2
    = (mkResponse true (Some p), s2) ->
  p <> "" ->
  (forall o' taskData', o' ∈ post -> operation o' <> CREATE taskData' (Some t)) ->
  exists tasks' remaining,
    (processOfflineQueue api w).1 = Ok tt
    /\ cachedTasks (storage (processOfflineQueue api w).2) = Some tasks'
    /\ length tasks' = length tasks
    /\ (forall (i : nat) task,
          tasks !! i = Some task -> _id task = t ->
          tasks' !! i = Some (set_id p task))
    /\ (forall (i : nat) task,
          tasks !! i = Some task ->
          exists q, tasks' !! i = Some (set_id q task))
    /\ offlineQueue (storage (processOfflineQueue api w).2) = Some remaining
    /\ remaining `sublist_of` (pre ++ o :: post)
    /\ requests (processOfflineQueue api w).2
       = requests w ++ (request_of <$> (pre ++ o :: post)).
Proof.
  intros Hf Hq Hc Ho Ht Hcreate Hp Hpost.
  destruct (processOfflineQueue_spec api w (pre ++ o :: post) Hf Hq) as [co Hrun].
  { by destruct pre. }
  rewrite Hrun. cbn [fst snd storage requests].
  set (acc := (drain api (pre ++ o :: post) ([], ∅) (remote w)).1).
  assert (acc.2 !! t = Some p) as Hm.
  { unfold acc. rewrite drain_app. cbn [drain].
    rewrite drain_other by done.
    eapply record_create; [done..| | |done].
    - unfold attempt. by rewrite Ho, Hcreate.
    - unfold attempt. by rewrite Ho, Hcreate. }
  unfold drained_storage. rewrite Hc. cbn [cachedTasks offlineQueue fmap option_fmap option_map].
  eexists _, _. split; [done|]. split; [done|].
  split; [by rewrite length_fmap|].
  split; [|split; [|split; [done|split; [|done]]]].
  - intros i task Hi Hid. rewrite list_lookup_fmap, Hi. simpl.
    unfold remapTask. rewrite Hid, Hm. simpl.
    apply String.eqb_neq in Hp. by rewrite Hp.
  - intros i task Hi. rewrite list_lookup_fmap, Hi. simpl.
    unfold remapTask. destruct (truthy (acc.2 !! _id task)); [by eexists|].
    exists (_id task). by destruct task.
  - case_bool_decide; [apply remainingQueue_sublist|done].
Qed.

(** C2 (as amended).  In a drain pass without storage faults over a queue
    [O1; O2; O3], all three operations are attempted, in this order,
    whatever the outcome of the earlier ones, and the queue afterwards holds
    operations of the original queue in their original order.  If [O1] and
    [O2] succeed, [O3] fails and the operation id of [O3] differs from those
    of [O1] and [O2], the queue holds exactly [O3] afterwards. *)
Theorem C2_drain_attempts_all_keeps_failed
        (w : World RemoteState) (O1 O2 O3 : PendingOperation) :
  faults w = [] ->
  offlineQueue (storage w) = Some [O1; O2; O3] ->
  requests (processOfflineQueue api w).2
    = requests w ++ [request_of O1; request_of O2; request_of O3]
  /\ (exists remaining,
        offlineQueue (storage (processOfflineQueue api w).2) = Some remaining
        /\ remaining `sublist_of` [O1; O2; O3])
  /\ (let r1 := attempt api O1 (remote w) in
      let r2 := attempt api O2 r1.2 in
      let r3 := attempt api O3 r2.2 in
      success r1.1 = true -> success r2.1 = true -> success r3.1 = false ->
      op_id O3 <> op_id O1 -> op_id O3 <> op_id O2 ->
      offlineQueue (storage (processOfflineQueue api w).2) = Some [O3]).
Proof.
  intros Hf Hq.
  destruct (processOfflineQueue_spec api w [O1; O2; O3] Hf Hq) as [co Hrun]; [done|].
  rewrite Hrun. cbn [fst snd storage requests]. split; [done|]. split.
  { unfold drained_storage. cbn [offlineQueue]. eexists. split; [done|].
    case_bool_decide; [apply remainingQueue_sublist|done]. }
  cbv zeta. intros H1 H2 H3 H31 H32.
  cbn [drain]. unfold drained_storage, record. rewrite H1. cbn [fst snd]. rewrite H2, H3.
  cbn [fst snd offlineQueue app length]. rewrite bool_decide_eq_true_2 by lia.
  unfold remainingQueue, includes. simpl.
  apply String.eqb_neq in H31, H32.
  rewrite !String.eqb_refl, H31, H32, orb_true_r. done.
Qed.
End DrainPass.

Lemma C1_reconciliation_rewrites_cache_witness :
  exists tasks' remaining,
    (OfflineQueue.processOfflineQueue Scenario.service Scenario.loaded_device).1
      = OfflineQueue.Ok tt
    /\ OfflineQueue.cachedTasks (OfflineQueue.storage
         (OfflineQueue.processOfflineQueue Scenario.service Scenario.loaded_device).2)
       = Some tasks'
    /\ length tasks' = 1%nat
    /\ (forall (i : nat) task,
          default [] (OfflineQueue.cachedTasks
                        (OfflineQueue.storage Scenario.loaded_device)) !! i
            = Some task ->
          _id task = "temp_1" ->
          tasks' !! i = Some (set_id "id0" task))
    /\ (forall (i : nat) task,
          default [] (OfflineQueue.cachedTasks
                        (OfflineQueue.storage Scenario.loaded_device)) !! i
            = Some task ->
          exists q, tasks' !! i = Some (set_id q task))
    /\ OfflineQueue.offlineQueue (OfflineQueue.storage
         (OfflineQueue.processOfflineQueue Scenario.service Scenario.loaded_device).2)
       = Some remaining
    /\ remaining `sublist_of` ([] ++ Scenario.O1 :: [Scenario.O2; Scenario.O3])
    /\ OfflineQueue.requests
         (OfflineQueue.processOfflineQueue Scenario.service Scenario.loaded_device).2
       = [] ++ (Drain.request_of <$> ([] ++ Scenario.O1 :: [Scenario.O2; Scenario.O3])).
Proof.
  refine (C1_reconciliation_rewrites_cache Scenario.service Scenario.loaded_device
            [] [Scenario.O2; Scenario.O3] Scenario.O1 Scenario.milk
            "temp_1" "id0" ["id0"] _ eq_refl eq_refl eq_refl eq_refl _ eq_refl _ _).
  - discriminate.
  - discriminate.
  - intros o' taskData' Ho'.
    apply elem_of_cons in Ho' as [->|Ho']; [discriminate|].
    apply elem_of_cons in Ho' as [->|Ho']; [discriminate|].
    by apply elem_of_nil in Ho'.
Defined.

Lemma C2_drain_attempts_all_keeps_failed_witness :
  OfflineQueue.requests
    (OfflineQueue.processOfflineQueue Scenario.service Scenario.same_task_device).2
    = [] ++ [Drain.request_of Scenario.U1; Drain.request_of Scenario.D2;
             Drain.request_of Scenario.U3]
  /\ (exists remaining,
        OfflineQueue.offlineQueue (OfflineQueue.storage
          (OfflineQueue.processOfflineQueue Scenario.service
             Scenario.same_task_device).2) = Some remaining
        /\ remaining `sublist_of` [Scenario.U1; Scenario.D2; Scenario.U3])
  /\ OfflineQueue.offlineQueue (OfflineQueue.storage
       (OfflineQueue.processOfflineQueue Scenario.service Scenario.same_task_device).2)
     = Some [Scenario.U3].
Proof.
  destruct (C2_drain_attempts_all_keeps_failed Scenario.service
              Scenario.same_task_device Scenario.U1 Scenario.D2 Scenario.U3
              eq_refl eq_refl) as (Hreq & Hsub & Hleft).
  split; [exact Hreq|]. split; [exact Hsub|].
  apply Hleft; [reflexivity | reflexivity | reflexivity | discriminate | discriminate].
Defined.

(** The typing of the mapping matters: a mapping that assigns an id it also
    rewrites moves an entry twice. *)
Lemma remap_chain_moves_twice :
  let m : gmap string string := {[ "a" := "b"; "b" := "c" ]} in
  _id (OfflineQueue.remapTask m Fixtures.late) = "b"
  /\ _id (OfflineQueue.remapTask m (OfflineQueue.remapTask m Fixtures.late)) = "c".
Proof. split; vm_compute; reflexivity. Qed.

(** C8 (as stated) fails when a storage call rejects: on a device whose
    next read succeeds and whose next write rejects, one run leaves the
    temporary id in the cache and logs the failure, and a second run, which
    meets no fault, rewrites it. *)
Lemma C8_write_fault_breaks_idempotence :
  let m : gmap string string := {[ "temp_1" := "id0" ]} in
  let once :=
    (OfflineQueue.updateCachedTasksWithRealIds m Scenario.interrupted_device).2 in
  let twice :=
    ((OfflineQueue.updateCachedTasksWithRealIds m;;
      OfflineQueue.updateCachedTasksWithRealIds m) Scenario.interrupted_device).2 in
  (_id <$> default [] (OfflineQueue.cachedTasks (OfflineQueue.storage once)))
  = ["temp_1"]
  /\ OfflineQueue.console once = ["Failed to update cached tasks with real IDs:"]
  /\ (_id <$> default [] (OfflineQueue.cachedTasks (OfflineQueue.storage twice)))
     = ["id0"].
Proof. repeat apply conj; vm_compute; reflexivity. Qed.

(** C8 (as amended).  On a device without storage faults reconciliation is
    idempotent: for every cache, and every mapping of temporary ids to ids
    that are not temporary, after one run of [updateCachedTasksWithRealIds]
    no cache entry carries an id the mapping would rewrite (none carries a
    key of the mapping at all, when the mapping assigns no empty id), a
    second run changes nothing, so running it twice leaves the cache and the
    queue as running it once does; the queue is the one before the runs. *)
Theorem C8_reconciliation_idempotent {RemoteState : Type}
        (m : gmap string string) (w : OfflineQueue.World RemoteState) :
  OfflineQueue.faults w = [] ->
  (forall t p, m !! t = Some p ->
     Drain.isTemporaryId t = true /\ Drain.isTemporaryId p = false) ->
  exists w1,
    OfflineQueue.updateCachedTasksWithRealIds m w = (OfflineQueue.Ok tt, w1)
    /\ Forall (fun task => OfflineQueue.truthy (m !! _id task) = false)
              (default [] (OfflineQueue.cachedTasks (OfflineQueue.storage w1)))
    /\ ((forall t, m !! t <> Some "") ->
        Forall (fun task => m !! _id task = None)
               (default [] (OfflineQueue.cachedTasks (OfflineQueue.storage w1))))
    /\ OfflineQueue.updateCachedTasksWithRealIds m w1 = (OfflineQueue.Ok tt, w1)
    /\ (OfflineQueue.updateCachedTasksWithRealIds m;;
        OfflineQueue.updateCachedTasksWithRealIds m) w
       = OfflineQueue.updateCachedTasksWithRealIds m w
    /\ OfflineQueue.offlineQueue (OfflineQueue.storage w1)
       = OfflineQueue.offlineQueue (OfflineQueue.storage w).
Proof.
  intros Hf Hm. pose proof Hm as Hkeys.
  apply QueueFacts.temporary_to_permanent_settled in Hm.
  eexists. split; [by apply QueueFacts.updateCachedTasksWithRealIds_fault_free|].
  assert (OfflineQueue.updateCachedTasksWithRealIds m
            (OfflineQueue.mkWorld
               (OfflineQueue.mkStorage
                  (OfflineQueue.offlineQueue (OfflineQueue.storage w))
                  (OfflineQueue.tempTasks (OfflineQueue.storage w))
                  (fmap (M:=list) (OfflineQueue.remapTask m)
                     <$> OfflineQueue.cachedTasks (OfflineQueue.storage w)))
               [] (OfflineQueue.clock w) (OfflineQueue.ticks w)
               (OfflineQueue.console w) (OfflineQueue.remote w)
               (OfflineQueue.requests w))
          = (OfflineQueue.Ok tt,
             OfflineQueue.mkWorld
               (OfflineQueue.mkStorage
                  (OfflineQueue.offlineQueue (OfflineQueue.storage w))
                  (OfflineQueue.tempTasks (OfflineQueue.storage w))
                  (fmap (M:=list) (OfflineQueue.remapTask m)
                     <$> OfflineQueue.cachedTasks (OfflineQueue.storage w)))
               [] (OfflineQueue.clock w) (OfflineQueue.ticks w)
               (OfflineQueue.console w) (OfflineQueue.remote w)
               (OfflineQueue.requests w))) as Hagain.
  { rewrite QueueFacts.updateCachedTasksWithRealIds_fault_free by done.
    cbn [OfflineQueue.storage OfflineQueue.offlineQueue OfflineQueue.tempTasks
         OfflineQueue.cachedTasks OfflineQueue.clock OfflineQueue.ticks
         OfflineQueue.console OfflineQueue.remote OfflineQueue.requests].
    do 3 f_equal.
    destruct (OfflineQueue.cachedTasks (OfflineQueue.storage w)) as [tasks|];
      [|done].
    cbn [fmap option_fmap option_map]. f_equal.
    apply QueueFacts.remap_all_untouched. by apply QueueFacts.remap_all_settled. }
  cbn [OfflineQueue.storage OfflineQueue.cachedTasks OfflineQueue.offlineQueue].
  split; [|split; [|split; [exact Hagain|split; [|done]]]].
  - destruct (OfflineQueue.cachedTasks (OfflineQueue.storage w)) as [tasks|];
      [|by constructor].
    cbn [fmap option_fmap option_map default from_option id].
    apply Forall_fmap, Forall_true. intros task.
    by apply QueueFacts.remapTask_settled.
  - intros Hne.
    destruct (OfflineQueue.cachedTasks (OfflineQueue.storage w)) as [tasks|];
      [|by constructor].
    cbn [fmap option_fmap option_map default from_option id].
    apply Forall_fmap, Forall_true. intros task. simpl.
    by apply QueueFacts.remapTask_no_key.
  - rewrite QueueFacts.run_bind.
    rewrite (QueueFacts.updateCachedTasksWithRealIds_fault_free m w) by done.
    exact Hagain.
Qed.

Lemma C8_reconciliation_idempotent_witness :
  exists w1,
    OfflineQueue.updateCachedTasksWithRealIds {[ "temp_1" := "id0" ]}
      Scenario.loaded_device = (OfflineQueue.Ok tt, w1)
    /\ Forall (fun task =>
                 OfflineQueue.truthy
                   (({[ "temp_1" := "id0" ]} : gmap string string) !! _id task)
                 = false)
              (default [] (OfflineQueue.cachedTasks (OfflineQueue.storage w1)))
    /\ ((forall t, ({[ "temp_1" := "id0" ]} : gmap string string) !! t <> Some "") ->
        Forall (fun task =>
                  ({[ "temp_1" := "id0" ]} : gmap string string) !! _id task = None)
               (default [] (OfflineQueue.cachedTasks (OfflineQueue.storage w1))))
    /\ OfflineQueue.updateCachedTasksWithRealIds {[ "temp_1" := "id0" ]} w1
       = (OfflineQueue.Ok tt, w1)
    /\ (OfflineQueue.updateCachedTasksWithRealIds {[ "temp_1" := "id0" ]};;
        OfflineQueue.updateCachedTasksWithRealIds {[ "temp_1" := "id0" ]})
         Scenario.loaded_device
       = OfflineQueue.updateCachedTasksWithRealIds {[ "temp_1" := "id0" ]}
           Scenario.loaded_device
    /\ OfflineQueue.offlineQueue (OfflineQueue.storage w1)
       = OfflineQueue.offlineQueue (OfflineQueue.storage Scenario.loaded_device).
Proof.
  apply (C8_reconciliation_idempotent {[ "temp_1" := "id0" ]}
           Scenario.loaded_device eq_refl).
  intros t p H. apply lookup_singleton_Some in H as [<- <-].
  split; reflexivity.
Defined.

(** C9 (as amended).  [addToOfflineQueue] always completes normally.  Without
    a storage fault it returns after the queue with the new operation at its
    tail has been persisted.  When the write rejects, whether the read
    before it succeeded or rejected, the failure is caught and logged inside
    [addToOfflineQueue] and is not reported to the caller; storage, and so
    the stored queue, is left as it was. *)
Theorem C9_addToOfflineQueue_catches_write_failure {RemoteState : Type}
        (op : OfflineQueue.Operation) (w : OfflineQueue.World RemoteState) :
  (OfflineQueue.addToOfflineQueue op w).1 = OfflineQueue.Ok tt
  /\ (OfflineQueue.faults w = [] ->
      OfflineQueue.storage (OfflineQueue.addToOfflineQueue op w).2
      = OfflineQueue.mkStorage
          (Some (default [] (OfflineQueue.offlineQueue (OfflineQueue.storage w))
                 ++ [Drain.newOperation w op]))
          (OfflineQueue.tempTasks (OfflineQueue.storage w))
          (OfflineQueue.cachedTasks (OfflineQueue.storage w)))
  /\ (forall (read_rejects : bool) fs,
      OfflineQueue.faults w = read_rejects :: true :: fs ->
      OfflineQueue.storage (OfflineQueue.addToOfflineQueue op w).2
      = OfflineQueue.storage w
      /\ OfflineQueue.console (OfflineQueue.addToOfflineQueue op w).2
         = OfflineQueue.console w
           ++ (if read_rejects then ["Failed to get offline queue:"] else [])
           ++ ["Failed to add to offline queue:"]).
Proof.
  split; [apply QueueFacts.addToOfflineQueue_returns|]. split.
  - apply QueueFacts.addToOfflineQueue_persists.
  - intros r fs. apply QueueFacts.addToOfflineQueue_write_rejected.
Qed.

Lemma C9_addToOfflineQueue_catches_write_failure_witness :
  OfflineQueue.storage
    (OfflineQueue.addToOfflineQueue (OfflineQueue.DELETE "id9")
       Scenario.loaded_device).2
  = OfflineQueue.mkStorage
      (Some ([Scenario.O1; Scenario.O2; Scenario.O3]
             ++ [Drain.newOperation Scenario.loaded_device
                   (OfflineQueue.DELETE "id9")]))
      (OfflineQueue.tempTasks (OfflineQueue.storage Scenario.loaded_device))
      (OfflineQueue.cachedTasks (OfflineQueue.storage Scenario.loaded_device))
  /\ (OfflineQueue.storage
        (OfflineQueue.addToOfflineQueue (OfflineQueue.DELETE "id9")
           Scenario.faulty_device).2
      = OfflineQueue.storage Scenario.faulty_device
      /\ OfflineQueue.console
           (OfflineQueue.addToOfflineQueue (OfflineQueue.DELETE "id9")
              Scenario.faulty_device).2
         = [] ++ [] ++ ["Failed to add to offline queue:"])
  /\ (OfflineQueue.storage
        (OfflineQueue.addToOfflineQueue (OfflineQueue.DELETE "id9")
           Scenario.unwritable_device).2
      = OfflineQueue.storage Scenario.unwritable_device
      /\ OfflineQueue.console
           (OfflineQueue.addToOfflineQueue (OfflineQueue.DELETE "id9")
              Scenario.unwritable_device).2
         = [] ++ ["Failed to get offline queue:"]
              ++ ["Failed to add to offline queue:"]).
Proof.
  split; [|split].
  - exact (proj1 (proj2 (C9_addToOfflineQueue_catches_write_failure
                           (OfflineQueue.DELETE "id9") Scenario.loaded_device))
                 eq_refl).
  - exact (proj2 (proj2 (C9_addToOfflineQueue_catches_write_failure
                           (OfflineQueue.DELETE "id9") Scenario.faulty_device))
                 false [] eq_refl).
  - exact (proj2 (proj2 (C9_addToOfflineQueue_catches_write_failure
                           (OfflineQueue.DELETE "id9") Scenario.unwritable_device))
                 true [] eq_refl).
Defined.

(** * Further properties of the offline queue module *)
Module QueueMore.
Import OfflineQueue Drain Enqueue QueueFacts.

Section Device.
Context {RemoteState : Type}.
Implicit Types w : World RemoteState.

(** Without a storage fault an enqueue reads the clock twice, appends the new
    operation and changes nothing else. *)
Lemma addToOfflineQueue_fault_free op w :
  faults w = [] ->
  addToOfflineQueue op w =
    (Ok tt,
     mkWorld (mkStorage
                (Some (default [] (offlineQueue (storage w)) ++ [newOperation w op]))
                (tempTasks (storage w)) (cachedTasks (storage w)))
             [] (clock w + hd 0 (ticks w) + hd 0 (tl (ticks w)))
             (tl (tl (ticks w))) (console w) (remote w) (requests w)).
Proof.
  destruct w as [st fl ck tk co re rq]. simpl. intros ->. reflexivity.
Qed.

Lemma enqueueAll_fault_free ops w :
  faults w = [] ->
  exists new w',
    enqueueAll ops w = (Ok tt, w')
    /\ faults w' = []
    /\ default [] (offlineQueue (storage w'))
       = default [] (offlineQueue (storage w)) ++ new
    /\ operation <$> new = ops
    /\ tempTasks (storage w') = tempTasks (storage w)
    /\ cachedTasks (storage w') = cachedTasks (storage w).
Proof.
  revert w. induction ops as [|op ops IH]; intros w Hf.
  - exists [], w. by rewrite app_nil_r.
  - cbn [enqueueAll]. rewrite run_bind, addToOfflineQueue_fault_free by done.
    edestruct IH as (new & w' & Hrun & Hf' & Hq & Hops & Ht & Hc);
      [|rewrite Hrun]; [done|].
    exists (newOperation w op :: new), w'.
    cbn [storage offlineQueue tempTasks cachedTasks default from_option id] in *.
    rewrite Hq, <- app_assoc, fmap_cons, Hops. done.
Qed.

(** *** [createTaskOffline] *)
Lemma run_Date_now w :
  Date_now w =
    (Ok (clock w + hd 0 (ticks w)),
     mkWorld (storage w) (faults w) (clock w + hd 0 (ticks w)) (tl (ticks w))
             (console w) (remote w) (requests w)).
Proof. reflexivity. Qed.

Lemma getTempTasks_fault_free w :
  faults w = [] ->
  getTempTasks w = (Ok (default [] (tempTasks (storage w))), w).
Proof.
  intros H. unfold getTempTasks, try_catch, getItem_tempTasks.
  rewrite run_bind, asyncStorage_fault_free by done.
  cbn [fst snd]. rewrite run_ret. f_equal. destruct w; simpl in *; by subst.
Qed.

Ltac world_fields :=
  cbn [fst snd storage faults clock ticks console remote requests
       offlineQueue tempTasks cachedTasks].

Lemma createTaskOffline_fault_free taskData w :
  faults w = [] ->
  exists task o w',
    createTaskOffline taskData w = (Ok task, w')
    /\ _id task = "temp_" +:+ pretty (clock w + hd 0 (ticks w))
    /\ title task = f_title taskData
    /\ description task = f_description taskData
    /\ priority task = f_priority taskData
    /\ dueDate task = f_dueDate taskData
    /\ status task = Some TaskStatus.PENDING
    /\ completedAt task = None
    /\ operation o = CREATE taskData (Some (_id task))
    /\ storage w' =
         mkStorage (Some (default [] (offlineQueue (storage w)) ++ [o]))
                   (Some (default [] (tempTasks (storage w)) ++ [task]))
                   (Some (task :: default [] (cachedTasks (storage w))))
    /\ faults w' = [] /\ remote w' = remote w /\ requests w' = requests w.
Proof.
  intros Hf. unfold createTaskOffline, try_catch.
  rewrite run_bind, run_Date_now. world_fields.
  rewrite run_bind, run_Date_now. world_fields.
  rewrite run_bind, run_Date_now. world_fields.
  rewrite run_bind, getTempTasks_fault_free by done. world_fields.
  rewrite run_bind. unfold setItem_tempTasks.
  rewrite asyncStorage_fault_free by done. world_fields.
  rewrite run_bind. unfold getItem_cachedTasks.
  rewrite asyncStorage_fault_free by done. world_fields.
  rewrite run_bind. unfold setItem_cachedTasks.
  rewrite asyncStorage_fault_free by done. world_fields.
  rewrite run_bind, addToOfflineQueue_fault_free by done. world_fields.
  rewrite run_ret.
  eexists _, (mkOp _ _ _), _. split; [reflexivity|]. world_fields.
  cbn [_id title description priority dueDate status completedAt operation].
  repeat apply conj; reflexivity.
Qed.

(** *** [updateTaskOffline] *)
Lemma findIndex_None taskId (tasks : list Task) :
  findIndex taskId tasks = None <-> Forall (fun t => _id t <> taskId) tasks.
Proof.
  induction tasks as [|t tasks IH]; simpl.
  - split; [constructor|done].
  - destruct (String.eqb_spec (_id t) taskId) as [Heq|Hne].
    + split; [done|]. intros H. by inversion H.
    + destruct (findIndex taskId tasks); simpl.
      * split; [done|]. intros H. inversion H; subst.
        assert (Some n = None) by (by apply IH). done.
      * split; [|done]. intros _. constructor; [done|]. by apply IH.
Qed.

Lemma findIndex_first taskId (before after : list Task) old :
  Forall (fun t => _id t <> taskId) before -> _id old = taskId ->
  findIndex taskId (before ++ old :: after) = Some (length before).
Proof.
  intros Hb Hid. induction Hb as [|t before Ht Hb IH]; simpl.
  - apply String.eqb_eq in Hid. by rewrite Hid.
  - apply String.eqb_neq in Ht. by rewrite Ht, IH.
Qed.

Lemma updateTaskOffline_not_found taskId updates w :
  faults w = [] ->
  Forall (fun t => _id t <> taskId) (default [] (cachedTasks (storage w))) ->
  updateTaskOffline taskId updates w =
    (Thrown "Task not found",
     mkWorld (storage w) [] (clock w) (ticks w)
             (console w ++ ["Failed to update task offline:"])
             (remote w) (requests w)).
Proof.
  intros Hf Hno. apply findIndex_None in Hno.
  destruct w as [[q tt' c] fl ck tk co re rq]. simpl in *. subst.
  unfold updateTaskOffline, try_catch, getItem_cachedTasks.
  rewrite run_bind, asyncStorage_fault_free by done. simpl. rewrite Hno. done.
Qed.

Lemma updateTaskOffline_found taskId updates w (before after : list Task) old :
  faults w = [] ->
  cachedTasks (storage w) = Some (before ++ old :: after) ->
  Forall (fun t => _id t <> taskId) before -> _id old = taskId ->
  exists new o w',
    updateTaskOffline taskId updates w = (Ok new, w')
    /\ new = mergeUpdates (clock w + hd 0 (ticks w)) updates old
    /\ _id new = taskId
    /\ operation o = UPDATE taskId updates
    /\ storage w' =
         mkStorage (Some (default [] (offlineQueue (storage w)) ++ [o]))
                   (tempTasks (storage w))
                   (Some (before ++ new :: after))
    /\ faults w' = [] /\ remote w' = remote w /\ requests w' = requests w.
Proof.
  intros Hf Hc Hb Hid.
  pose proof (findIndex_first taskId before after old Hb Hid) as Hi.
  destruct w as [[q tt' c] fl ck tk co re rq]. simpl in *. subst fl c.
  unfold updateTaskOffline, try_catch, getItem_cachedTasks.
  rewrite run_bind, asyncStorage_fault_free by done.
  cbn [fst snd storage cachedTasks default from_option id].
  rewrite Hi. rewrite list_lookup_middle by done.
  rewrite run_bind. cbn [Date_now clock ticks].
  rewrite run_bind. unfold setItem_cachedTasks.
  rewrite asyncStorage_fault_free by done.
  cbn [fst snd storage faults clock ticks console remote requests
       offlineQueue tempTasks cachedTasks].
  rewrite run_bind, addToOfflineQueue_fault_free by done.
  cbn [fst snd storage faults clock ticks console remote requests
       offlineQueue tempTasks cachedTasks].
  eexists _, (mkOp _ _ _), _. split; [reflexivity|].
  split; [done|]. split; [done|]. split; [reflexivity|].
  split; [|done].
  f_equal. f_equal.
  rewrite insert_app_r_alt by lia. by rewrite Nat.sub_diag.
Qed.

(** *** [deleteTaskOffline] *)
Lemma deleteTaskOffline_fault_free taskId w :
  faults w = [] ->
  exists o w',
    deleteTaskOffline taskId w = (Ok tt, w')
    /\ operation o = DELETE taskId
    /\ storage w' =
         mkStorage (Some (default [] (offlineQueue (storage w)) ++ [o]))
                   (tempTasks (storage w))
                   (Some (List.filter (fun t => negb (String.eqb (_id t) taskId))
                            (default [] (cachedTasks (storage w)))))
    /\ faults w' = [] /\ remote w' = remote w /\ requests w' = requests w.
Proof.
  intros Hf. unfold deleteTaskOffline, try_catch, getItem_cachedTasks.
  rewrite run_bind, asyncStorage_fault_free by done. world_fields.
  rewrite run_bind. unfold setItem_cachedTasks.
  rewrite asyncStorage_fault_free by done. world_fields.
  rewrite addToOfflineQueue_fault_free by done. world_fields.
  eexists (mkOp _ _ _), _. split; [reflexivity|]. world_fields.
  repeat apply conj; reflexivity.
Qed.
End Device.

Section Pass.
Context {RemoteState : Type}.
Variable api : TaskAPI RemoteState.
Implicit Types w : World RemoteState.

(** The outer [catch] of [processOfflineQueue] turns every error into a log
    line. *)
Lemma processOfflineQueue_returns w : (processOfflineQueue api w).1 = Ok tt.
Proof.
  unfold processOfflineQueue, try_catch.
  match goal with |- context [let (_, _) := ?m w in _] => destruct (m w) as [[[]|e] w'] end;
    reflexivity.
Qed.

(** With nothing queued the pass returns at once. *)
Lemma processOfflineQueue_nothing_queued w :
  faults w = [] ->
  default [] (offlineQueue (storage w)) = [] ->
  processOfflineQueue api w = (Ok tt, w).
Proof.
  intros Hf Hq. unfold processOfflineQueue, try_catch.
  rewrite run_bind, getOfflineQueue_fault_free by done. by rewrite Hq.
Qed.

Lemma drain_confirmed queue acc s :
  (drain api queue acc s).1.1 = acc.1 ++ confirmed api queue s.
Proof.
  revert acc s. induction queue as [|o queue IH]; intros acc s; simpl.
  - by rewrite app_nil_r.
  - rewrite IH. unfold record.
    destruct (success (attempt api o s).1); simpl; [|done].
    by rewrite <- app_assoc.
Qed.

Lemma confirmed_all queue s :
  Forall (fun b => b = true) (outcomes api queue s) ->
  confirmed api queue s = op_id <$> queue.
Proof.
  revert s. induction queue as [|o queue IH]; intros s H; simpl in *; [done|].
  inversion H as [|b bs Hb Hbs]; subst. rewrite Hb. simpl. by rewrite IH.
Qed.

Lemma confirmed_none queue s :
  Forall (fun b => b = false) (outcomes api queue s) ->
  confirmed api queue s = [].
Proof.
  revert s. induction queue as [|o queue IH]; intros s H; simpl in *; [done|].
  inversion H as [|b bs Hb Hbs]; subst. rewrite Hb. simpl. by apply IH.
Qed.

Lemma drain_none queue acc s :
  Forall (fun b => b = false) (outcomes api queue s) ->
  (drain api queue acc s).1 = acc.
Proof.
  revert acc s. induction queue as [|o queue IH]; intros acc s H; simpl in *; [done|].
  inversion H as [|b bs Hb Hbs]; subst. rewrite IH by done.
  unfold record. by rewrite Hb.
Qed.

Lemma includes_elem_of (l : list string) x : includes l x = true <-> x ∈ l.
Proof.
  unfold includes. rewrite existsb_exists. split.
  - intros (y & Hy & Heq). apply String.eqb_eq in Heq as ->.
    by apply list_elem_of_In.
  - intros H. exists x. split; [by apply list_elem_of_In|apply String.eqb_refl].
Qed.

Lemma remainingQueue_all queue : remainingQueue (op_id <$> queue) queue = [].
Proof.
  unfold remainingQueue.
  assert (forall l, queue ⊆ l ->
            List.filter (fun o => negb (includes (op_id <$> l) (op_id o))) queue = [])
    as H; [|by apply H].
  induction queue as [|o queue IH]; intros l Hl; simpl; [done|].
  assert (includes (op_id <$> l) (op_id o) = true) as ->.
  { apply includes_elem_of, list_elem_of_fmap. exists o. split; [done|].
    apply Hl. left. }
  simpl. apply IH. intros x Hx. apply Hl. by right.
Qed.

(** The storage and the requests after a pass over a non-empty queue, in
    terms of the operations the service confirmed. *)
Lemma processOfflineQueue_confirmed w queue :
  faults w = [] ->
  offlineQueue (storage w) = Some queue ->
  queue <> [] ->
  offlineQueue (storage (processOfflineQueue api w).2)
    = Some (if bool_decide (0 < length (confirmed api queue (remote w)))%nat
            then remainingQueue (confirmed api queue (remote w)) queue
            else queue)
  /\ requests (processOfflineQueue api w).2
     = requests w ++ (request_of <$> queue)
  /\ remote (processOfflineQueue api w).2 = (drain api queue ([], ∅) (remote w)).2
  /\ faults (processOfflineQueue api w).2 = [].
Proof.
  intros Hf Hq Hne.
  destruct (processOfflineQueue_spec api w queue Hf Hq Hne) as [co ->].
  cbn [fst snd storage requests remote faults].
  unfold drained_storage. cbn [offlineQueue].
  by rewrite drain_confirmed.
Qed.

(** When the service confirms nothing, the pass leaves the storage as it
    was. *)
Lemma processOfflineQueue_none w queue :
  faults w = [] ->
  offlineQueue (storage w) = Some queue ->
  queue <> [] ->
  Forall (fun b => b = false) (outcomes api queue (remote w)) ->
  (processOfflineQueue api w).1 = Ok tt
  /\ storage (processOfflineQueue api w).2 = storage w
  /\ faults (processOfflineQueue api w).2 = []
  /\ requests (processOfflineQueue api w).2 = requests w ++ (request_of <$> queue).
Proof.
  intros Hf Hq Hne Hnone.
  destruct (processOfflineQueue_spec api w queue Hf Hq Hne) as [co ->].
  cbn [fst snd storage faults requests]. split; [done|]. split; [|done].
  unfold drained_storage.
  rewrite drain_none by done. cbn [fst snd length].
  rewrite bool_decide_eq_false_2 by lia. cbn [andb].
  destruct (storage w) as [q tt' c]. simpl in Hq. subst q.
  cbn [cachedTasks tempTasks].
  f_equal. destruct c as [c|]; [|done].
  change (fmap (M:=list) (remapTask ∅) <$> Some c)
    with (Some (remapTask ∅ <$> c)).
  by rewrite remap_all_empty.
Qed.
End Pass.
End QueueMore.

(** ** Enqueueing *)

(** X1: Enqueueing a sequence of operations without a storage fault appends them
    to the stored queue in order; reading the queue back gives the former
    queue followed by the new operations. *)
Theorem enqueue_durable {RemoteState : Type}
        (ops : list OfflineQueue.Operation) (w : OfflineQueue.World RemoteState) :
  OfflineQueue.faults w = [] ->
  exists new w',
    Enqueue.enqueueAll ops w = (OfflineQueue.Ok tt, w')
    /\ OfflineQueue.getOfflineQueue w'
       = (OfflineQueue.Ok
            (default [] (OfflineQueue.offlineQueue (OfflineQueue.storage w)) ++ new),
          w')
    /\ OfflineQueue.operation <$> new = ops.
Proof.
  intros Hf.
  destruct (QueueMore.enqueueAll_fault_free ops w Hf)
    as (new & w' & Hrun & Hf' & Hq & Hops & _).
  exists new, w'. split; [done|]. split; [|done].
  by rewrite QueueFacts.getOfflineQueue_fault_free, Hq.
Qed.

Lemma enqueue_durable_witness :
  exists new w',
    Enqueue.enqueueAll [OfflineQueue.DELETE "id1"; OfflineQueue.DELETE "id2"]
      Scenario.loaded_device = (OfflineQueue.Ok tt, w')
    /\ OfflineQueue.getOfflineQueue w'
       = (OfflineQueue.Ok
            (default [] (OfflineQueue.offlineQueue
                           (OfflineQueue.storage Scenario.loaded_device)) ++ new),
          w')
    /\ OfflineQueue.operation <$> new
       = [OfflineQueue.DELETE "id1"; OfflineQueue.DELETE "id2"].
Proof.
  exact (enqueue_durable [OfflineQueue.DELETE "id1"; OfflineQueue.DELETE "id2"]
           Scenario.loaded_device eq_refl).
Defined.

(** X2: When the storage read of an enqueue rejects and its write succeeds, the
    enqueue completes normally and the stored queue is replaced by the new
    operation alone: what was queued before is gone. *)
Theorem enqueue_after_read_fault_replaces_queue {RemoteState : Type}
        (op : OfflineQueue.Operation) (w : OfflineQueue.World RemoteState)
        (fs : list bool) :
  OfflineQueue.faults w = true :: fs -> hd false fs = false ->
  (OfflineQueue.addToOfflineQueue op w).1 = OfflineQueue.Ok tt
  /\ OfflineQueue.offlineQueue
       (OfflineQueue.storage (OfflineQueue.addToOfflineQueue op w).2)
     = Some [Drain.newOperation w op]
  /\ OfflineQueue.console (OfflineQueue.addToOfflineQueue op w).2
     = OfflineQueue.console w ++ ["Failed to get offline queue:"].
Proof.
  destruct w as [st fl ck tk co re rq]. simpl. intros -> Hfs.
  destruct fs as [|[] fs]; [|done|]; done.
Qed.

Lemma enqueue_after_read_fault_replaces_queue_witness :
  OfflineQueue.offlineQueue (OfflineQueue.storage Scenario.unreadable_device)
    = Some [Scenario.queued]
  /\ (OfflineQueue.addToOfflineQueue (OfflineQueue.DELETE "id9")
        Scenario.unreadable_device).1 = OfflineQueue.Ok tt
  /\ OfflineQueue.offlineQueue
       (OfflineQueue.storage
          (OfflineQueue.addToOfflineQueue (OfflineQueue.DELETE "id9")
             Scenario.unreadable_device).2)
     = Some [Drain.newOperation Scenario.unreadable_device (OfflineQueue.DELETE "id9")]
  /\ OfflineQueue.console
       (OfflineQueue.addToOfflineQueue (OfflineQueue.DELETE "id9")
          Scenario.unreadable_device).2
     = [] ++ ["Failed to get offline queue:"].
Proof.
  split; [reflexivity|].
  exact (enqueue_after_read_fault_replaces_queue (OfflineQueue.DELETE "id9")
           Scenario.unreadable_device [] eq_refl eq_refl).
Defined.

(** ** Offline mutations *)

(** X3: Without a storage fault, [createTaskOffline] returns a pending task with
    a temporary id built from the clock, puts it at the head of the cache and
    at the tail of the temporary tasks, and queues a Create that carries the
    same temporary id. *)
Theorem createTaskOffline_caches_and_queues {RemoteState : Type}
        (taskData : OfflineQueue.TaskForm) (w : OfflineQueue.World RemoteState) :
  OfflineQueue.faults w = [] ->
  exists task o w',
    OfflineQueue.createTaskOffline taskData w = (OfflineQueue.Ok task, w')
    /\ Drain.isTemporaryId (_id task) = true
    /\ status task = Some TaskStatus.PENDING
    /\ completedAt task = None
    /\ OfflineQueue.operation o = OfflineQueue.CREATE taskData (Some (_id task))
    /\ OfflineQueue.storage w' =
         OfflineQueue.mkStorage
           (Some (default [] (OfflineQueue.offlineQueue (OfflineQueue.storage w)) ++ [o]))
           (Some (default [] (OfflineQueue.tempTasks (OfflineQueue.storage w)) ++ [task]))
           (Some (task :: default [] (OfflineQueue.cachedTasks (OfflineQueue.storage w))))
    /\ OfflineQueue.requests w' = OfflineQueue.requests w.
Proof.
  intros Hf.
  destruct (QueueMore.createTaskOffline_fault_free taskData w Hf)
    as (task & o & w' & Hrun & Hid & _ & _ & _ & _ & Hst & Hc & Ho & Hs & _ & _ & Hrq).
  exists task, o, w'. split; [done|].
  split; [|done]. rewrite Hid.
  by destruct (pretty _); vm_compute.
Qed.

Lemma createTaskOffline_caches_and_queues_witness :
  exists task o w',
    OfflineQueue.createTaskOffline Scenario.milk Scenario.loaded_device
      = (OfflineQueue.Ok task, w')
    /\ Drain.isTemporaryId (_id task) = true
    /\ status task = Some TaskStatus.PENDING
    /\ completedAt task = None
    /\ OfflineQueue.operation o = OfflineQueue.CREATE Scenario.milk (Some (_id task))
    /\ OfflineQueue.storage w' =
         OfflineQueue.mkStorage
           (Some (default [] (OfflineQueue.offlineQueue
                                (OfflineQueue.storage Scenario.loaded_device)) ++ [o]))
           (Some (default [] (OfflineQueue.tempTasks
                                (OfflineQueue.storage Scenario.loaded_device)) ++ [task]))
           (Some (task :: default [] (OfflineQueue.cachedTasks
                                        (OfflineQueue.storage Scenario.loaded_device))))
    /\ OfflineQueue.requests w' = OfflineQueue.requests Scenario.loaded_device.
Proof.
  exact (createTaskOffline_caches_and_queues Scenario.milk Scenario.loaded_device eq_refl).
Defined.

(** X4: [updateTaskOffline] on an id the cache does not hold throws
    "Task not found", after logging; the storage is as before, nothing is
    queued and no request is made. *)
Theorem updateTaskOffline_unknown_task_throws {RemoteState : Type}
        (taskId : string) (updates : OfflineQueue.TaskUpdates)
        (w : OfflineQueue.World RemoteState) :
  OfflineQueue.faults w = [] ->
  Forall (fun t => _id t <> taskId)
         (default [] (OfflineQueue.cachedTasks (OfflineQueue.storage w))) ->
  (OfflineQueue.updateTaskOffline taskId updates w).1
    = OfflineQueue.Thrown "Task not found"
  /\ OfflineQueue.storage (OfflineQueue.updateTaskOffline taskId updates w).2
     = OfflineQueue.storage w
  /\ OfflineQueue.requests (OfflineQueue.updateTaskOffline taskId updates w).2
     = OfflineQueue.requests w
  /\ OfflineQueue.console (OfflineQueue.updateTaskOffline taskId updates w).2
     = OfflineQueue.console w ++ ["Failed to update task offline:"].
Proof.
  intros Hf Hno.
  by rewrite (QueueMore.updateTaskOffline_not_found taskId updates w Hf Hno).
Qed.

Lemma updateTaskOffline_unknown_task_throws_witness :
  (OfflineQueue.updateTaskOffline "id7" Scenario.rename Scenario.loaded_device).1
    = OfflineQueue.Thrown "Task not found"
  /\ OfflineQueue.storage
       (OfflineQueue.updateTaskOffline "id7" Scenario.rename Scenario.loaded_device).2
     = OfflineQueue.storage Scenario.loaded_device
  /\ OfflineQueue.requests
       (OfflineQueue.updateTaskOffline "id7" Scenario.rename Scenario.loaded_device).2
     = OfflineQueue.requests Scenario.loaded_device
  /\ OfflineQueue.console
       (OfflineQueue.updateTaskOffline "id7" Scenario.rename Scenario.loaded_device).2
     = OfflineQueue.console Scenario.loaded_device ++ ["Failed to update task offline:"].
Proof.
  apply (updateTaskOffline_unknown_task_throws "id7" Scenario.rename
           Scenario.loaded_device eq_refl).
  repeat constructor. vm_compute. discriminate.
Defined.

(** X5: [updateTaskOffline] on an id the cache holds merges the updates into the
    first cached task with that id, and into no other entry; the merged task
    keeps the id, is returned, and an Update carrying the id and the updates
    is appended to the stored queue. *)
Theorem updateTaskOffline_edits_first_match {RemoteState : Type}
        (taskId : string) (updates : OfflineQueue.TaskUpdates)
        (w : OfflineQueue.World RemoteState)
        (before after : list Task) (old : Task) :
  OfflineQueue.faults w = [] ->
  OfflineQueue.cachedTasks (OfflineQueue.storage w) = Some (before ++ old :: after) ->
  Forall (fun t => _id t <> taskId) before ->
  _id old = taskId ->
  exists new o w',
    OfflineQueue.updateTaskOffline taskId updates w = (OfflineQueue.Ok new, w')
    /\ new = OfflineQueue.mergeUpdates
               (OfflineQueue.clock w + hd 0 (OfflineQueue.ticks w)) updates old
    /\ _id new = taskId
    /\ OfflineQueue.operation o = OfflineQueue.UPDATE taskId updates
    /\ OfflineQueue.storage w' =
         OfflineQueue.mkStorage
           (Some (default [] (OfflineQueue.offlineQueue (OfflineQueue.storage w)) ++ [o]))
           (OfflineQueue.tempTasks (OfflineQueue.storage w))
           (Some (before ++ new :: after))
    /\ OfflineQueue.requests w' = OfflineQueue.requests w.
Proof.
  intros Hf Hc Hb Hid.
  destruct (QueueMore.updateTaskOffline_found taskId updates w before after old
              Hf Hc Hb Hid)
    as (new & o & w' & Hrun & Hnew & Hnid & Ho & Hs & _ & _ & Hrq).
  by exists new, o, w'.
Qed.

Lemma updateTaskOffline_edits_first_match_witness :
  exists new o w',
    OfflineQueue.updateTaskOffline "temp_1" Scenario.rename Scenario.twice_cached_device
      = (OfflineQueue.Ok new, w')
    /\ new = OfflineQueue.mergeUpdates
               (OfflineQueue.clock Scenario.twice_cached_device
                + hd 0 (OfflineQueue.ticks Scenario.twice_cached_device))
               Scenario.rename Scenario.cached_milk
    /\ _id new = "temp_1"
    /\ OfflineQueue.operation o = OfflineQueue.UPDATE "temp_1" Scenario.rename
    /\ OfflineQueue.storage w' =
         OfflineQueue.mkStorage
           (Some (default [] (OfflineQueue.offlineQueue
                                (OfflineQueue.storage Scenario.twice_cached_device)) ++ [o]))
           (OfflineQueue.tempTasks (OfflineQueue.storage Scenario.twice_cached_device))
           (Some ([Scenario.cached_bread] ++ new :: [Scenario.cached_milk]))
    /\ OfflineQueue.requests w' = OfflineQueue.requests Scenario.twice_cached_device.
Proof.
  apply (updateTaskOffline_edits_first_match "temp_1" Scenario.rename
           Scenario.twice_cached_device [Scenario.cached_bread]
           [Scenario.cached_milk] Scenario.cached_milk eq_refl eq_refl).
  - repeat constructor. vm_compute. discriminate.
  - reflexivity.
Defined.

(** X6: [deleteTaskOffline] removes every cached task with the id and appends a
    Delete for the id to the stored queue, whether or not the cache held such
    a task; an offline update of the same id afterwards throws
    "Task not found". *)
Theorem deleteTaskOffline_removes_and_queues {RemoteState : Type}
        (taskId : string) (updates : OfflineQueue.TaskUpdates)
        (w : OfflineQueue.World RemoteState) :
  OfflineQueue.faults w = [] ->
  exists o cache' w',
    OfflineQueue.deleteTaskOffline taskId w = (OfflineQueue.Ok tt, w')
    /\ OfflineQueue.operation o = OfflineQueue.DELETE taskId
    /\ OfflineQueue.storage w' =
         OfflineQueue.mkStorage
           (Some (default [] (OfflineQueue.offlineQueue (OfflineQueue.storage w)) ++ [o]))
           (OfflineQueue.tempTasks (OfflineQueue.storage w))
           (Some cache')
    /\ (forall t, t ∈ cache' <->
                  t ∈ default [] (OfflineQueue.cachedTasks (OfflineQueue.storage w))
                  /\ _id t <> taskId)
    /\ sublist cache' (default [] (OfflineQueue.cachedTasks (OfflineQueue.storage w)))
    /\ OfflineQueue.requests w' = OfflineQueue.requests w
    /\ (OfflineQueue.updateTaskOffline taskId updates w').1
       = OfflineQueue.Thrown "Task not found".
Proof.
  intros Hf.
  destruct (QueueMore.deleteTaskOffline_fault_free taskId w Hf)
    as (o & w' & Hrun & Ho & Hs & Hf' & _ & Hrq).
  set (keep := fun t : Task => negb (String.eqb (_id t) taskId)) in *.
  assert (forall t, keep t = true <-> _id t <> taskId) as Hkeep.
  { intros t. unfold keep. rewrite negb_true_iff. apply String.eqb_neq. }
  exists o, (List.filter keep
               (default [] (OfflineQueue.cachedTasks (OfflineQueue.storage w)))), w'.
  split; [done|]. split; [done|]. split; [done|]. split; [|split; [|split; [done|]]].
  - intros t. rewrite !list_elem_of_In, filter_In. by rewrite Hkeep.
  - generalize (default [] (OfflineQueue.cachedTasks (OfflineQueue.storage w))).
    intros l. induction l as [|t l IH]; simpl; [constructor|].
    destruct (keep t); by constructor.
  - rewrite QueueMore.updateTaskOffline_not_found; [done|done|].
    rewrite Hs. simpl. apply Forall_forall. intros t Ht.
    apply list_elem_of_In, filter_In in Ht as [_ Ht]. by apply Hkeep.
Qed.

Lemma deleteTaskOffline_removes_and_queues_witness :
  exists o cache' w',
    OfflineQueue.deleteTaskOffline "temp_1" Scenario.twice_cached_device
      = (OfflineQueue.Ok tt, w')
    /\ OfflineQueue.operation o = OfflineQueue.DELETE "temp_1"
    /\ OfflineQueue.storage w' =
         OfflineQueue.mkStorage
           (Some (default [] (OfflineQueue.offlineQueue
                                (OfflineQueue.storage Scenario.twice_cached_device)) ++ [o]))
           (OfflineQueue.tempTasks (OfflineQueue.storage Scenario.twice_cached_device))
           (Some cache')
    /\ (forall t, t ∈ cache' <->
                  t ∈ default [] (OfflineQueue.cachedTasks
                                    (OfflineQueue.storage Scenario.twice_cached_device))
                  /\ _id t <> "temp_1")
    /\ sublist cache' (default [] (OfflineQueue.cachedTasks
                                     (OfflineQueue.storage Scenario.twice_cached_device)))
    /\ OfflineQueue.requests w' = OfflineQueue.requests Scenario.twice_cached_device
    /\ (OfflineQueue.updateTaskOffline "temp_1" Scenario.rename w').1
       = OfflineQueue.Thrown "Task not found".
Proof.
  exact (deleteTaskOffline_removes_and_queues "temp_1" Scenario.rename
           Scenario.twice_cached_device eq_refl).
Defined.

(** ** The drain pass *)

(** X7: [processOfflineQueue] never throws, whatever the storage and the service
    do: its outer [catch] turns every error into a log line.  With no
    operation queued (no stored queue, or an empty one) and no storage
    fault, it makes no request and changes nothing. *)
Theorem processOfflineQueue_never_throws {RemoteState : Type}
        (api : OfflineQueue.TaskAPI RemoteState)
        (w : OfflineQueue.World RemoteState) :
  (OfflineQueue.processOfflineQueue api w).1 = OfflineQueue.Ok tt
  /\ (OfflineQueue.faults w = [] ->
      default [] (OfflineQueue.offlineQueue (OfflineQueue.storage w)) = [] ->
      OfflineQueue.processOfflineQueue api w = (OfflineQueue.Ok tt, w)).
Proof.
  split.
  - apply QueueMore.processOfflineQueue_returns.
  - apply QueueMore.processOfflineQueue_nothing_queued.
Qed.

Lemma processOfflineQueue_never_throws_witness :
  (OfflineQueue.processOfflineQueue Retry.rejecting Scenario.faulty_device).1
    = OfflineQueue.Ok tt
  /\ OfflineQueue.processOfflineQueue Scenario.service Scenario.twice_cached_device
     = (OfflineQueue.Ok tt, Scenario.twice_cached_device).
Proof.
  split.
  - exact (proj1 (processOfflineQueue_never_throws Retry.rejecting
                    Scenario.faulty_device)).
  - exact (proj2 (processOfflineQueue_never_throws Scenario.service
                    Scenario.twice_cached_device) eq_refl eq_refl).
Defined.

(** X8: When the service confirms every queued operation, the pass leaves an
    empty queue and removes the temporary tasks; when it confirms none, the
    pass leaves the storage (queue, temporary tasks and cache) as it found
    it. *)
Theorem processOfflineQueue_all_or_none_confirmed {RemoteState : Type}
        (api : OfflineQueue.TaskAPI RemoteState)
        (w : OfflineQueue.World RemoteState)
        (queue : list OfflineQueue.PendingOperation) :
  OfflineQueue.faults w = [] ->
  OfflineQueue.offlineQueue (OfflineQueue.storage w) = Some queue ->
  queue <> [] ->
  (Forall (fun b => b = true) (Enqueue.outcomes api queue (OfflineQueue.remote w)) ->
   OfflineQueue.offlineQueue
     (OfflineQueue.storage (OfflineQueue.processOfflineQueue api w).2) = Some []
   /\ OfflineQueue.tempTasks
        (OfflineQueue.storage (OfflineQueue.processOfflineQueue api w).2) = None)
  /\ (Forall (fun b => b = false) (Enqueue.outcomes api queue (OfflineQueue.remote w)) ->
      OfflineQueue.storage (OfflineQueue.processOfflineQueue api w).2
      = OfflineQueue.storage w).
Proof.
  intros Hf Hq Hne. split.
  - intros Hall.
    destruct (QueueFacts.processOfflineQueue_spec api w queue Hf Hq Hne) as [co ->].
    cbn [fst snd OfflineQueue.storage]. unfold Drain.drained_storage.
    cbn [OfflineQueue.offlineQueue OfflineQueue.tempTasks].
    rewrite QueueMore.drain_confirmed, QueueMore.confirmed_all by done.
    cbn [fst app]. rewrite QueueMore.remainingQueue_all.
    rewrite bool_decide_eq_true_2; [done|].
    destruct queue; [done|]. rewrite length_fmap. simpl. lia.
  - intros Hnone.
    by destruct (QueueMore.processOfflineQueue_none api w queue Hf Hq Hne Hnone)
      as (_ & Hs & _).
Qed.

Lemma processOfflineQueue_all_or_none_confirmed_witness :
  (OfflineQueue.offlineQueue
     (OfflineQueue.storage
        (OfflineQueue.processOfflineQueue Scenario.service Scenario.creates_device).2)
     = Some []
   /\ OfflineQueue.tempTasks
        (OfflineQueue.storage
           (OfflineQueue.processOfflineQueue Scenario.service Scenario.creates_device).2)
      = None)
  /\ OfflineQueue.storage
       (OfflineQueue.processOfflineQueue Scenario.service Scenario.stuck_device).2
     = OfflineQueue.storage Scenario.stuck_device.
Proof.
  split.
  - apply (processOfflineQueue_all_or_none_confirmed Scenario.service
             Scenario.creates_device [Scenario.O1; Scenario.O2] eq_refl eq_refl);
      [discriminate|]. vm_compute. repeat constructor.
  - apply (processOfflineQueue_all_or_none_confirmed Scenario.service
             Scenario.stuck_device [Scenario.O3] eq_refl eq_refl);
      [discriminate|]. vm_compute. repeat constructor.
Defined.

(** X9: Operation ids are clock readings.  Two operations enqueued while the
    clock does not advance get the same id, and when the service confirms the
    first of them the pass removes both from the queue, whatever the service
    answered to the second. *)
Theorem same_millisecond_operations_removed_together {RemoteState : Type}
        (api : OfflineQueue.TaskAPI RemoteState)
        (w : OfflineQueue.World RemoteState)
        (op1 op2 : OfflineQueue.Operation) :
  OfflineQueue.faults w = [] ->
  OfflineQueue.ticks w = [] ->
  default [] (OfflineQueue.offlineQueue (OfflineQueue.storage w)) = [] ->
  OfflineQueue.success
    (Drain.attempt api (Drain.newOperation w op1) (OfflineQueue.remote w)).1 = true ->
  exists w1 w2,
    Enqueue.enqueueAll [op1; op2] w = (OfflineQueue.Ok tt, w1)
    /\ OfflineQueue.offlineQueue (OfflineQueue.storage w1)
       = Some [Drain.newOperation w op1; Drain.newOperation w op2]
    /\ OfflineQueue.processOfflineQueue api w1 = (OfflineQueue.Ok tt, w2)
    /\ OfflineQueue.requests w2
       = OfflineQueue.requests w
         ++ [Drain.request_of (Drain.newOperation w op1);
             Drain.request_of (Drain.newOperation w op2)]
    /\ OfflineQueue.offlineQueue (OfflineQueue.storage w2) = Some [].
Proof.
  intros Hf Ht Hq Hok.
  destruct w as [st fl ck tk co re rq]. cbn in Hf, Ht, Hq. subst fl tk.
  unfold Drain.newOperation in *.
  cbn [OfflineQueue.clock OfflineQueue.ticks OfflineQueue.remote
       OfflineQueue.requests hd tl] in *.
  rewrite !Z.add_0_r in *.
  set (o1 := OfflineQueue.mkOp (pretty ck) op1 ck) in *.
  set (o2 := OfflineQueue.mkOp (pretty ck) op2 ck).
  set (w1 := OfflineQueue.mkWorld
               (OfflineQueue.mkStorage (Some [o1; o2]) (OfflineQueue.tempTasks st)
                  (OfflineQueue.cachedTasks st))
               [] ck [] co re rq).
  assert (Enqueue.enqueueAll [op1; op2]
            (OfflineQueue.mkWorld st [] ck [] co re rq) = (OfflineQueue.Ok tt, w1))
    as Henq.
  { cbn [Enqueue.enqueueAll].
    rewrite QueueFacts.run_bind, QueueMore.addToOfflineQueue_fault_free by done.
    cbn [fst snd].
    rewrite QueueFacts.run_bind, QueueMore.addToOfflineQueue_fault_free by done.
    unfold Drain.newOperation.
    cbn [fst snd OfflineQueue.storage OfflineQueue.faults OfflineQueue.clock
         OfflineQueue.ticks OfflineQueue.console OfflineQueue.remote
         OfflineQueue.requests OfflineQueue.offlineQueue OfflineQueue.tempTasks
         OfflineQueue.cachedTasks default from_option id hd tl].
    rewrite Hq, !Z.add_0_r. reflexivity. }
  exists w1, (OfflineQueue.processOfflineQueue api w1).2.
  split; [exact Henq|]. split; [reflexivity|].
  pose proof (QueueMore.processOfflineQueue_returns api w1) as Hret.
  destruct (QueueMore.processOfflineQueue_confirmed api w1 [o1; o2]
              eq_refl eq_refl ltac:(discriminate)) as (Hqueue & Hreq & _ & _).
  split; [by rewrite <- Hret; destruct (OfflineQueue.processOfflineQueue api w1)|].
  split; [exact Hreq|].
  rewrite Hqueue. cbn [Enqueue.confirmed OfflineQueue.remote w1].
  rewrite Hok. cbn [app length].
  rewrite bool_decide_eq_true_2 by lia.
  unfold Drain.remainingQueue, OfflineQueue.includes.
  cbn [List.filter existsb OfflineQueue.op_id o1 o2].
  by rewrite String.eqb_refl.
Qed.

Lemma same_millisecond_operations_removed_together_witness :
  OfflineQueue.success
    (Drain.attempt Scenario.service
       (Drain.newOperation Scenario.same_ms_device
          (OfflineQueue.UPDATE "id0" Scenario.rename)) []).1 = false
  /\ exists w1 w2,
    Enqueue.enqueueAll [OfflineQueue.DELETE "id0"; OfflineQueue.UPDATE "id0" Scenario.rename]
      Scenario.same_ms_device = (OfflineQueue.Ok tt, w1)
    /\ OfflineQueue.offlineQueue (OfflineQueue.storage w1)
       = Some [Drain.newOperation Scenario.same_ms_device (OfflineQueue.DELETE "id0");
               Drain.newOperation Scenario.same_ms_device
                 (OfflineQueue.UPDATE "id0" Scenario.rename)]
    /\ OfflineQueue.processOfflineQueue Scenario.service w1 = (OfflineQueue.Ok tt, w2)
    /\ OfflineQueue.requests w2
       = OfflineQueue.requests Scenario.same_ms_device
         ++ [Drain.request_of
               (Drain.newOperation Scenario.same_ms_device (OfflineQueue.DELETE "id0"));
             Drain.request_of
               (Drain.newOperation Scenario.same_ms_device
                  (OfflineQueue.UPDATE "id0" Scenario.rename))]
    /\ OfflineQueue.offlineQueue (OfflineQueue.storage w2) = Some [].
Proof.
  split; [reflexivity|].
  exact (same_millisecond_operations_removed_together Scenario.service
           Scenario.same_ms_device (OfflineQueue.DELETE "id0")
           (OfflineQueue.UPDATE "id0" Scenario.rename)
           eq_refl eq_refl eq_refl eq_refl).
Defined.

(** * Further properties of the client ranking and filters *)

(** ** Sorting a sorted array, and sorting a filtered one *)
Section ArraySortMore.
Context {A : Type}.
Variable cmp : A -> A -> Z.

Lemma Forall_list_filter (Q : A -> Prop) (P : A -> bool) l :
  Forall Q l -> Forall Q (List.filter P l).
Proof.
  induction 1 as [|x l Hx Hl IH]; [constructor|].
  cbn [List.filter]. destruct (P x); [by constructor|done].
Qed.

Lemma array_sort_sorted_id l :
  StronglySorted (may_precede cmp) l -> array_sort cmp l = l.
Proof.
  induction 1 as [|x l Hl IH Hx]; [done|].
  cbn [array_sort]. rewrite IH.
  destruct l as [|y l]; [done|]. cbn [sort_insert].
  inversion Hx as [|? ? Hxy _]; subst. unfold may_precede in Hxy.
  by rewrite (proj2 (Z.leb_le _ _) Hxy).
Qed.

Lemma sort_insert_front x l :
  Forall (may_precede cmp x) l -> sort_insert cmp x l = x :: l.
Proof.
  destruct 1 as [|y l Hxy _]; [done|]. cbn [sort_insert].
  unfold may_precede in Hxy. by rewrite (proj2 (Z.leb_le _ _) Hxy).
Qed.

Hypothesis cmp_total : forall x y, cmp x y <= 0 \/ cmp y x <= 0.
Hypothesis cmp_trans : forall x y z, cmp x y <= 0 -> cmp y z <= 0 -> cmp x z <= 0.

Lemma array_sort_idempotent l : array_sort cmp (array_sort cmp l) = array_sort cmp l.
Proof. by apply array_sort_sorted_id, array_sort_sorted. Qed.

Lemma sort_insert_filter (P : A -> bool) x l :
  StronglySorted (may_precede cmp) l ->
  List.filter P (sort_insert cmp x l)
  = if P x then sort_insert cmp x (List.filter P l) else List.filter P l.
Proof.
  induction 1 as [|y l Hl IH Hy]; [by simpl; destruct (P x)|].
  cbn [sort_insert]. destruct (Z.leb_spec (cmp x y) 0) as [Hxy|Hxy].
  - cbn [List.filter]. destruct (P x) eqn:Hx; [|done].
    rewrite sort_insert_front; [done|].
    assert (Forall (may_precede cmp x) (y :: l)) as Hall.
    { constructor; [done|]. eapply Forall_impl; [exact Hy|].
      intros z Hz. by eapply cmp_trans. }
    destruct (P y); [|by inversion Hall as [|? ? _ Hall']; apply Forall_list_filter].
    inversion Hall as [|? ? H1 Hall']; subst.
    constructor; [done|]. by apply Forall_list_filter.
  - cbn [List.filter]. destruct (P y) eqn:Hpy.
    + rewrite IH. destruct (P x); [|done].
      cbn [sort_insert]. by rewrite (proj2 (Z.leb_gt _ _) Hxy).
    + by rewrite IH.
Qed.

Lemma array_sort_filter (P : A -> bool) l :
  List.filter P (array_sort cmp l) = array_sort cmp (List.filter P l).
Proof.
  induction l as [|x l IH]; [done|].
  cbn [array_sort List.filter].
  rewrite sort_insert_filter by by apply array_sort_sorted.
  rewrite IH. by destruct (P x).
Qed.

(** In a sorted array the elements that must come after all others are at
    the end. *)
Lemma sorted_split (P : A -> bool) l :
  (forall x y, P x = true -> P y = false -> 0 < cmp x y) ->
  StronglySorted (may_precede cmp) l ->
  l = List.filter (fun x => negb (P x)) l ++ List.filter P l.
Proof.
  intros Hlast. induction 1 as [|y l Hl IH Hy]; [done|].
  cbn [List.filter]. destruct (P y) eqn:Hpy; cbn [negb].
  - assert (Forall (fun z => P z = true) l) as Hall.
    { eapply Forall_impl; [exact Hy|]. intros z Hz. unfold may_precede in Hz.
      destruct (P z) eqn:Hpz; [done|]. specialize (Hlast y z Hpy Hpz). lia. }
    assert (List.filter (fun x => negb (P x)) l = [] /\ List.filter P l = l) as [-> ->];
      [|done].
    clear IH Hy Hl. induction Hall as [|z l Hz Hall [IH1 IH2]]; [done|].
    cbn [List.filter]. rewrite Hz. cbn [negb]. by rewrite IH1, IH2.
  - cbn [app]. by f_equal.
Qed.
End ArraySortMore.

(** ** The client's ranking and filters *)
Module ClientMore.
Import Client Scores Components ClientFilters.

Lemma compareTasks_completed_after now x y :
  isCompleted x = true -> isCompleted y = false -> 0 < compareTasks now x y.
Proof. intros Hx Hy. unfold compareTasks. rewrite Hx, Hy. simpl. lia. Qed.

Lemma forall_components_sound P p u r :
  forall_components P = true ->
  In p priorityScores -> In u urgencyScores -> In r recencyScores ->
  P p u r = true.
Proof.
  unfold forall_components. intros H Hp Hu Hr.
  rewrite forallb_forall in H. specialize (H _ Hp).
  rewrite forallb_forall in H. specialize (H _ Hu).
  rewrite forallb_forall in H. exact (H _ Hr).
Qed.

Lemma forall_components_task P now t :
  forall_components P = true ->
  P (getPriorityScore (priority t)) (getUrgencyScore now (dueDate t))
    (getRecencyScore now (createdAt t)) = true.
Proof.
  intros H. apply forall_components_sound; [done|..].
  - apply ClientFacts.getPriorityScore_range.
  - apply ClientFacts.getUrgencyScore_range.
  - apply ClientFacts.getRecencyScore_range.
Qed.

(** In doubles, a triple of component scores that dominates another has the
    strictly larger composite score. *)
Lemma dominates_composite :
  forall_components (fun pa ua ra =>
    forall_components (fun pb ub rb =>
      implb (dominates pa ua ra pb ub rb)
            (0 <? float_sign (composite pa ua ra - composite pb ub rb)))) = true.
Proof. vm_compute. reflexivity. Qed.

Lemma compareTasks_dominated now a b :
  isCompleted a = false -> isCompleted b = false ->
  task_dominates now a b = true ->
  0 < compareTasks now b a.
Proof.
  intros Ha Hb Hdom. unfold compareTasks. rewrite Ha, Hb. simpl.
  pose proof (forall_components_task _ now a dominates_composite) as H.
  cbv beta in H.
  pose proof (forall_components_task _ now b H) as H'. cbv beta in H'.
  unfold task_dominates in Hdom. rewrite Hdom in H'. simpl in H'.
  apply Z.ltb_lt in H'. exact H'.
Qed.
End ClientMore.

(** X10: Sorting a list that [smartSortTasks] has sorted at the same instant
    changes nothing. *)
Theorem smartSortTasks_idempotent (now : Z) (tasks : list Task) :
  Client.smartSortTasks now (Client.smartSortTasks now tasks)
  = Client.smartSortTasks now tasks.
Proof.
  apply array_sort_idempotent;
    [apply ClientFacts.compareTasks_total | apply ClientFacts.compareTasks_trans].
Qed.

(** X11: Filtering by status or by priority and smart sorting commute: the order
    of the tasks that pass a filter does not depend on the tasks that do
    not. *)
Theorem smartSortTasks_commutes_with_filters (now : Z) (tasks : list Task)
        (f : option string) :
  ClientFilters.filterTasksByStatus (Client.smartSortTasks now tasks) f
  = Client.smartSortTasks now (ClientFilters.filterTasksByStatus tasks f)
  /\ ClientFilters.filterTasksByPriority (Client.smartSortTasks now tasks) f
     = Client.smartSortTasks now (ClientFilters.filterTasksByPriority tasks f).
Proof.
  unfold ClientFilters.filterTasksByStatus, ClientFilters.filterTasksByPriority.
  destruct (OfflineQueue.truthy f); cbn [negb]; [|done].
  split; apply array_sort_filter;
    first [apply ClientFacts.compareTasks_total | apply ClientFacts.compareTasks_trans].
Qed.

(** X12: The sorted list is the non-completed tasks, sorted among themselves,
    followed by the completed tasks, sorted among themselves. *)
Theorem smartSortTasks_open_then_completed (now : Z) (tasks : list Task) :
  Client.smartSortTasks now tasks
  = Client.smartSortTasks now (List.filter (fun t => negb (isCompleted t)) tasks)
    ++ Client.smartSortTasks now (List.filter isCompleted tasks).
Proof.
  unfold Client.smartSortTasks.
  rewrite <- !array_sort_filter
    by first [apply ClientFacts.compareTasks_total | apply ClientFacts.compareTasks_trans].
  apply (sorted_split (Client.compareTasks now)).
  - intros x y. apply ClientMore.compareTasks_completed_after.
  - apply ClientFacts.smartSortTasks_sorted.
Qed.

(** X13: Among non-completed tasks, a task that is at least as good as another in
    priority score, urgency score and recency score, and better in one of
    them, comes first in the sorted list. *)
Theorem smartSortTasks_dominant_first (now : Z) (tasks : list Task)
        (a b : Task) (i j : nat) :
  isCompleted a = false -> isCompleted b = false ->
  Components.task_dominates now a b = true ->
  Client.smartSortTasks now tasks !! i = Some a ->
  Client.smartSortTasks now tasks !! j = Some b ->
  (i < j)%nat.
Proof.
  intros Ha Hb Hdom. apply ClientFacts.smartSortTasks_strictly_before.
  by apply ClientMore.compareTasks_dominated.
Qed.

Lemma smartSortTasks_dominant_first_witness : (0 < 1)%nat.
Proof.
  exact (smartSortTasks_dominant_first Fixtures.now0
           [Fixtures.next_week; Fixtures.soon] Fixtures.soon Fixtures.next_week
           0 1 eq_refl eq_refl eq_refl eq_refl eq_refl).
Defined.

(** * Task statistics *)
Module StatsFacts.
Import Stats Counting.

Lemma count_if_cons c t l :
  count_if c (t :: l) = (if c t then 1 else 0) + count_if c l.
Proof.
  unfold count_if. cbn [List.filter]. destruct (c t); cbn [length]; lia.
Qed.

Lemma count_if_bounds c l : 0 <= count_if c l <= Z.of_nat (length l).
Proof.
  induction l as [|t l IH]; [unfold count_if; simpl; lia|].
  rewrite count_if_cons. cbn [length]. destruct (c t); lia.
Qed.

(** The counters after the loop, from any initial counters. *)
Lemma client_fold now tasks s :
  fold_left (ClientStats.countTask now) tasks s =
  mkStats (total s)
    (completed s + count_if isCompleted tasks)
    (pending s + count_if (fun t => negb (isCompleted t)
                              && negb (str_is TaskStatus.IN_PROGRESS (status t))) tasks)
    (inProgress s + count_if (fun t => negb (isCompleted t)
                                 && str_is TaskStatus.IN_PROGRESS (status t)) tasks)
    (highPriority s + count_if (fun t => str_is TaskPriority.HIGH (priority t)) tasks)
    (overdue s + count_if (fun t => negb (isCompleted t) && (dueDate t <? now)) tasks).
Proof.
  revert s. induction tasks as [|t tasks IH]; intros s.
  - destruct s. unfold count_if. simpl. f_equal; lia.
  - cbn [fold_left]. rewrite IH, !count_if_cons.
    unfold ClientStats.countTask, isCompleted.
    destruct (str_is TaskStatus.COMPLETED (status t)),
             (str_is TaskStatus.IN_PROGRESS (status t)),
             (str_is TaskPriority.HIGH (priority t)),
             (dueDate t <? now); cbn; f_equal; lia.
Qed.

Lemma sync_countTask now s t :
  SyncStats.countTask now s t = ClientStats.countTask now s t.
Proof.
  unfold SyncStats.countTask, ClientStats.countTask.
  change TaskStatus.COMPLETED with "completed".
  change TaskStatus.IN_PROGRESS with "in_progress".
  change TaskPriority.HIGH with "high".
  by rewrite (andb_comm (dueDate t <? now)).
Qed.

Lemma sum_cond_count c docs : ServerStats.sum_cond c docs = count_if c docs.
Proof.
  unfold ServerStats.sum_cond.
  assert (forall acc, fold_left (fun acc t => acc + (if c t then 1 else 0)) docs acc
                      = acc + count_if c docs) as H; [|by rewrite H].
  induction docs as [|t docs IH]; intros acc.
  - unfold count_if. simpl. lia.
  - cbn [fold_left]. rewrite IH, count_if_cons. lia.
Qed.

Lemma count_if_ext c1 c2 l :
  Forall (fun t => c1 t = c2 t) l -> count_if c1 l = count_if c2 l.
Proof.
  induction 1 as [|t l Ht Hl IH]; [done|]. by rewrite !count_if_cons, Ht, IH.
Qed.

Lemma count_if_true l : count_if (fun _ => true) l = Z.of_nat (length l).
Proof. induction l as [|t l IH]; [done|]. rewrite count_if_cons, IH. cbn [length]. lia. Qed.

Lemma calculateStats_total now tasks :
  total (ClientStats.calculateStats now tasks) = Z.of_nat (length tasks).
Proof. unfold ClientStats.calculateStats. by rewrite client_fold. Qed.
End StatsFacts.

(** X14: The store's [calculateStats] and the sync manager's copy compute the
    same counters on every list, and the counters partition the list:
    completed, in progress and pending add up to the total, which is the
    length of the list, every task that is neither completed nor in progress
    counting as pending; overdue tasks are among the non-completed ones. *)
Theorem calculateStats_partition (now : Z) (tasks : list Task) :
  let stats := ClientStats.calculateStats now tasks in
  SyncStats.calculateStatsFromTasks now tasks = stats
  /\ Stats.total stats = Z.of_nat (length tasks)
  /\ Stats.completed stats + Stats.inProgress stats + Stats.pending stats
     = Stats.total stats
  /\ 0 <= Stats.overdue stats <= Stats.inProgress stats + Stats.pending stats
  /\ 0 <= Stats.highPriority stats <= Stats.total stats.
Proof.
  cbv zeta. split.
  { unfold SyncStats.calculateStatsFromTasks, ClientStats.calculateStats.
    generalize (Stats.mkStats (Z.of_nat (length tasks)) 0 0 0 0 0).
    induction tasks as [|t tasks IH]; intros s; [done|].
    cbn [fold_left]. by rewrite StatsFacts.sync_countTask, IH. }
  rewrite StatsFacts.calculateStats_total. split; [done|].
  unfold ClientStats.calculateStats. rewrite StatsFacts.client_fold.
  cbn [Stats.total Stats.completed Stats.inProgress Stats.pending
       Stats.overdue Stats.highPriority].
  pose proof (StatsFacts.count_if_bounds
                (fun t => str_is TaskPriority.HIGH (priority t)) tasks).
  induction tasks as [|t tasks IH]; [unfold Counting.count_if; simpl; lia|].
  rewrite !StatsFacts.count_if_cons in *. cbn [length] in *.
  pose proof (StatsFacts.count_if_bounds
                (fun t => str_is TaskPriority.HIGH (priority t)) tasks).
  destruct (isCompleted t), (str_is TaskStatus.IN_PROGRESS (status t)),
           (str_is TaskPriority.HIGH (priority t)), (dueDate t <? now);
    cbn [negb andb] in *; lia.
Qed.

(** X15: The server's statistics of a user agree with the client's counters on
    the user's tasks, except that the server counts as pending only the tasks
    whose status is pending: its pending count is never larger, and is equal
    when every status is a member of the enum. *)
Theorem getTaskStats_agrees_with_client (now : Z) (uid : string)
        (collection : list Task) :
  let server := ServerStats.getTaskStats now uid collection in
  let client := ClientStats.calculateStats now (Counting.owned_by uid collection) in
  Stats.total server = Stats.total client
  /\ Stats.completed server = Stats.completed client
  /\ Stats.inProgress server = Stats.inProgress client
  /\ Stats.highPriority server = Stats.highPriority client
  /\ Stats.overdue server = Stats.overdue client
  /\ Stats.pending server <= Stats.pending client
  /\ (forallb Counting.status_known (Counting.owned_by uid collection) = true ->
      server = client).
Proof.
  cbv zeta. unfold ServerStats.getTaskStats, ClientStats.calculateStats.
  fold (Counting.owned_by uid collection).
  generalize (Counting.owned_by uid collection). intros docs.
  rewrite StatsFacts.client_fold.
  assert (forall t : Task,
            negb (isCompleted t) && str_is TaskStatus.IN_PROGRESS (status t)
            = str_is TaskStatus.IN_PROGRESS (status t)) as Hin.
  { intros t. unfold isCompleted. destruct (status t) as [s|]; [|done].
    cbn [str_is].
    destruct (String.eqb s TaskStatus.COMPLETED) eqn:E; [|done].
    apply String.eqb_eq in E. by subst s. }
  assert (forall t : Task,
            str_is TaskStatus.PENDING (status t) = true ->
            negb (isCompleted t) && negb (str_is TaskStatus.IN_PROGRESS (status t))
            = true) as Hpe.
  { intros t. unfold isCompleted. destruct (status t) as [s|]; [|done].
    cbn [str_is]. intros E. apply String.eqb_eq in E. by subst s. }
  assert (Stats.mkStats (Counting.count_if (fun _ => true) docs)
            (Counting.count_if (fun t => str_is TaskStatus.COMPLETED (status t)) docs)
            (Counting.count_if (fun t => str_is TaskStatus.PENDING (status t)) docs)
            (Counting.count_if (fun t => str_is TaskStatus.IN_PROGRESS (status t)) docs)
            (Counting.count_if (fun t => str_is TaskPriority.HIGH (priority t)) docs)
            (Counting.count_if
               (fun t => (dueDate t <? now)
                         && negb (str_is TaskStatus.COMPLETED (status t))) docs)
          = match docs with
            | [] => Stats.mkStats 0 0 0 0 0 0
            | _ =>
                Stats.mkStats (ServerStats.sum_cond (fun _ => true) docs)
                  (ServerStats.sum_cond (fun t => str_is TaskStatus.COMPLETED (status t)) docs)
                  (ServerStats.sum_cond (fun t => str_is TaskStatus.PENDING (status t)) docs)
                  (ServerStats.sum_cond (fun t => str_is TaskStatus.IN_PROGRESS (status t)) docs)
                  (ServerStats.sum_cond (fun t => str_is TaskPriority.HIGH (priority t)) docs)
                  (ServerStats.sum_cond
                     (fun t => (dueDate t <? now)
                               && negb (str_is TaskStatus.COMPLETED (status t))) docs)
            end) as <-.
  { destruct docs; [done|]. by rewrite !StatsFacts.sum_cond_count. }
  cbn [Stats.total Stats.completed Stats.inProgress Stats.pending
       Stats.overdue Stats.highPriority].
  rewrite StatsFacts.count_if_true.
  rewrite (StatsFacts.count_if_ext
             (fun t => negb (isCompleted t) && str_is TaskStatus.IN_PROGRESS (status t))
             (fun t => str_is TaskStatus.IN_PROGRESS (status t)))
    by (apply Forall_forall; intros; apply Hin).
  rewrite (StatsFacts.count_if_ext
             (fun t => (dueDate t <? now)
                       && negb (str_is TaskStatus.COMPLETED (status t)))
             (fun t => negb (isCompleted t) && (dueDate t <? now)))
    by (apply Forall_forall; intros; apply andb_comm).
  repeat (split; [reflexivity || lia|]).
  split.
  - induction docs as [|t docs IH]; [unfold Counting.count_if; simpl; lia|].
    rewrite !StatsFacts.count_if_cons.
    destruct (str_is TaskStatus.PENDING (status t)) eqn:Hp.
    + rewrite (Hpe t Hp). lia.
    + destruct (negb (isCompleted t) && negb (str_is TaskStatus.IN_PROGRESS (status t)));
        lia.
  - intros Hknown. f_equal; try lia. 
    apply StatsFacts.count_if_ext. rewrite forallb_forall in Hknown.
    apply Forall_forall. intros t Ht. apply list_elem_of_In, Hknown in Ht.
    unfold Counting.status_known, isCompleted in *.
    destruct (status t) as [s|]; [|done]. cbn [str_is] in *.
    destruct (String.eqb s TaskStatus.PENDING) eqn:E1;
      [apply String.eqb_eq in E1; by subst s|].
    destruct (String.eqb s TaskStatus.IN_PROGRESS) eqn:E2;
      [apply String.eqb_eq in E2; by subst s|].
    destruct (String.eqb s TaskStatus.COMPLETED) eqn:E3;
      [apply String.eqb_eq in E3; by subst s|done].
Qed.

Lemma getTaskStats_agrees_with_client_witness :
  ServerStats.getTaskStats Fixtures.now0 "u1"
    [Fixtures.late; Fixtures.soon; Fixtures.finished]
  = ClientStats.calculateStats Fixtures.now0
      (Counting.owned_by "u1" [Fixtures.late; Fixtures.soon; Fixtures.finished]).
Proof.
  destruct (getTaskStats_agrees_with_client Fixtures.now0 "u1"
              [Fixtures.late; Fixtures.soon; Fixtures.finished])
    as (_ & _ & _ & _ & _ & _ & H).
  exact (H eq_refl).
Defined.

(** * Further properties of the task controller *)
Module ControllerFacts.
Import Server Controller.


Lemma findOneAndDelete_spec id uid db :
  match findOneAndDelete id uid db with
  | (Some t, db') =>
      exists l1 l2,
        db = l1 ++ t :: l2 /\ db' = l1 ++ l2
        /\ matchDoc id uid t = true
        /\ Forall (fun x => matchDoc id uid x = false) l1
  | (None, db') => db' = db /\ Forall (fun x => matchDoc id uid x = false) db
  end.
Proof.
  induction db as [|t db IH]; [by split|].
  cbn [findOneAndDelete].
  destruct (matchDoc id uid t) eqn:Hm.
  - by exists [], db.
  - destruct (findOneAndDelete id uid db) as [[t'|] db''].
    + destruct IH as (l1 & l2 & -> & -> & Ht0 & Hl1).
      exists (t :: l1), l2. repeat split; try done. by constructor.
    + destruct IH as [-> Hall]. split; [done|]. by constructor.
Qed.

Lemma findOne_skip id uid l1 l2 :
  Forall (fun x => matchDoc id uid x = false) l1 ->
  findOne id uid (l1 ++ l2) = findOne id uid l2.
Proof.
  unfold findOne. induction 1 as [|x l1 Hx Hl1 IH]; [done|].
  cbn [app find]. by rewrite Hx.
Qed.

Lemma findOne_none id uid db :
  Forall (fun x => matchDoc id uid x = false) db -> findOne id uid db = None.
Proof.
  intros H. rewrite <- (app_nil_r db). by rewrite findOne_skip.
Qed.

Lemma findOneAndDelete_skip id uid l1 l2 :
  Forall (fun x => matchDoc id uid x = false) l1 ->
  findOneAndDelete id uid (l1 ++ l2)
  = ((findOneAndDelete id uid l2).1, l1 ++ (findOneAndDelete id uid l2).2).
Proof.
  induction 1 as [|x l1 Hx Hl1 IH];
    [by cbn [app]; destruct (findOneAndDelete id uid l2)|].
  cbn [app findOneAndDelete]. by rewrite Hx, IH.
Qed.

Lemma matchDoc_true id uid t :
  matchDoc id uid t = true <-> _id t = id /\ userId t = uid.
Proof.
  unfold matchDoc. by rewrite andb_true_iff, !String.eqb_eq.
Qed.

Lemma matchDoc_other_id id uid t : _id t <> id -> matchDoc id uid t = false.
Proof.
  intros H. unfold matchDoc. apply String.eqb_neq in H. by rewrite H.
Qed.

Lemma matchDoc_other_user id uid t : userId t <> uid -> matchDoc id uid t = false.
Proof.
  intros H. unfold matchDoc. apply String.eqb_neq in H. rewrite H.
  by rewrite andb_false_r.
Qed.

Lemma preSave_pending now t :
  isCompleted t = false -> completedAt t = None -> preSave now true t = t.
Proof.
  intros Hc Hn. unfold preSave. rewrite Hc. simpl.
  destruct t. simpl in *. by subst.
Qed.

(** [trim] on strings with white space around and inside them: blanks, a
    tab and a line feed, a no-break space (U+00A0), an ideographic space
    (U+3000). *)
Lemma trim_examples :
  Trim.trim "  Buy milk " = "Buy milk"
  /\ Trim.trim "Buy milk" = "Buy milk"
  /\ Trim.trim "   " = ""
  /\ Trim.trim (String (Ascii.ascii_of_nat 9)
                  ("a b" +:+ String (Ascii.ascii_of_nat 10) "")) = "a b"
  /\ Trim.trim (String (Ascii.ascii_of_nat 194) (String (Ascii.ascii_of_nat 160)
                  ("x" +:+ String (Ascii.ascii_of_nat 227)
                     (String (Ascii.ascii_of_nat 128)
                        (String (Ascii.ascii_of_nat 128) ""))))) = "x".
Proof. repeat apply conj; vm_compute; reflexivity. Qed.

Section Requests.
Variable validate : Task -> bool.
Variable newObjectId : list Task -> string.
Variable toObjectId : string -> option string.

(** What [createTask] has done when it answers with a task. *)
Lemma createTask_stored now user body db t db' :
  createTask validate newObjectId toObjectId now user body db = (Some t, db') ->
  db' = db ++ [t]
  /\ _id t = newObjectId db
  /\ exists s, user = Some s /\ s <> "" /\ toObjectId s = Some (userId t).
Proof.
  unfold createTask, saveNew, newTask. intros H.
  destruct (given (b_title body)) as [ti|]; [|done].
  destruct (given (b_description body)) as [de|]; [|done].
  destruct (given (b_priority body)) as [pr|]; [|done].
  destruct (b_dueDate body) as [du|]; [|done].
  destruct user as [s|]; [|done].
  destruct (String.eqb_spec s "") as [|Hs]; [done|].
  destruct (toObjectId s) as [o|] eqn:Ho; [|done].
  rewrite preSave_pending in H by done.
  destruct (validate _); [|done].
  injection H as <- <-. split; [done|]. split; [done|]. by exists s.
Qed.

End Requests.

(** A body that names [userId] hands the task to that user: the owner can
    no longer read it, the other user can. *)
Lemma updateTask_can_change_owner :
  let u := mkUpdateDoc None None None None None None None (Some "u2") None in
  let r := updateTask Some (fun _ => true) Fixtures.now0 "u1" "a" u [Fixtures.late] in
  (userId <$> r.1) = Some "u2"
  /\ (userId <$> r.2) = ["u2"]
  /\ getTaskById "u1" "a" r.2 = None
  /\ getTaskById "u2" "a" r.2 = r.1.
Proof. repeat apply conj; vm_compute; reflexivity. Qed.
End ControllerFacts.

(** X16: The smart-sorted list of a user holds exactly the tasks of the
    collection that belong to the user and pass the filters, each as often as
    the collection does: no task of another user, and none missing. *)
Theorem getSmartSortedTasks_exactly_own_matching (now : Z) (uid : string)
        (filters : Task -> bool) (collection : list Task) :
  Server.getSmartSortedTasks now uid filters collection
    ≡ₚ List.filter (fun t => String.eqb (userId t) uid && filters t) collection
  /\ forall t, t ∈ Server.getSmartSortedTasks now uid filters collection
               <-> t ∈ collection /\ userId t = uid /\ filters t = true.
Proof.
  assert (Server.getSmartSortedTasks now uid filters collection
            ≡ₚ List.filter (fun t => String.eqb (userId t) uid && filters t) collection)
    as Hperm by apply array_sort_perm.
  split; [done|]. intros t. rewrite Hperm, list_elem_of_In, filter_In.
  by rewrite andb_true_iff, String.eqb_eq, <- list_elem_of_In.
Qed.

(** X17: [createTask] either stores nothing or appends exactly one task.  It
    stores nothing when a required field is missing or empty, when the
    request comes without a user id, when the user id does not denote an
    object id, or when the task built from the body fails validation.  A
    stored task belongs to the user whose object id the request carries,
    holds the title, the description and the category of the body with the
    white space around them trimmed, the priority and the due date of the
    body, is pending with no completion time, and has passed validation. *)
Theorem createTask_stores_one_or_nothing (validate : Task -> bool)
        (newObjectId : list Task -> string)
        (toObjectId : string -> option string) (now : Z)
        (user : option string) (body : Server.CreateBody) (db : list Task) :
  match Server.createTask validate newObjectId toObjectId now user body db with
  | (None, db') =>
      db' = db
      /\ (Server.b_title body = None \/ Server.b_title body = Some ""
          \/ Server.b_description body = None
          \/ Server.b_description body = Some ""
          \/ Server.b_priority body = None \/ Server.b_priority body = Some ""
          \/ Server.b_dueDate body = None
          \/ user = None \/ user = Some ""
          \/ (exists s, user = Some s /\ toObjectId s = None)
          \/ (exists ti de pr du s o,
                Server.b_title body = Some ti
                /\ Server.b_description body = Some de
                /\ Server.b_priority body = Some pr
                /\ Server.b_dueDate body = Some du
                /\ user = Some s /\ toObjectId s = Some o
                /\ validate (Server.newTask now (newObjectId db) ti de pr du
                               (Server.b_category body) o) = false))
  | (Some t, db') =>
      db' = db ++ [t]
      /\ (exists s, user = Some s /\ s <> "" /\ toObjectId s = Some (userId t))
      /\ (exists ti, Server.b_title body = Some ti /\ ti <> ""
                     /\ title t = Trim.trim ti)
      /\ (exists de, Server.b_description body = Some de /\ de <> ""
                     /\ description t = Trim.trim de)
      /\ Server.b_priority body = priority t
      /\ priority t <> Some ""
      /\ Server.b_dueDate body = Some (dueDate t)
      /\ category t
         = Some (from_option Trim.trim "General" (Server.b_category body))
      /\ status t = Some TaskStatus.PENDING
      /\ completedAt t = None
      /\ createdAt t = now /\ updatedAt t = now
      /\ _id t = newObjectId db
      /\ validate t = true
  end.
Proof.
  unfold Server.createTask, Server.saveNew.
  destruct (Server.b_title body) as [[|c1 ti]|]; cbn [Server.given];
    [by split; [|right; left] | | by split; [|left]].
  destruct (Server.b_description body) as [[|c2 de]|]; cbn [Server.given];
    [by split; [|do 3 right; left] | | by split; [|do 2 right; left]].
  destruct (Server.b_priority body) as [[|c3 pr]|]; cbn [Server.given];
    [by split; [|do 5 right; left] | | by split; [|do 4 right; left]].
  destruct (Server.b_dueDate body) as [du|]; [|by split; [|do 6 right; left]].
  destruct user as [s|]; [|by split; [|do 7 right; left]].
  destruct (String.eqb_spec s "") as [->|Hs]; [by split; [|do 8 right; left]|].
  destruct (toObjectId s) as [o|] eqn:Ho;
    [|split; [done|]; do 9 right; left; by exists s].
  unfold Server.newTask at 2.
  rewrite ControllerFacts.preSave_pending by done.
  destruct (validate _) eqn:Hv.
  - unfold Server.newTask in *.
    cbn [title description priority dueDate category status completedAt
         createdAt updatedAt _id userId].
    repeat split; try done; eauto.
  - split; [done|]. do 10 right.
    exists (String c1 ti), (String c2 de), (String c3 pr), du, s, o. done.
Qed.

(** X18: A task just created can be read back by its owner and by no other user,
    and deleting it restores the collection, provided the store assigned an
    id that no stored task has. *)
Theorem create_read_delete_roundtrip (validate : Task -> bool)
        (newObjectId : list Task -> string)
        (toObjectId : string -> option string) (now : Z) (user : string)
        (body : Server.CreateBody) (db db' : list Task) (t : Task) :
  Server.createTask validate newObjectId toObjectId now (Some user) body db
  = (Some t, db') ->
  Forall (fun x => _id x <> newObjectId db) db ->
  toObjectId user = Some (userId t)
  /\ Controller.getTaskById (userId t) (_id t) db' = Some t
  /\ (forall other, other <> userId t ->
        Controller.getTaskById other (_id t) db' = None)
  /\ Controller.deleteTask (userId t) (_id t) db' = (Some t, db).
Proof.
  intros Hc Hfresh.
  apply ControllerFacts.createTask_stored in Hc
    as (-> & Hid & s & Hu & _ & Ho).
  injection Hu as <-. split; [done|].
  set (uid := userId t).
  assert (Forall (fun x => Controller.matchDoc (_id t) uid x = false) db) as Hno.
  { eapply Forall_impl; [exact Hfresh|]. intros x Hx.
    apply ControllerFacts.matchDoc_other_id. by rewrite Hid. }
  assert (Controller.matchDoc (_id t) uid t = true) as Hm.
  { by apply ControllerFacts.matchDoc_true. }
  unfold Controller.getTaskById, Controller.deleteTask.
  split; [|split].
  - rewrite ControllerFacts.findOne_skip by done.
    unfold Controller.findOne. simpl. by rewrite Hm.
  - intros other Hother. apply ControllerFacts.findOne_none.
    apply Forall_app. split.
    + eapply Forall_impl; [exact Hfresh|]. intros x Hx.
      apply ControllerFacts.matchDoc_other_id. by rewrite Hid.
    + repeat constructor. apply ControllerFacts.matchDoc_other_user.
      unfold uid in Hother. congruence.
  - rewrite ControllerFacts.findOneAndDelete_skip by done.
    simpl. rewrite Hm. simpl. by rewrite app_nil_r.
Qed.

Lemma create_read_delete_roundtrip_witness :
  let r := Server.createTask (fun _ => true) (fun _ => "64f0c0ffee") Some
             Fixtures.now0 (Some "u1") Fixtures.body0
             [Fixtures.late; Fixtures.finished] in
  Controller.getTaskById "u1" "64f0c0ffee" r.2 = r.1
  /\ (forall other, other <> "u1" ->
        Controller.getTaskById other "64f0c0ffee" r.2 = None)
  /\ Controller.deleteTask "u1" "64f0c0ffee" r.2
     = (r.1, [Fixtures.late; Fixtures.finished]).
Proof.
  apply (create_read_delete_roundtrip (fun _ => true) (fun _ => "64f0c0ffee")
           Some Fixtures.now0 "u1" Fixtures.body0
           [Fixtures.late; Fixtures.finished] _ _ eq_refl).
  repeat constructor; vm_compute; discriminate.
Defined.


(** X20: [deleteTask] removes the first task with the requested id that belongs to
    the requesting user, and nothing else; when there is none it answers
    404 and leaves the collection as it was.  If the owner's task ids are
    distinct, the deleted task cannot be read afterwards. *)
Theorem deleteTask_removes_the_matched_task (uid id : string) (db : list Task) :
  match Controller.deleteTask uid id db with
  | (Some t, db') =>
      exists l1 l2,
        db = l1 ++ t :: l2 /\ db' = l1 ++ l2
        /\ _id t = id /\ userId t = uid
        /\ Forall (fun x => _id x <> id \/ userId x <> uid) l1
        /\ (NoDup (_id <$> db) -> Controller.getTaskById uid id db' = None)
  | (None, db') =>
      db' = db /\ Controller.getTaskById uid id db = None
  end.
Proof.
  unfold Controller.deleteTask, Controller.getTaskById.
  pose proof (ControllerFacts.findOneAndDelete_spec id uid db) as H.
  destruct (Controller.findOneAndDelete id uid db) as [[t|] db'].
  - destruct H as (l1 & l2 & -> & -> & Hm & Hl1).
    apply ControllerFacts.matchDoc_true in Hm as [Hid Hu].
    exists l1, l2. repeat split; try done.
    + eapply Forall_impl; [exact Hl1|]. intros x Hx.
      destruct (decide (_id x = id)) as [Hx1|]; [|by left].
      right. intros Hx2.
      assert (Controller.matchDoc id uid x = true) as Hx'
        by by apply ControllerFacts.matchDoc_true.
      congruence.
    + intros Hnd. apply ControllerFacts.findOne_none.
      apply Forall_app. split; [done|].
      rewrite fmap_app, fmap_cons in Hnd.
      apply NoDup_app in Hnd as (_ & _ & Hnd).
      apply NoDup_cons in Hnd as [Hnotin _].
      apply Forall_forall. intros x Hx.
      apply ControllerFacts.matchDoc_other_id. intros Hx'.
      apply Hnotin. rewrite Hid, <- Hx'. apply list_elem_of_fmap. by exists x.
  - destruct H as [-> Hall]. split; [done|].
    by apply ControllerFacts.findOne_none.
Qed.



(** X22: For a positive page number and a positive limit, the pagination object
    is consistent: [totalPages] is the least number of pages of [limit] tasks
    that hold [totalTasks] tasks, there is a next page exactly when the
    current page is before the last one, and a previous page exactly when
    the current page is not the first. *)
Theorem getTasks_pagination_consistent
        (findSorted : string -> Z -> Z -> list Task -> list Task)
        (now : Z) (uid : string) (q : Controller.TasksQuery) (db : list Task) :
  1 <= default 1 (Controller.q_page q) ->
  1 <= default 20 (Controller.q_limit q) ->
  let p := (Controller.getTasks findSorted now uid q db).2 in
  let limit := default 20 (Controller.q_limit q) in
  exists n,
    Controller.totalPages p = Some n
    /\ 0 <= n
    /\ limit * (n - 1) < Controller.totalTasks p <= limit * n
    /\ (Controller.hasNext p = true <-> Controller.currentPage p < n)
    /\ (Controller.hasPrev p = true <-> 1 < Controller.currentPage p).
Proof.
  intros Hp Hl. cbv zeta. unfold Controller.getTasks.
  cbn [snd Controller.totalPages Controller.totalTasks Controller.hasNext
       Controller.hasPrev Controller.currentPage].
  set (page := default 1 (Controller.q_page q)) in *.
  set (limit := default 20 (Controller.q_limit q)) in *.
  set (total := Z.of_nat (length _)).
  assert (0 <= total) as Ht by (unfold total; lia).
  rewrite (proj2 (Z.eqb_neq limit 0)) by lia.
  exists (Client.ceil_div total limit). split; [done|].
  unfold Client.ceil_div.
  pose proof (Z.div_mod (- total) limit ltac:(lia)) as Hdm.
  pose proof (Z.mod_pos_bound (- total) limit ltac:(lia)) as Hmod.
  rewrite Z.ltb_lt. repeat split; try nia.
Qed.

Lemma getTasks_pagination_consistent_witness :
  exists n,
    Controller.totalPages
      (Controller.getTasks (fun _ _ _ l => l) Fixtures.now0 "u1"
         (Controller.mkQuery None None None (Some "created") (Some 2) (Some 2))
         [Fixtures.late; Fixtures.soon; Fixtures.finished]).2 = Some n
    /\ 0 <= n
    /\ 2 * (n - 1)
       < Controller.totalTasks
           (Controller.getTasks (fun _ _ _ l => l) Fixtures.now0 "u1"
              (Controller.mkQuery None None None (Some "created") (Some 2) (Some 2))
              [Fixtures.late; Fixtures.soon; Fixtures.finished]).2
       <= 2 * n
    /\ (Controller.hasNext
          (Controller.getTasks (fun _ _ _ l => l) Fixtures.now0 "u1"
             (Controller.mkQuery None None None (Some "created") (Some 2) (Some 2))
             [Fixtures.late; Fixtures.soon; Fixtures.finished]).2 = true
        <-> Controller.currentPage
              (Controller.getTasks (fun _ _ _ l => l) Fixtures.now0 "u1"
                 (Controller.mkQuery None None None (Some "created") (Some 2) (Some 2))
                 [Fixtures.late; Fixtures.soon; Fixtures.finished]).2 < n)
    /\ (Controller.hasPrev
          (Controller.getTasks (fun _ _ _ l => l) Fixtures.now0 "u1"
             (Controller.mkQuery None None None (Some "created") (Some 2) (Some 2))
             [Fixtures.late; Fixtures.soon; Fixtures.finished]).2 = true
        <-> 1 < Controller.currentPage
                  (Controller.getTasks (fun _ _ _ l => l) Fixtures.now0 "u1"
                     (Controller.mkQuery None None None (Some "created") (Some 2) (Some 2))
                     [Fixtures.late; Fixtures.soon; Fixtures.finished]).2).
Proof.
  apply (getTasks_pagination_consistent (fun _ _ _ l => l) Fixtures.now0 "u1"
           (Controller.mkQuery None None None (Some "created") (Some 2) (Some 2))
           [Fixtures.late; Fixtures.soon; Fixtures.finished]); simpl; lia.
Defined.

(** * The background sync manager *)
Module ManagerFacts.
Import OfflineQueue SyncManager Managed.

Section Manager.
Context {RemoteState : Type}.
Variable api : TaskAPI RemoteState.
Implicit Types st : State (RemoteState:=RemoteState).

(** The [catch] of [performSync] is never entered. *)
Lemma performSync_online st :
  isOnline st = true ->
  performSync api st
  = mkState (syncInterval st) true (intervals st) (nextHandle st)
            (processOfflineQueue api (device st)).2.
Proof.
  intros Hon. unfold performSync, try_catch. rewrite Hon. cbn [negb].
  pose proof (QueueMore.processOfflineQueue_returns api (device st)) as Hret.
  destruct (processOfflineQueue api (device st)) as [[[]|e] w']; [done|].
  discriminate.
Qed.

Lemma performSync_offline st : isOnline st = false -> performSync api st = st.
Proof. intros Hoff. unfold performSync. by rewrite Hoff. Qed.

Lemma performSync_manager st :
  syncInterval (performSync api st) = syncInterval st
  /\ isOnline (performSync api st) = isOnline st
  /\ intervals (performSync api st) = intervals st
  /\ nextHandle (performSync api st) = nextHandle st.
Proof.
  unfold performSync. destruct (isOnline st) eqn:E; cbn; rewrite ?E; by repeat split.
Qed.

Lemma tidy_performSync st : tidy st -> tidy (performSync api st).
Proof.
  unfold tidy. destruct (performSync_manager st) as (-> & -> & -> & ->). done.
Qed.

Lemma tidy_start st :
  tidy st -> isOnline st = true -> tidy (startPeriodicSync st).
Proof.
  intros (Hi & Hoff & Hlt) Hon. unfold startPeriodicSync.
  case_bool_decide as Hs; [done|].
  assert (syncInterval st = None) as Hn.
  { destruct (syncInterval st); [by destruct Hs|done]. }
  rewrite Hn in Hi. simpl in Hi.
  unfold tidy. cbn [syncInterval isOnline intervals nextHandle from_option].
  rewrite Hi. split; [done|]. split; [by rewrite Hon|].
  repeat constructor.
Qed.

Lemma tidy_stop st : tidy st -> tidy (stopPeriodicSync st).
Proof.
  intros (Hi & Hoff & Hlt). unfold stopPeriodicSync.
  destruct (syncInterval st) as [h|] eqn:Hs; [|by unfold tidy; rewrite Hs].
  simpl in Hi. unfold tidy.
  cbn [syncInterval isOnline intervals nextHandle from_option].
  rewrite Hi. cbn [List.filter]. rewrite Nat.eqb_refl. cbn [negb].
  by repeat split.
Qed.

Lemma stop_clears st :
  tidy st -> intervals (stopPeriodicSync st) = []
             /\ syncInterval (stopPeriodicSync st) = None.
Proof.
  intros (Hi & Hoff & Hlt). unfold stopPeriodicSync.
  destruct (syncInterval st) as [h|] eqn:Hs; [|by rewrite Hi, Hs].
  simpl in *. rewrite Hi. cbn [List.filter]. by rewrite Nat.eqb_refl.
Qed.

Lemma tidy_step st e : tidy st -> tidy (step api st e).
Proof.
  intros Ht. destruct e as [c|h| |]; cbn [step].
  - unfold netInfoListener. cbv zeta. cbn [isOnline].
    destruct (default false c) eqn:Hc.
    + assert (tidy (mkState (syncInterval st) true (intervals st)
                            (nextHandle st) (device st))) as Ht1.
      { destruct Ht as (Hi & Hoff & Hlt). by repeat split. }
      destruct (true && negb (isOnline st)).
      * pose proof (performSync_manager
                      (mkState (syncInterval st) true (intervals st)
                               (nextHandle st) (device st))) as (_ & Hon & _).
        rewrite Hon. cbn [isOnline].
        apply tidy_start; [by apply tidy_performSync|].
        by rewrite Hon.
      * cbn [isOnline]. by apply tidy_start.
    + cbn [andb isOnline].
      assert (intervals st = from_option (fun h => [h]) [] (syncInterval st)) as Hi
        by apply Ht.
      unfold stopPeriodicSync. cbn [syncInterval isOnline intervals nextHandle device].
      destruct (syncInterval st) as [h|] eqn:Hs.
      * unfold tidy. cbn [syncInterval isOnline intervals nextHandle from_option].
        simpl in Hi. rewrite Hi. cbn [List.filter]. rewrite Nat.eqb_refl.
        by repeat split.
      * unfold tidy. cbn [syncInterval isOnline intervals nextHandle from_option].
        simpl in Hi. rewrite Hi. by repeat split.
  - destruct (existsb _ _); [|done]. unfold intervalCallback.
    destruct (isOnline st); [by apply tidy_performSync|done].
  - unfold forceSyncNow. destruct (isOnline st); [by apply tidy_performSync|done].
  - by apply tidy_stop.
Qed.

Lemma tidy_loaded (w : World RemoteState) : tidy (loaded w).
Proof. by repeat split. Qed.

Lemma tidy_run events st : tidy st -> tidy (run api events st).
Proof.
  revert st. induction events as [|e events IH]; intros st Ht; [done|].
  cbn [run fold_left]. apply IH. by apply tidy_step.
Qed.

(** While offline, only a report of connectivity changes anything else than
    the interval. *)
Lemma step_offline st e :
  isOnline st = false -> connected e = false ->
  isOnline (step api st e) = false /\ device (step api st e) = device st.
Proof.
  intros Hoff He. destruct e as [c|h| |]; cbn [step].
  - unfold netInfoListener. cbv zeta. cbn [isOnline].
    assert (default false c = false) as -> by by destruct c as [[]|].
    cbn [andb isOnline]. unfold stopPeriodicSync. cbn [syncInterval].
    by destruct (syncInterval st).
  - destruct (existsb _ _); [|done]. unfold intervalCallback. by rewrite Hoff.
  - unfold forceSyncNow. by rewrite Hoff.
  - unfold cleanupSyncManager, stopPeriodicSync. by destruct (syncInterval st).
Qed.
End Manager.
End ManagerFacts.

(** X23: Whatever happens after the module is loaded, the runtime runs at most
    one sync interval, the one the module remembers, and none while the
    module believes the device is offline. *)
Theorem sync_manager_runs_one_interval {RemoteState : Type}
        (api : OfflineQueue.TaskAPI RemoteState)
        (events : list SyncManager.Event) (w : OfflineQueue.World RemoteState) :
  let st := SyncManager.run api events (SyncManager.loaded w) in
  SyncManager.intervals st
  = match SyncManager.syncInterval st with Some h => [h] | None => [] end
  /\ (SyncManager.isOnline st = false -> SyncManager.intervals st = []).
Proof.
  cbv zeta.
  destruct (ManagerFacts.tidy_run api events _ (ManagerFacts.tidy_loaded w))
    as (Hi & Hoff & _).
  split.
  - rewrite Hi. by destruct (SyncManager.syncInterval _).
  - intros H. by rewrite Hi, (Hoff H).
Qed.

(** X24: Until NetInfo reports that the device is connected, no sync pass runs:
    interval ticks, forced syncs, cleanups and reports of no or unknown
    connectivity leave the device as it is. *)
Theorem no_sync_before_connectivity {RemoteState : Type}
        (api : OfflineQueue.TaskAPI RemoteState)
        (events : list SyncManager.Event) (w : OfflineQueue.World RemoteState) :
  forallb (fun e => negb (Managed.connected e)) events = true ->
  SyncManager.device (SyncManager.run api events (SyncManager.loaded w)) = w
  /\ SyncManager.isOnline (SyncManager.run api events (SyncManager.loaded w)) = false.
Proof.
  intros Hev.
  assert (forall st : SyncManager.State,
            SyncManager.isOnline st = false ->
            SyncManager.device (SyncManager.run api events st) = SyncManager.device st
            /\ SyncManager.isOnline (SyncManager.run api events st) = false) as H.
  { induction events as [|e events IH]; intros st Hoff; [done|].
    cbn [forallb] in Hev. apply andb_true_iff in Hev as [He Hev].
    apply negb_true_iff in He.
    destruct (ManagerFacts.step_offline api st e Hoff He) as [Hoff' Hdev].
    cbn [SyncManager.run fold_left].
    destruct (IH Hev _ Hoff') as [Hd Ho]. unfold SyncManager.run in Hd, Ho.
    by rewrite Hd, Ho, Hdev. }
  by apply (H (SyncManager.loaded w)).
Qed.

Lemma no_sync_before_connectivity_witness :
  SyncManager.device
    (SyncManager.run Scenario.service
       [SyncManager.ForceSyncNow; SyncManager.NetInfoReport None;
        SyncManager.IntervalFires 1; SyncManager.NetInfoReport (Some false);
        SyncManager.CleanupSyncManager]
       (SyncManager.loaded Scenario.loaded_device)) = Scenario.loaded_device
  /\ SyncManager.isOnline
       (SyncManager.run Scenario.service
          [SyncManager.ForceSyncNow; SyncManager.NetInfoReport None;
           SyncManager.IntervalFires 1; SyncManager.NetInfoReport (Some false);
           SyncManager.CleanupSyncManager]
          (SyncManager.loaded Scenario.loaded_device)) = false.
Proof.
  exact (no_sync_before_connectivity Scenario.service
           [SyncManager.ForceSyncNow; SyncManager.NetInfoReport None;
            SyncManager.IntervalFires 1; SyncManager.NetInfoReport (Some false);
            SyncManager.CleanupSyncManager]
           Scenario.loaded_device eq_refl).
Defined.

(** X25: When the module believes the device is offline and NetInfo reports it
    connected, exactly one drain pass runs at once and the periodic sync is
    started; a second report of connectivity changes nothing. *)
Theorem coming_online_runs_one_pass {RemoteState : Type}
        (api : OfflineQueue.TaskAPI RemoteState)
        (st : SyncManager.State (RemoteState:=RemoteState)) :
  SyncManager.isOnline st = false ->
  SyncManager.syncInterval st = None ->
  let st' := SyncManager.step api st (SyncManager.NetInfoReport (Some true)) in
  SyncManager.device st'
    = (OfflineQueue.processOfflineQueue api (SyncManager.device st)).2
  /\ SyncManager.isOnline st' = true
  /\ SyncManager.syncInterval st' = Some (SyncManager.nextHandle st)
  /\ SyncManager.intervals st' = SyncManager.intervals st ++ [SyncManager.nextHandle st]
  /\ SyncManager.step api st' (SyncManager.NetInfoReport (Some true)) = st'.
Proof.
  intros Hoff Hnone. cbv zeta.
  assert (SyncManager.step api st (SyncManager.NetInfoReport (Some true))
          = SyncManager.mkState (Some (SyncManager.nextHandle st)) true
              (SyncManager.intervals st ++ [SyncManager.nextHandle st])
              (S (SyncManager.nextHandle st))
              (OfflineQueue.processOfflineQueue api (SyncManager.device st)).2) as ->.
  { cbn [SyncManager.step]. unfold SyncManager.netInfoListener. cbv zeta.
    cbn [SyncManager.isOnline default from_option id]. rewrite Hoff. cbn [negb andb].
    rewrite ManagerFacts.performSync_online by done.
    cbn [SyncManager.isOnline SyncManager.syncInterval SyncManager.intervals
         SyncManager.nextHandle SyncManager.device].
    unfold SyncManager.startPeriodicSync.
    cbn [SyncManager.isOnline SyncManager.syncInterval SyncManager.intervals
         SyncManager.nextHandle SyncManager.device].
    rewrite Hnone. by rewrite bool_decide_eq_false_2 by (by intros [? ?]). }
  cbn [SyncManager.isOnline SyncManager.syncInterval SyncManager.intervals
       SyncManager.nextHandle SyncManager.device].
  repeat (split; [reflexivity|]).
  cbn [SyncManager.step]. unfold SyncManager.netInfoListener. cbv zeta.
  cbn [SyncManager.isOnline default from_option id negb andb].
  unfold SyncManager.startPeriodicSync.
  cbn [SyncManager.isOnline SyncManager.syncInterval SyncManager.intervals
       SyncManager.nextHandle SyncManager.device].
  by rewrite bool_decide_eq_true_2 by eauto.
Qed.

Lemma coming_online_runs_one_pass_witness :
  let st' := SyncManager.step Scenario.service
               (SyncManager.loaded Scenario.loaded_device)
               (SyncManager.NetInfoReport (Some true)) in
  SyncManager.device st'
    = (OfflineQueue.processOfflineQueue Scenario.service
         (SyncManager.device (SyncManager.loaded Scenario.loaded_device))).2
  /\ SyncManager.isOnline st' = true
  /\ SyncManager.syncInterval st'
     = Some (SyncManager.nextHandle (SyncManager.loaded Scenario.loaded_device))
  /\ SyncManager.intervals st'
     = SyncManager.intervals (SyncManager.loaded Scenario.loaded_device)
       ++ [SyncManager.nextHandle (SyncManager.loaded Scenario.loaded_device)]
  /\ SyncManager.step Scenario.service st' (SyncManager.NetInfoReport (Some true)) = st'.
Proof.
  exact (coming_online_runs_one_pass Scenario.service
           (SyncManager.loaded Scenario.loaded_device) eq_refl eq_refl).
Defined.

(** * The task slice *)
Module ThunkFacts.
Import OfflineQueue TaskThunks.

Section Thunks.
Context {RemoteState : Type}.
Variable api : TaskAPI RemoteState.
Variable message : ApiResponse -> option string.

(** The error the thunks throw themselves has no [response], so it always
    counts as a network error. *)
Lemma newError_isNetworkError r : isNetworkError (newError message r) = true.
Proof. unfold isNetworkError, newError. cbn. by rewrite !orb_true_r. Qed.

Lemma run_callAPI {A} req f (k : ApiResponse -> M A) (w : World RemoteState) :
  (callAPI req f ≫= k) w
  = k (f (remote w)).1
      (mkWorld (storage w) (faults w) (clock w) (ticks w) (console w)
               (f (remote w)).2 (requests w ++ [req])).
Proof.
  rewrite QueueFacts.run_bind. unfold callAPI. by destruct (f (remote w)).
Qed.
End Thunks.
End ThunkFacts.

(** The offline path of the [createTask] thunk. *)
Lemma createTask_offline_path {RemoteState : Type}
        (api : OfflineQueue.TaskAPI RemoteState)
        (message : OfflineQueue.ApiResponse -> option string)
        (taskData : OfflineQueue.TaskForm) (w : OfflineQueue.World RemoteState) :
  OfflineQueue.faults w = [] ->
  OfflineQueue.success
    (OfflineQueue.api_createTask api taskData (OfflineQueue.remote w)).1 = false ->
  exists task o w',
    TaskThunks.createTask api message taskData w
      = (OfflineQueue.Ok (TaskThunks.Fulfilled (TaskThunks.OfflineTask task)), w')
    /\ Drain.isTemporaryId (_id task) = true
    /\ OfflineQueue.operation o = OfflineQueue.CREATE taskData (Some (_id task))
    /\ OfflineQueue.offlineQueue (OfflineQueue.storage w')
       = Some (default [] (OfflineQueue.offlineQueue (OfflineQueue.storage w)) ++ [o])
    /\ OfflineQueue.requests w'
       = OfflineQueue.requests w ++ [OfflineQueue.ReqCreate taskData]
    /\ OfflineQueue.faults w' = [].
Proof.
  intros Hf Hfail. unfold TaskThunks.createTask.
  rewrite ThunkFacts.run_callAPI, Hfail. cbv zeta.
  rewrite ThunkFacts.newError_isNetworkError.
  unfold OfflineQueue.try_catch.
  set (w0 := OfflineQueue.mkWorld _ _ _ _ _ _ _).
  destruct (QueueMore.createTaskOffline_fault_free taskData w0 Hf)
    as (task & o & w' & Hrun & Hid & _ & _ & _ & _ & _ & _ & Ho & Hs & Hf' & _ & Hrq).
  rewrite QueueFacts.run_bind, Hrun. cbn [fst snd].
  exists task, o, w'. split; [reflexivity|].
  split; [rewrite Hid; by destruct (pretty _); vm_compute|].
  split; [done|]. rewrite Hs. by repeat split.
Qed.

(** X26: When the service answers a create request with [success = false], for
    whatever reason, the [createTask] thunk takes the offline path: it
    fulfils with a task that carries a temporary id, and the Create is
    queued for the next drain pass. *)
Theorem createTask_thunk_falls_back_on_any_failure {RemoteState : Type}
        (api : OfflineQueue.TaskAPI RemoteState)
        (message : OfflineQueue.ApiResponse -> option string)
        (taskData : OfflineQueue.TaskForm) (w : OfflineQueue.World RemoteState) :
  OfflineQueue.faults w = [] ->
  OfflineQueue.success
    (OfflineQueue.api_createTask api taskData (OfflineQueue.remote w)).1 = false ->
  exists task o w',
    TaskThunks.createTask api message taskData w
      = (OfflineQueue.Ok (TaskThunks.Fulfilled (TaskThunks.OfflineTask task)), w')
    /\ Drain.isTemporaryId (_id task) = true
    /\ OfflineQueue.operation o = OfflineQueue.CREATE taskData (Some (_id task))
    /\ OfflineQueue.offlineQueue (OfflineQueue.storage w')
       = Some (default [] (OfflineQueue.offlineQueue (OfflineQueue.storage w)) ++ [o])
    /\ OfflineQueue.requests w'
       = OfflineQueue.requests w ++ [OfflineQueue.ReqCreate taskData]
    /\ OfflineQueue.faults w' = [].
Proof. apply createTask_offline_path. Qed.

Lemma createTask_thunk_falls_back_on_any_failure_witness :
  exists task o w',
    TaskThunks.createTask Retry.rejecting Retry.validation_failed
      Scenario.milk Retry.fresh_device
      = (OfflineQueue.Ok (TaskThunks.Fulfilled (TaskThunks.OfflineTask task)), w')
    /\ Drain.isTemporaryId (_id task) = true
    /\ OfflineQueue.operation o = OfflineQueue.CREATE Scenario.milk (Some (_id task))
    /\ OfflineQueue.offlineQueue (OfflineQueue.storage w')
       = Some (default [] (OfflineQueue.offlineQueue
                             (OfflineQueue.storage Retry.fresh_device)) ++ [o])
    /\ OfflineQueue.requests w'
       = OfflineQueue.requests Retry.fresh_device
         ++ [OfflineQueue.ReqCreate Scenario.milk]
    /\ OfflineQueue.faults w' = [].
Proof.
  exact (createTask_thunk_falls_back_on_any_failure Retry.rejecting
           Retry.validation_failed Scenario.milk Retry.fresh_device
           eq_refl eq_refl).
Defined.

(** X27: The [updateTask] and [deleteTask] thunks take the offline path in the
    same way when the service answers [success = false]: the delete fulfils
    with the id and queues a Delete; the update fulfils with the merged
    cached task and queues an Update when the cache holds the id, and is
    rejected with the offline message, nothing being queued, when it does
    not. *)
Theorem update_delete_thunks_fall_back_on_any_failure {RemoteState : Type}
        (api : OfflineQueue.TaskAPI RemoteState)
        (message : OfflineQueue.ApiResponse -> option string)
        (id : string) (updates : OfflineQueue.TaskUpdates)
        (w : OfflineQueue.World RemoteState) :
  OfflineQueue.faults w = [] ->
  (OfflineQueue.success
     (OfflineQueue.api_deleteTask api id (OfflineQueue.remote w)).1 = false ->
   exists o w',
     TaskThunks.deleteTask api message id w
       = (OfflineQueue.Ok (TaskThunks.Fulfilled id), w')
     /\ OfflineQueue.operation o = OfflineQueue.DELETE id
     /\ OfflineQueue.offlineQueue (OfflineQueue.storage w')
        = Some (default [] (OfflineQueue.offlineQueue (OfflineQueue.storage w)) ++ [o])
     /\ OfflineQueue.requests w'
        = OfflineQueue.requests w ++ [OfflineQueue.ReqDelete id])
  /\ (OfflineQueue.success
        (OfflineQueue.api_updateTask api id updates (OfflineQueue.remote w)).1 = false ->
      (forall before old after,
         OfflineQueue.cachedTasks (OfflineQueue.storage w)
           = Some (before ++ old :: after) ->
         Forall (fun t => _id t <> id) before -> _id old = id ->
         exists new o w',
           TaskThunks.updateTask api message id updates w
             = (OfflineQueue.Ok (TaskThunks.Fulfilled (TaskThunks.OfflineTask new)), w')
           /\ _id new = id
           /\ OfflineQueue.operation o = OfflineQueue.UPDATE id updates
           /\ OfflineQueue.storage w' =
                OfflineQueue.mkStorage
                  (Some (default [] (OfflineQueue.offlineQueue (OfflineQueue.storage w))
                         ++ [o]))
                  (OfflineQueue.tempTasks (OfflineQueue.storage w))
                  (Some (before ++ new :: after)))
      /\ (Forall (fun t => _id t <> id)
                 (default [] (OfflineQueue.cachedTasks (OfflineQueue.storage w))) ->
          (TaskThunks.updateTask api message id updates w).1
            = OfflineQueue.Ok (TaskThunks.Rejected "Failed to update task offline")
          /\ OfflineQueue.storage (TaskThunks.updateTask api message id updates w).2
             = OfflineQueue.storage w)).
Proof.
  intros Hf. split.
  - intros Hfail. unfold TaskThunks.deleteTask.
    rewrite ThunkFacts.run_callAPI, Hfail. cbv zeta.
    rewrite ThunkFacts.newError_isNetworkError. unfold OfflineQueue.try_catch.
    set (w0 := OfflineQueue.mkWorld _ _ _ _ _ _ _).
    destruct (QueueMore.deleteTaskOffline_fault_free id w0 Hf)
      as (o & w' & Hrun & Ho & Hs & _ & _ & Hrq).
    rewrite QueueFacts.run_bind, Hrun. cbn [fst snd].
    exists o, w'. split; [reflexivity|]. split; [done|]. by rewrite Hs.
  - intros Hfail. split.
    + intros before old after Hc Hb Hold. unfold TaskThunks.updateTask.
      rewrite ThunkFacts.run_callAPI, Hfail. cbv zeta.
      rewrite ThunkFacts.newError_isNetworkError. unfold OfflineQueue.try_catch.
      set (w0 := OfflineQueue.mkWorld _ _ _ _ _ _ _).
      destruct (QueueMore.updateTaskOffline_found id updates w0 before after old
                  Hf Hc Hb Hold)
        as (new & o & w' & Hrun & _ & Hnid & Ho & Hs & _).
      rewrite QueueFacts.run_bind, Hrun. cbn [fst snd].
      by exists new, o, w'.
    + intros Hno. unfold TaskThunks.updateTask.
      rewrite ThunkFacts.run_callAPI, Hfail. cbv zeta.
      rewrite ThunkFacts.newError_isNetworkError. unfold OfflineQueue.try_catch.
      set (w0 := OfflineQueue.mkWorld _ _ _ _ _ _ _).
      rewrite QueueFacts.run_bind.
      by rewrite (QueueMore.updateTaskOffline_not_found id updates w0 Hf Hno).
Qed.

Lemma update_delete_thunks_fall_back_on_any_failure_witness :
  (exists o w',
     TaskThunks.deleteTask Retry.rejecting Retry.validation_failed "temp_1"
       Retry.cached_device
       = (OfflineQueue.Ok (TaskThunks.Fulfilled "temp_1"), w')
     /\ OfflineQueue.operation o = OfflineQueue.DELETE "temp_1"
     /\ OfflineQueue.offlineQueue (OfflineQueue.storage w')
        = Some (default [] (OfflineQueue.offlineQueue
                              (OfflineQueue.storage Retry.cached_device)) ++ [o])
     /\ OfflineQueue.requests w'
        = OfflineQueue.requests Retry.cached_device ++ [OfflineQueue.ReqDelete "temp_1"])
  /\ (TaskThunks.updateTask Retry.rejecting Retry.validation_failed "id7"
        Scenario.rename Retry.cached_device).1
     = OfflineQueue.Ok (TaskThunks.Rejected "Failed to update task offline").
Proof.
  split.
  - exact (proj1 (update_delete_thunks_fall_back_on_any_failure Retry.rejecting
                    Retry.validation_failed "temp_1" Scenario.rename
                    Retry.cached_device eq_refl) eq_refl).
  - apply (proj2 (update_delete_thunks_fall_back_on_any_failure Retry.rejecting
                    Retry.validation_failed "id7" Scenario.rename
                    Retry.cached_device eq_refl) eq_refl).
    repeat constructor; vm_compute; discriminate.
Defined.

Module RetryFacts.
Import OfflineQueue Drain Enqueue Retry.

Section Passes.
Context {RemoteState : Type}.
Variable api : TaskAPI RemoteState.

(** A queued Create that the service rejects in every state survives any
    number of passes. *)
Lemma passes_rejected taskData tempId (o : PendingOperation) n :
  operation o = CREATE taskData tempId ->
  (forall s, success (api_createTask api taskData s).1 = false) ->
  forall w : World RemoteState,
  faults w = [] ->
  offlineQueue (storage w) = Some [o] ->
  (passes api n w).1 = Ok tt
  /\ storage (passes api n w).2 = storage w
  /\ requests (passes api n w).2 = requests w ++ replicate n (ReqCreate taskData).
Proof.
  intros Ho Hrej. induction n as [|n IH]; intros w Hf Hq.
  - cbn. by rewrite app_nil_r.
  - cbn [passes]. rewrite QueueFacts.run_bind.
    assert (Forall (fun b => b = false) (outcomes api [o] (remote w))) as Hnone.
    { cbn [outcomes]. repeat constructor. unfold attempt. rewrite Ho. apply Hrej. }
    destruct (QueueMore.processOfflineQueue_none api w [o] Hf Hq ltac:(done) Hnone)
      as (Hret & Hs & Hf' & Hrq).
    destruct (processOfflineQueue api w) as [r w1]. cbn [fst snd] in *. subst r.
    destruct (IH w1 Hf' ltac:(by rewrite Hs)) as (Hret' & Hs' & Hrq').
    split; [done|]. split; [by rewrite Hs'|].
    rewrite Hrq', Hrq. cbn [fmap list_fmap replicate]. unfold request_of.
    rewrite Ho. by rewrite <- app_assoc.
Qed.
End Passes.
End RetryFacts.

(** X28: A create request that the service rejects every time, as it does a task
    that fails its validation, is fulfilled offline by the thunk and then
    replayed by every drain pass: after any number of passes the Create is
    still the only queued operation, and the service has been asked once by
    the thunk and once by each pass. *)
Theorem rejected_create_is_replayed_by_every_pass {RemoteState : Type}
        (api : OfflineQueue.TaskAPI RemoteState)
        (message : OfflineQueue.ApiResponse -> option string)
        (taskData : OfflineQueue.TaskForm) (w : OfflineQueue.World RemoteState)
        (n : nat) :
  OfflineQueue.faults w = [] ->
  default [] (OfflineQueue.offlineQueue (OfflineQueue.storage w)) = [] ->
  (forall s, OfflineQueue.success (OfflineQueue.api_createTask api taskData s).1
             = false) ->
  exists task o w',
    (TaskThunks.createTask api message taskData;; Retry.passes api n) w
      = (OfflineQueue.Ok tt, w')
    /\ Drain.isTemporaryId (_id task) = true
    /\ OfflineQueue.operation o = OfflineQueue.CREATE taskData (Some (_id task))
    /\ OfflineQueue.offlineQueue (OfflineQueue.storage w') = Some [o]
    /\ OfflineQueue.requests w'
       = OfflineQueue.requests w
         ++ replicate (S n) (OfflineQueue.ReqCreate taskData).
Proof.
  intros Hf Hq Hrej.
  destruct (createTask_offline_path api message taskData w
              Hf (Hrej _))
    as (task & o & w1 & Hrun & Htemp & Ho & Hq1 & Hrq1 & Hf1).
  rewrite Hq in Hq1. cbn [app] in Hq1.
  destruct (RetryFacts.passes_rejected api taskData _ o n Ho Hrej w1 Hf1 Hq1)
    as (Hret & Hs & Hrq).
  exists task, o, (Retry.passes api n w1).2.
  rewrite QueueFacts.run_bind, Hrun. cbn [fst snd].
  split; [by rewrite <- Hret; destruct (Retry.passes api n w1)|].
  split; [done|]. split; [done|]. split; [by rewrite Hs|].
  rewrite Hrq, Hrq1, <- app_assoc. done.
Qed.

Lemma rejected_create_is_replayed_by_every_pass_witness :
  exists task o w',
    (TaskThunks.createTask Retry.rejecting Retry.validation_failed Scenario.milk;;
     Retry.passes Retry.rejecting 3) Retry.fresh_device
      = (OfflineQueue.Ok tt, w')
    /\ Drain.isTemporaryId (_id task) = true
    /\ OfflineQueue.operation o = OfflineQueue.CREATE Scenario.milk (Some (_id task))
    /\ OfflineQueue.offlineQueue (OfflineQueue.storage w') = Some [o]
    /\ OfflineQueue.requests w'
       = OfflineQueue.requests Retry.fresh_device
         ++ replicate 4 (OfflineQueue.ReqCreate Scenario.milk).
Proof.
  exact (rejected_create_is_replayed_by_every_pass Retry.rejecting
           Retry.validation_failed Scenario.milk Retry.fresh_device 3
           eq_refl eq_refl (fun _ => eq_refl)).
Defined.

(** ** Reducers *)
Module SliceFacts.
Import TaskSlice Actions.

Lemma writes_tasks_in_step now st a :
  writes_tasks a = true ->
  stats (reducer now st a) = ClientStats.calculateStats now (tasks (reducer now st a)).
Proof. by destruct a. Qed.

Lemma replaceAt_first t before old after :
  Forall (fun x => _id x <> _id t) before -> _id old = _id t ->
  replaceAt (findIndex (Some (_id t)) (before ++ old :: after)) t
            (before ++ old :: after)
  = before ++ t :: after.
Proof.
  intros Hb Hold. unfold findIndex, replaceAt.
  rewrite (QueueMore.findIndex_first (_id t) before after old Hb Hold).
  by rewrite insert_app_r_alt, Nat.sub_diag by lia.
Qed.
End SliceFacts.

(** X29: Every reducer that writes the task list recomputes the statistics from
    the new list; [clearTasks] empties the list and keeps the statistics, so
    that afterwards the total still counts the tasks that are gone. *)
Theorem clearTasks_keeps_stale_statistics (now later : Z)
        (st : TaskSlice.TaskState) (a : TaskSlice.Action) :
  Actions.writes_tasks a = true ->
  let st1 := TaskSlice.reducer now st a in
  let st2 := TaskSlice.reducer later st1 TaskSlice.clearTasks in
  TaskSlice.stats st1 = ClientStats.calculateStats now (TaskSlice.tasks st1)
  /\ TaskSlice.tasks st2 = []
  /\ TaskSlice.currentTask st2 = None
  /\ Stats.total (TaskSlice.stats st2) = Z.of_nat (length (TaskSlice.tasks st1)).
Proof.
  intros Ha. cbv zeta.
  pose proof (SliceFacts.writes_tasks_in_step now st a Ha) as Hstep.
  split; [done|]. cbn [TaskSlice.reducer TaskSlice.tasks TaskSlice.currentTask
                       TaskSlice.stats].
  split; [done|]. split; [done|].
  by rewrite Hstep, StatsFacts.calculateStats_total.
Qed.

Lemma clearTasks_keeps_stale_statistics_witness :
  let st1 := TaskSlice.reducer Fixtures.now0 TaskSlice.initialState
               (TaskSlice.fetchTasks_fulfilled [Fixtures.late; Fixtures.soon]) in
  let st2 := TaskSlice.reducer (Fixtures.now0 + 1) st1 TaskSlice.clearTasks in
  TaskSlice.stats st1
    = ClientStats.calculateStats Fixtures.now0 (TaskSlice.tasks st1)
  /\ TaskSlice.tasks st2 = []
  /\ TaskSlice.currentTask st2 = None
  /\ Stats.total (TaskSlice.stats st2) = Z.of_nat (length (TaskSlice.tasks st1)).
Proof.
  exact (clearTasks_keeps_stale_statistics Fixtures.now0 (Fixtures.now0 + 1)
           TaskSlice.initialState
           (TaskSlice.fetchTasks_fulfilled [Fixtures.late; Fixtures.soon]) eq_refl).
Defined.

(** X30: [updateTask.fulfilled] and [completeTask.fulfilled] put a payload that is
    a task in the place of the first listed task with its id, and of the
    selected task when that has its id, and change no other entry.  A
    payload that is the response's [{ task }] object, as the online path of
    the update thunk returns it, has no [_id]: the list and the selected
    task stay as they were. *)
Theorem fulfilled_update_replaces_task_but_not_envelope (now : Z)
        (st : TaskSlice.TaskState) (t old : Task) (before after : list Task) :
  TaskSlice.tasks st = before ++ old :: after ->
  Forall (fun x => _id x <> _id t) before ->
  _id old = _id t ->
  TaskSlice.currentTask st = Some old ->
  TaskSlice.tasks (TaskSlice.reducer now st
                     (TaskSlice.updateTask_fulfilled (TaskSlice.TaskObject t)))
    = before ++ t :: after
  /\ TaskSlice.currentTask
       (TaskSlice.reducer now st
          (TaskSlice.updateTask_fulfilled (TaskSlice.TaskObject t))) = Some t
  /\ TaskSlice.tasks (TaskSlice.reducer now st (TaskSlice.completeTask_fulfilled t))
     = before ++ t :: after
  /\ TaskSlice.currentTask
       (TaskSlice.reducer now st (TaskSlice.completeTask_fulfilled t)) = Some t
  /\ TaskSlice.tasks (TaskSlice.reducer now st
                        (TaskSlice.updateTask_fulfilled (TaskSlice.TaskEnvelope t)))
     = before ++ old :: after
  /\ TaskSlice.currentTask
       (TaskSlice.reducer now st
          (TaskSlice.updateTask_fulfilled (TaskSlice.TaskEnvelope t))) = Some old.
Proof.
  intros Hl Hb Hold Hc.
  cbn [TaskSlice.reducer TaskSlice.tasks TaskSlice.currentTask
       TaskSlice.payload_id TaskSlice.payload_task].
  rewrite Hl, SliceFacts.replaceAt_first by done.
  unfold TaskSlice.isCurrent. rewrite Hc, Hold, String.eqb_refl.
  by repeat split.
Qed.

Lemma fulfilled_update_replaces_task_but_not_envelope_witness :
  TaskSlice.tasks (TaskSlice.reducer Fixtures.now0 Actions.showing
                     (TaskSlice.updateTask_fulfilled
                        (TaskSlice.TaskObject Actions.soon_renamed)))
    = [Fixtures.late] ++ Actions.soon_renamed :: []
  /\ TaskSlice.currentTask
       (TaskSlice.reducer Fixtures.now0 Actions.showing
          (TaskSlice.updateTask_fulfilled
             (TaskSlice.TaskObject Actions.soon_renamed)))
     = Some Actions.soon_renamed
  /\ TaskSlice.tasks (TaskSlice.reducer Fixtures.now0 Actions.showing
                        (TaskSlice.completeTask_fulfilled Actions.soon_renamed))
     = [Fixtures.late] ++ Actions.soon_renamed :: []
  /\ TaskSlice.currentTask
       (TaskSlice.reducer Fixtures.now0 Actions.showing
          (TaskSlice.completeTask_fulfilled Actions.soon_renamed))
     = Some Actions.soon_renamed
  /\ TaskSlice.tasks (TaskSlice.reducer Fixtures.now0 Actions.showing
                        (TaskSlice.updateTask_fulfilled
                           (TaskSlice.TaskEnvelope Actions.soon_renamed)))
     = [Fixtures.late] ++ Fixtures.soon :: []
  /\ TaskSlice.currentTask
       (TaskSlice.reducer Fixtures.now0 Actions.showing
          (TaskSlice.updateTask_fulfilled
             (TaskSlice.TaskEnvelope Actions.soon_renamed)))
     = Some Fixtures.soon.
Proof.
  apply (fulfilled_update_replaces_task_but_not_envelope Fixtures.now0
           Actions.showing Actions.soon_renamed Fixtures.soon
           [Fixtures.late] [] eq_refl).
  - repeat constructor. vm_compute. discriminate.
  - reflexivity.
  - reflexivity.
Defined.
